(** * A shallow embedding of the TypeScript tutorial snippets

    The repository is a collection of annotated TypeScript examples.  The
    snippets that carry runtime behaviour (error-handling helpers, a few
    small classes, a type guard, a generic collection) are embedded here as
    Rocq functions, and the statements the specification makes about them
    are settled against these definitions.

    Conventions of the embedding:
    - a JavaScript [number] is an IEEE-754 binary64 value, i.e. a primitive
      [float]; [===] on numbers is [PrimFloat.eqb], [<] is [PrimFloat.ltb];
    - a JavaScript string value is the sequence of its UTF-16 code units, a
      [JsString]; its [length] is the number of code units.  Property names
      and the text of messages are [string]s;
    - a dynamically typed value ([unknown], [any]) is a [JsValue];
    - a function that may throw returns a [Completion];
    - objects that are mutated in place live in explicit state. *)

From Stdlib Require Import PrimFloat FloatOps FloatAxioms SpecFloat ZArith List
  String Ascii Bool Lia.
From stdpp Require Import gmap strings list fin_maps pretty.

Set Warnings "-register-all,-inexact-float".
Local Open Scope string_scope.

(* ===================================================================== *)
(** ** JavaScript values                                                   *)
(* ===================================================================== *)

Module Js.

(** A string value: its UTF-16 code units, in order. *)
Abbreviation JsString := (list N).

(** The string value a literal made of ASCII characters denotes: one code
    unit per character. *)
Definition js (literal : string) : JsString :=
  List.map N_of_ascii (list_ascii_of_string literal).

(** Runtime values.  Functions are opaque (an identifier stands for the
    closure); objects are finite maps from property names to values. *)
Inductive JsValue : Type :=
  | VUndefined
  | VNull
  | VBoolean (b : bool)
  | VNumber (n : float)
  | VBigInt (z : Z)
  | VString (s : JsString)
  | VSymbol (id : nat)
  | VFunction (id : nat)
  | VObject (props : gmap string JsValue).

(** The [typeof] operator. *)
Definition typeof (v : JsValue) : string :=
  match v with
  | VUndefined => "undefined"
  | VNull => "object"
  | VBoolean _ => "boolean"
  | VNumber _ => "number"
  | VBigInt _ => "bigint"
  | VString _ => "string"
  | VSymbol _ => "symbol"
  | VFunction _ => "function"
  | VObject _ => "object"
  end.

(** [v === undefined] and [v === null]. *)
Definition is_undefined (v : JsValue) : bool :=
  match v with VUndefined => true | _ => false end.

Definition is_null (v : JsValue) : bool :=
  match v with VNull => true | _ => false end.

(** A number is falsy when it is [+0], [-0] or [NaN]. *)
Definition number_falsy (n : float) : bool :=
  (n =? 0)%float || negb (n =? n)%float.

(** ToBoolean: the truthiness used by [!v], [v || w] and [if (v)]. *)
Definition truthy (v : JsValue) : bool :=
  match v with
  | VUndefined | VNull => false
  | VBoolean b => b
  | VNumber n => negb (number_falsy n)
  | VBigInt z => negb (z =? 0)%Z
  | VString s => match s with [] => false | _ :: _ => true end
  | VSymbol _ | VFunction _ | VObject _ => true
  end.

(** Property read [v.key] on a value that is not [null] or [undefined]:
    an absent property reads as [undefined]. *)
Definition get (v : JsValue) (key : string) : JsValue :=
  match v with
  | VObject props => default VUndefined (props !! key)
  | _ => VUndefined
  end.

(** [s.length] for a string value: the number of its code units. *)
Definition str_length (v : JsValue) : nat :=
  match v with VString s => List.length s | _ => 0 end.

(** [sub] is what [s] starts with. *)
Fixpoint starts_with (sub s : JsString) : bool :=
  match sub, s with
  | [], _ => true
  | _ :: _, [] => false
  | c :: sub', d :: s' => (c =? d)%N && starts_with sub' s'
  end.

(** [s.includes(sub)]: [sub] occurs somewhere in [s]. *)
Fixpoint includes (s sub : JsString) : bool :=
  starts_with sub s
  || match s with
     | [] => false
     | _ :: s' => includes s' sub
     end.

Definition str_includes (v : JsValue) (sub : JsString) : bool :=
  match v with VString s => includes s sub | _ => false end.

(** The loop counter of a [for (let i = 0; ...; i++)] loop, as the number
    the program sees: [0] incremented [n] times. *)
Fixpoint float_of_nat (n : nat) : float :=
  match n with
  | O => 0%float
  | S n' => (float_of_nat n' + 1)%float
  end.

(** Error objects.  The class decides what [instanceof] answers: [Error]
    itself, the built-in [TypeError], and the classes declared in
    errorsHandling.ts. *)
Inductive ErrorClass : Type :=
  | CError
  | CTypeError
  | CValidationError
  | CDatabaseError (code : float)
  | CApiError (status : float) (code : string) (details : JsValue).

Record ErrorObj : Type := mkErrorObj {
  err_class : ErrorClass;
  err_message : string
}.

(** [new Error(message)] *)
Definition new_Error (message : string) : ErrorObj :=
  mkErrorObj CError message.

(** The [name] property the constructors assign. *)
Definition err_name (e : ErrorObj) : string :=
  match err_class e with
  | CError => "Error"
  | CTypeError => "TypeError"
  | CValidationError => "ValidationError"
  | CDatabaseError _ => "DatabaseError"
  | CApiError _ _ _ => "ApiError"
  end.

(** Anything can be thrown: an error object or a plain value. *)
Inductive Thrown : Type :=
  | ThrownError (e : ErrorObj)
  | ThrownValue (v : JsValue).

(** The outcome of running code that may throw. *)
Inductive Completion (A : Type) : Type :=
  | Return (a : A)
  | Throw (t : Thrown).

Arguments Return {A} a.
Arguments Throw {A} t.

End Js.

Import Js.

(* ===================================================================== *)
(** ** errorsHandling.ts                                                   *)
(* ===================================================================== *)

Module ErrorsHandling.

(** [type Result<T, E = Error>]: a discriminated union on [success]. *)
Inductive Result (T E : Type) : Type :=
| Success (value : T)
| Failure (error : E).

Arguments Success {T E} value.
Arguments Failure {T E} error.

(** [class ValidationError extends Error] *)
Definition new_ValidationError (message : string) : ErrorObj :=
  mkErrorObj CValidationError message.

(** [class ApiError extends Error] *)
Definition new_ApiError (status : float) (code message : string)
    (details : JsValue) : ErrorObj :=
  mkErrorObj (CApiError status code details) message.

Definition instanceof_Error (t : Thrown) : bool :=
  match t with ThrownError _ => true | ThrownValue _ => false end.

Definition instanceof_ValidationError (t : Thrown) : bool :=
  match t with
  | ThrownError {| err_class := CValidationError |} => true
  | _ => false
  end.

Definition instanceof_DatabaseError (t : Thrown) : bool :=
  match t with
  | ThrownError {| err_class := CDatabaseError _ |} => true
  | _ => false
  end.

Definition instanceof_ApiError (t : Thrown) : bool :=
  match t with
  | ThrownError {| err_class := CApiError _ _ _ |} => true
  | _ => false
  end.

(** [function validateUser(user: unknown): void] *)
Definition validateUser (user : JsValue) : Completion unit :=
  if negb (typeof user =? "object") || is_null user
  then Throw (ThrownError (new_ValidationError "User must be an object"))
  else Return tt.

(** [function divide(a: number, b: number): Result<number>] *)
Definition divide (a b : float) : Result float ErrorObj :=
  if (b =? 0)%float
  then Failure (new_Error "Division by zero")
  else Success (a / b)%float.

(** [type Either<L, R> = Left<L> | Right<R>], tagged by [tag]. *)
Inductive Either (L R : Type) : Type :=
| Left (error : L)
| Right (value : R).

Arguments Left {L R} error.
Arguments Right {L R} value.

Definition left {L R : Type} (error : L) : Either L R := Left error.
Definition right {L R : Type} (value : R) : Either L R := Right value.

(** [function divideEither(a: number, b: number): Either<string, number>] *)
Definition divideEither (a b : float) : Either string float :=
  if (b =? 0)%float
  then left "Division by zero"
  else right (a / b)%float.

(** [function fail(message: string): never] *)
Definition fail {A : Type} (message : string) : Completion A :=
  Throw (ThrownError (new_Error message)).

(** [function assertIsString(value: unknown, message: string): asserts value is string] *)
Definition assertIsString (value : JsValue) (message : string) : Completion unit :=
  if negb (typeof value =? "string")
  then Throw (ThrownError (new_Error
         (message ++ " (expected string, got " ++ typeof value ++ ")")))
  else Return tt.

(** What [input.toUpperCase()] does once [input] is known to be a string;
    on any other value the method does not exist and the call throws a
    [TypeError] (unreachable after the assertion). *)
Definition call_toUpperCase (toUpperCase : JsString -> JsString)
    (input : JsValue) : Completion JsString :=
  match input with
  | VString s => Return (toUpperCase s)
  | _ => Throw (ThrownError (new_Error "input.toUpperCase is not a function"))
  end.

(** [function processInput(input: unknown): string].  The built-in
    [String.prototype.toUpperCase] is a parameter. *)
Definition processInput (toUpperCase : JsString -> JsString) (input : JsValue)
    : Completion JsString :=
  match assertIsString input "Input must be a string" with
  | Throw t => Throw t
  | Return _ => call_toUpperCase toUpperCase input
  end.


(** Console output.  A line is the list of the arguments of one
    [console.error] / [console.log] call. *)
Inductive ConsoleArg : Type :=
| AText (s : string)
| AThrown (t : Thrown).

Definition ConsoleLine : Type := list ConsoleArg.

(** [error.message] for a caught value known to be an error. *)
Definition message_of (t : Thrown) : string :=
  match t with
  | ThrownError e => err_message e
  | ThrownValue _ => ""
  end.

(** [error.code] for a caught [DatabaseError]. *)
Definition database_code_of (t : Thrown) : float :=
  match t with
  | ThrownError {| err_class := CDatabaseError code |} => code
  | _ => nan
  end.

(** The body of [saveUser] with the function it calls as a parameter; the
    result is what it prints.  Number formatting in template literals is
    the runtime's [number_to_string]. *)
Definition saveUser_body (validateUser : JsValue -> Completion unit)
    (number_to_string : float -> string) (user : JsValue)
    : list ConsoleLine :=
  match validateUser user with
  | Return _ => []
  | Throw error =>
      if instanceof_ValidationError error then
        [[AText "Validation failed:"; AText (message_of error)]]
      else if instanceof_DatabaseError error then
        [[AText ("Database error "
                 ++ number_to_string (database_code_of error) ++ ":");
          AText (message_of error)]]
      else
        [[AText "Unknown error:"; AThrown error]]
  end.

(** [function saveUser(user: unknown): void] *)
Definition saveUser : (float -> string) -> JsValue -> list ConsoleLine :=
  saveUser_body validateUser.

(** The body of [performDivision] with the function it calls as a
    parameter: the returned value ([None] is [null]) and what is printed. *)
Definition performDivision_body
    (divide : float -> float -> Result float ErrorObj) (a b : float)
    : option float * list ConsoleLine :=
  let result := divide a b in
  match result with
  | Success value => (Some value, [])
  | Failure error => (None, [[AText (err_message error)]])
  end.

(** [function performDivision(a: number, b: number): number | null] *)
Definition performDivision : float -> float -> option float * list ConsoleLine :=
  performDivision_body divide.

(** [type FieldError] *)
Record FieldError : Type := mkFieldError {
  field : string;
  message : string;
  code : string
}.

(** [type ValidationResult<T>]: a discriminated union on [valid]. *)
Inductive ValidationResult (T : Type) : Type :=
| Valid (data : T)
| Invalid (errors : list FieldError).

Arguments Valid {T} data.
Arguments Invalid {T} errors.

(** The username block of [validateUserForm]: what it pushes on [errors]. *)
Definition check_username (data : JsValue) (errors : list FieldError)
    : list FieldError :=
  if negb (truthy (get data "username"))
     || negb (typeof (get data "username") =? "string")
  then errors ++ [mkFieldError "username"
                    "Username is required and must be a string"
                    "INVALID_USERNAME"]
  else if (str_length (get data "username") <? 3)%nat
  then errors ++ [mkFieldError "username"
                    "Username must be at least 3 characters"
                    "USERNAME_TOO_SHORT"]
  else errors.

(** The email block. *)
Definition check_email (data : JsValue) (errors : list FieldError)
    : list FieldError :=
  if negb (truthy (get data "email"))
     || negb (typeof (get data "email") =? "string")
  then errors ++ [mkFieldError "email"
                    "Email is required and must be a string"
                    "INVALID_EMAIL"]
  else if negb (str_includes (get data "email") (js "@"))
  then errors ++ [mkFieldError "email"
                    "Email must be a valid email address"
                    "INVALID_EMAIL_FORMAT"]
  else errors.

(** [data.age < 18] once [data.age] is known to be a number. *)
Definition number_lt (v : JsValue) (bound : float) : bool :=
  match v with VNumber n => (n <? bound)%float | _ => false end.

(** The age block. *)
Definition check_age (data : JsValue) (errors : list FieldError)
    : list FieldError :=
  if is_undefined (get data "age")
     || negb (typeof (get data "age") =? "number")
  then errors ++ [mkFieldError "age"
                    "Age is required and must be a number"
                    "INVALID_AGE"]
  else if number_lt (get data "age") 18
  then errors ++ [mkFieldError "age"
                    "You must be at least 18 years old"
                    "AGE_TOO_YOUNG"]
  else errors.

(** The object literal [{ username, email, age }] built from [data]. *)
Definition user_form_of (data : JsValue) : JsValue :=
  VObject (<["username" := get data "username"]>
           (<["email" := get data "email"]>
            (<["age" := get data "age"]> ∅))).

(** [function validateUserForm(form: unknown): ValidationResult<UserForm>] *)
Definition validateUserForm (form : JsValue) : ValidationResult JsValue :=
  let errors : list FieldError := [] in
  if negb (typeof form =? "object") || is_null form then
    Invalid (errors ++ [mkFieldError "_form"
                          "Form data must be an object"
                          "INVALID_FORM"])
  else
    let data := form in
    let errors := check_username data errors in
    let errors := check_email data errors in
    let errors := check_age data errors in
    if (0 <? List.length errors)%nat then Invalid errors
    else Valid (user_form_of data).

(** [function processUserForm(formData: unknown): UserForm | null]:
    the returned value and one printed line per error. *)
Definition processUserForm (formData : JsValue)
    : option JsValue * list ConsoleLine :=
  let result := validateUserForm formData in
  match result with
  | Valid data => (Some data, [])
  | Invalid errors =>
      (None,
       List.map (fun error =>
                   [AText (field error ++ ": " ++ message error
                           ++ " (" ++ code error ++ ")")])
                errors)
  end.

(** [type RetryOptions]: three numbers.  [withRetry] receives an object
    and reads its properties when it needs them; what it reads is a function
    of the world, since [fn] and whatever runs during a pause can reach the
    object and write to it. *)
Record RetryOptions : Type := mkRetryOptions {
  maxRetries : float;
  delay : float;
  backoffFactor : float
}.

(** The default value of the [options] parameter of [withRetry]. *)
Definition default_options : RetryOptions := mkRetryOptions 3 300 2.

(** What [withRetry] does that can be observed from outside: it calls [fn]
    (the attempt number and, for a failed call, what was thrown), it prints a
    line, it sleeps with [setTimeout]. *)
Inductive Event : Type :=
| EvCall (attempt : nat) (failure : option Thrown)
| EvLog (line : string)
| EvSleep (ms : float).

(** [error instanceof ApiError && error.status >= 500] *)
Definition retryable (error : Thrown) : bool :=
  match error with
  | ThrownError {| err_class := CApiError status _ _ |} => (500 <=? status)%float
  | _ => false
  end.

(** The run-time services [withRetry] relies on: [Math.pow], the conversion
    of a number to text in a template literal, and what a [setTimeout] pause
    of the given length does to the world around the program. *)
Record Runtime (World : Type) : Type := mkRuntime {
  Math_pow : float -> float -> float;
  number_to_string : float -> string;
  sleep : float -> World -> World
}.

Arguments Math_pow {World} _ _ _.
Arguments number_to_string {World} _ _.
Arguments sleep {World} _ _ _.

(** The loop test [attempt < options.maxRetries].  The variable [attempt]
    is the number [0] incremented once per iteration; the [nat] counts the
    increments. *)
Definition in_bounds (options : RetryOptions) (attempt : nat) : bool :=
  (float_of_nat attempt <? maxRetries options)%float.

(** [options.delay * Math.pow(options.backoffFactor, attempt)] *)
Definition retryDelay {World : Type} (rt : Runtime World)
    (options : RetryOptions) (attempt : nat) : float :=
  (delay options * Math_pow rt (backoffFactor options) (float_of_nat attempt))%float.

(** The line printed before a pause. *)
Definition retry_line {World : Type} (rt : Runtime World)
    (options : RetryOptions) (attempt : nat) : string :=
  "Retrying after " ++ number_to_string rt (retryDelay rt options attempt)
  ++ "ms (attempt " ++ number_to_string rt (float_of_nat attempt + 1)%float
  ++ "/" ++ number_to_string rt (maxRetries options) ++ ")".

(** The [for] loop of [withRetry], entered with [attempt] and [lastError].
    [fn] is an effectful thunk: it reads and changes the world and either
    returns or throws.  [options w] is what the properties of the options
    object read in the world [w].  The loop need not end (a [maxRetries] of
    [Infinity] and a thunk that keeps failing), so it runs on [fuel], one
    unit per evaluation of the loop test; [None] is "still running". *)
Fixpoint withRetry_loop {World T : Type} (rt : Runtime World)
    (fn : World -> Completion T * World) (options : World -> RetryOptions)
    (fuel attempt : nat) (lastError : Thrown) (w : World)
    : option (Completion T * World * list Event) :=
  match fuel with
  | O => None
  | S fuel' =>
      if in_bounds (options w) attempt then
        match fn w with
        | (Return v, w1) => Some (Return v, w1, [EvCall attempt None])
        | (Throw error, w1) =>
            if retryable error then
              let d := retryDelay rt (options w1) attempt in
              match withRetry_loop rt fn options fuel' (S attempt) error
                                   (sleep rt d w1) with
              | Some (outcome, w2, events) =>
                  Some (outcome, w2,
                        EvCall attempt (Some error)
                          :: EvLog (retry_line rt (options w1) attempt)
                          :: EvSleep d :: events)
              | None => None
              end
            else Some (Throw error, w1, [EvCall attempt (Some error)])
        end
      else Some (Throw lastError, w, [])
  end.

(** [async function withRetry<T>(fn, options): Promise<T>].  [lastError]
    starts out [undefined]. *)
Definition withRetry {World T : Type} (fuel : nat) (rt : Runtime World)
    (fn : World -> Completion T * World) (options : World -> RetryOptions)
    (w : World) : option (Completion T * World * list Event) :=
  withRetry_loop rt fn options fuel 0 (ThrownValue VUndefined) w.

(** An options object nothing else refers to (the default value of the
    parameter, an object literal in the call): it reads the same in every
    world. *)
Definition fixed {World : Type} (options : RetryOptions)
    : World -> RetryOptions :=
  fun _ => options.

(** The body of [fetchUserWithRetry] with the two functions it calls as
    parameters. *)
Definition fetchUserWithRetry_body {World T R : Type}
    (withRetry : (World -> Completion T * World) -> (World -> RetryOptions)
                 -> World -> R)
    (apiRequest : string -> World -> Completion T * World)
    (userId : string) (w : World) : R :=
  withRetry (fun w' => apiRequest ("/api/users/" ++ userId) w')
            (fixed (mkRetryOptions 3 500 1.5)) w.

(** [async function fetchUserWithRetry(userId: string): Promise<User>].
    [apiRequest] talks to the network through [fetch]; its outcome for a URL
    is a function of the world. *)
Definition fetchUserWithRetry {World T : Type} (fuel : nat) (rt : Runtime World)
    (apiRequest : string -> World -> Completion T * World)
    (userId : string) (w : World)
    : option (Completion T * World * list Event) :=
  fetchUserWithRetry_body (withRetry fuel rt) apiRequest userId w.

End ErrorsHandling.

Import ErrorsHandling.

(* ===================================================================== *)
(** ** classes&interface.ts                                                *)
(* ===================================================================== *)

Module Classes.

(** [class BankAccount] *)
Record BankAccount : Type := mkBankAccount {
  accountNumber : string;
  balance : float;
  ownerName : string
}.

(** [new BankAccount(accountNumber, ownerName, initialBalance)] *)
Definition new_BankAccount (accountNumber ownerName : string)
    (initialBalance : float) : BankAccount :=
  mkBankAccount accountNumber initialBalance ownerName.

(** [public getBalance(): number] *)
Definition getBalance (this : BankAccount) : float := balance this.

(** [public deposit(amount: number): void]: the completion and the object
    afterwards. *)
Definition deposit (amount : float) (this : BankAccount)
    : Completion unit * BankAccount :=
  if (amount <=? 0)%float
  then (Throw (ThrownError (new_Error "Deposit amount must be positive")), this)
  else (Return tt,
        mkBankAccount (accountNumber this) (balance this + amount)%float
                      (ownerName this)).

(** [class Temperature]: the private field [_celsius]. *)
Record Temperature : Type := mkTemperature {
  _celsius : float
}.

(** [new Temperature()]: the field initialiser [_celsius = 0]. *)
Definition new_Temperature : Temperature := mkTemperature 0.

(** [get celsius(): number] *)
Definition get_celsius (this : Temperature) : float := _celsius this.

(** [set celsius(value: number)] *)
Definition set_celsius (value : float) (this : Temperature)
    : Completion unit * Temperature :=
  if (value <? -273.15)%float
  then (Throw (ThrownError
                 (new_Error "Temperature below absolute zero is not possible")),
        this)
  else (Return tt, mkTemperature value).

(** [get fahrenheit(): number] *)
Definition get_fahrenheit (this : Temperature) : float :=
  ((_celsius this * 9) / 5 + 32)%float.

(** [set fahrenheit(value: number)]: assigns through the [celsius] setter. *)
Definition set_fahrenheit (value : float) (this : Temperature)
    : Completion unit * Temperature :=
  set_celsius (((value - 32) * 5) / 9)%float this.

(** An assignment to one of the two writable properties of a
    [Temperature]. *)
Inductive TemperatureOp : Type :=
| AssignCelsius (value : float)
| AssignFahrenheit (value : float).

Definition assign (op : TemperatureOp) (this : Temperature)
    : Completion unit * Temperature :=
  match op with
  | AssignCelsius value => set_celsius value this
  | AssignFahrenheit value => set_fahrenheit value this
  end.

(** A sequence of assignments, each in its own [try]: a rejected one leaves
    the object as it was and the next one still runs. *)
Fixpoint assign_all (ops : list TemperatureOp) (this : Temperature)
    : Temperature :=
  match ops with
  | [] => this
  | op :: ops' => assign_all ops' (snd (assign op this))
  end.

End Classes.

(* ===================================================================== *)
(** ** generics.ts                                                         *)
(* ===================================================================== *)

Module Generics.

(** [class Box<T>]: the private field [value]. *)
Record Box (T : Type) : Type := mkBox { box_value : T }.

Arguments mkBox {T} _.
Arguments box_value {T} _.

(** Calls on a [Box<T>] and what they return. *)
Inductive BoxCall (T : Type) : Type :=
| GetValue
| SetValue (value : T).

Arguments GetValue {T}.
Arguments SetValue {T} value.

(** [getValue(): T] returns the field, [setValue(value: T): void] assigns it
    and returns nothing ([None]). *)
Definition box_call {T : Type} (c : BoxCall T) (this : Box T)
    : option T * Box T :=
  match c with
  | GetValue => (Some (box_value this), this)
  | SetValue value => (None, mkBox value)
  end.

(** [function createState<T>(initial: T)]: the variable [state] captured by
    the two closures it returns. *)
Record State (T : Type) : Type := mkState { state : T }.

Arguments mkState {T} _.
Arguments state {T} _.

Definition createState {T : Type} (initial : T) : State T := mkState initial.

Inductive StateCall (T : Type) : Type :=
| Get
| Set_ (newState : T).

Arguments Get {T}.
Arguments Set_ {T} newState.

Definition state_call {T : Type} (c : StateCall T) (st : State T)
    : option T * State T :=
  match c with
  | Get => (Some (state st), st)
  | Set_ newState => (None, mkState newState)
  end.

(** [class Container<T>]: the static field [Container.count], shared by
    all instances, is the only state an outside caller can observe. *)
Record ContainerStatics : Type := mkContainerStatics { count : float }.

(** The initialiser [private static count = 0]. *)
Definition Container_init : ContainerStatics := mkContainerStatics 0.

Inductive ContainerCall : Type :=
| NewContainer (value : JsValue)
| GetCount.

(** [new Container(value)] increments the static counter;
    [Container.getCount()] returns it. *)
Definition container_call (c : ContainerCall) (st : ContainerStatics)
    : option float * ContainerStatics :=
  match c with
  | NewContainer _ => (None, mkContainerStatics (count st + 1)%float)
  | GetCount => (Some (count st), st)
  end.

(** Running a sequence of calls from a state, keeping the final state. *)
Fixpoint run {S C R : Type} (call : C -> S -> R * S) (calls : list C) (s : S)
    : S :=
  match calls with
  | [] => s
  | c :: calls' => run call calls' (snd (call c s))
  end.

(** The result of one call made after a history of other calls. *)
Definition result_after {S C R : Type} (call : C -> S -> R * S)
    (history : list C) (c : C) (s : S) : R :=
  fst (call c (run call history s)).

(** Arrays live in a heap: a reference is an address, and two references
    to the same address see each other's writes. *)
Abbreviation Ref := nat.
Abbreviation Heap := (gmap nat (list JsValue)).

(** [class Collection<T>]: the private field [items] holds a reference to
    an array.  Type parameters are erased at run time. *)
Record Collection : Type := mkCollection { items : Ref }.

(** An in-place change of the array at [r] ([push], an indexed write,
    [pop], [splice], ...). *)
Definition mutate (r : Ref) (f : list JsValue -> list JsValue) (h : Heap)
    : Heap :=
  alter f r h.

(** [new Collection<T>()]: the initialiser [items = []] allocates an array. *)
Definition new_Collection (h : Heap) : Collection * Heap :=
  let r := fresh (dom h) in
  (mkCollection r, <[r := []]> h).

(** [add(item: T): void] is [this.items.push(item)]. *)
Definition add (this : Collection) (item : JsValue) (h : Heap) : Heap :=
  mutate (items this) (fun xs => (xs ++ [item])%list) h.

(** A callback is an arbitrary closure: called on an item it may change
    every array it can reach (the receiver's included), and it returns a
    value or throws. *)
Definition Callback (R : Type) : Type :=
  JsValue -> Heap -> Completion R * Heap.

(** The callback that computes [f item] and does nothing else. *)
Definition pure {R : Type} (f : JsValue -> R) : Callback R :=
  fun item h => (Return (f item), h).

(** [Array.prototype.forEach]: the length is read once, the elements are
    read from the live array as the loop reaches them, an index that is no
    longer there is skipped, and a callback that throws ends the loop. *)
Fixpoint forEach_loop (arr : Ref) (callback : Callback unit)
    (k remaining : nat) (h : Heap) : Completion unit * Heap :=
  match remaining with
  | O => (Return tt, h)
  | S remaining' =>
      match h !! arr ≫= (fun xs : list JsValue => xs !! k) with
      | Some x =>
          match callback x h with
          | (Return _, h') => forEach_loop arr callback (S k) remaining' h'
          | (Throw e, h') => (Throw e, h')
          end
      | None => forEach_loop arr callback (S k) remaining' h
      end
  end.

Definition forEach (arr : Ref) (callback : Callback unit) (h : Heap)
    : Completion unit * Heap :=
  forEach_loop arr callback 0 (List.length (default [] (h !! arr))) h.

(** [map<U>(fn: (item: T) => U): Collection<U>] *)
Definition map (fn : Callback JsValue) (this : Collection) (h : Heap)
    : Completion Collection * Heap :=
  let '(result, h1) := new_Collection h in
  match forEach (items this)
                (fun item h' =>
                   match fn item h' with
                   | (Return v, h'') => (Return tt, add result v h'')
                   | (Throw e, h'') => (Throw e, h'')
                   end)
                h1 with
  | (Return _, h2) => (Return result, h2)
  | (Throw e, h2) => (Throw e, h2)
  end.

(** [filter(predicate: (item: T) => boolean): Collection<T>] *)
Definition filter (predicate : Callback bool) (this : Collection) (h : Heap)
    : Completion Collection * Heap :=
  let '(result, h1) := new_Collection h in
  match forEach (items this)
                (fun item h' =>
                   match predicate item h' with
                   | (Return true, h'') => (Return tt, add result item h'')
                   | (Return false, h'') => (Return tt, h'')
                   | (Throw e, h'') => (Throw e, h'')
                   end)
                h1 with
  | (Return _, h2) => (Return result, h2)
  | (Throw e, h2) => (Throw e, h2)
  end.

(** [getAll(): T[]] is [[...this.items]]: a new array with the same
    elements. *)
Definition getAll (this : Collection) (h : Heap) : Ref * Heap :=
  let r := fresh (dom h) in
  (r, <[r := default [] (h !! items this)]> h).

(** [const numbers = new Collection<number>()] followed by
    [numbers.add(1); numbers.add(2); numbers.add(3)], in an empty heap. *)
Definition numbers : Collection * Heap :=
  let '(c, h0) := new_Collection ∅ in
  (c, add c (VNumber 3) (add c (VNumber 2) (add c (VNumber 1) h0))).

End Generics.

(* ===================================================================== *)
(** ** customTypes.ts and the type-guard snippets                          *)
(* ===================================================================== *)

Module CustomTypes.

(** [function isFish(pet: Fish | Bird): pet is Fish] *)
Definition isFish (pet : JsValue) : bool :=
  negb (is_undefined (get pet "swim")).

(** [function careForPet(pet: Fish | Bird): void]: the method it calls. *)
Definition careForPet (pet : JsValue) : JsValue :=
  if isFish pet then get pet "swim" else get pet "fly".

(** [function getRandomPet(): Fish | Bird], given the value [Math.random()]
    returns; the three arrow functions of each literal are distinct
    closures. *)
Definition getRandomPet (random : float) : JsValue :=
  if (0.5 <? random)%float
  then VObject (<["swim" := VFunction 0]> (<["layEggs" := VFunction 1]> ∅))
  else VObject (<["fly" := VFunction 2]> (<["layEggs" := VFunction 3]> ∅)).

(** The shape [interface Fish] describes: [swim] and [layEggs] are
    functions. *)
Definition Fish_shape (pet : JsValue) : Prop :=
  exists props f g,
    pet = VObject props
    /\ props !! "swim" = Some (VFunction f)
    /\ props !! "layEggs" = Some (VFunction g).

(** The shape [interface Bird] describes, on an object that has no [swim]
    member: [fly] and [layEggs] are functions. *)
Definition Bird_shape (pet : JsValue) : Prop :=
  exists props f g,
    pet = VObject props
    /\ props !! "fly" = Some (VFunction f)
    /\ props !! "layEggs" = Some (VFunction g)
    /\ props !! "swim" = None.

End CustomTypes.


(* ===================================================================== *)
(** ** errorsHandling.ts: results, options, lookups                        *)
(* ===================================================================== *)

Module ErrorPatterns.

(** [interface User] of errorsHandling.ts *)
Record User : Type := mkUser {
  id : string;
  name : string;
  email : string
}.

(** [type ApiError = NetworkError | ValidationError2 | TimeoutError], the
    union discriminated by [kind] (not the class of the same name). *)
Inductive ApiError : Type :=
| NetworkError (status : float) (message : string)
| ValidationError2 (field message : string)
| TimeoutError (duration : float) (message : string).

(** The [try] block of [fetchUser]. *)
Definition fetchUser_try (id : string) : Completion (Result User ApiError) :=
  if id =? "invalid"
  then Return (Failure (ValidationError2 "id" "Invalid user ID format"))
  else Return (Success (mkUser id "John Doe" "john@example.com")).

(** [function fetchUser(id: string): ApiResult<User>] *)
Definition fetchUser (id : string) : Result User ApiError :=
  match fetchUser_try id with
  | Return result => result
  | Throw _ => Failure (NetworkError 500 "Failed to fetch user")
  end.

(** [function displayUser(id: string): void]: what it prints. *)
Definition displayUser (number_to_string : float -> string) (id : string)
    : list ConsoleLine :=
  match fetchUser id with
  | Success value =>
      [[AText ("User: " ++ name value ++ " (" ++ email value ++ ")")]]
  | Failure (NetworkError status message) =>
      [[AText ("Network error (" ++ number_to_string status ++ "):");
        AText message]]
  | Failure (ValidationError2 field message) =>
      [[AText ("Validation error (" ++ field ++ "):"); AText message]]
  | Failure (TimeoutError duration message) =>
      [[AText ("Timeout after " ++ number_to_string duration ++ "ms:");
        AText message]]
  end.

(** The array literal [users] of [findUser] and [findUserOption]. *)
Definition users : list User :=
  [mkUser "1" "Alice" "alice@example.com";
   mkUser "2" "Bob" "bob@example.com"].

(** [function findUser(id: string): User | null]; [None] is [null]. *)
Definition findUser (id' : string) : option User :=
  let user := List.find (fun user => id user =? id') users in
  match user with
  | Some u => Some u
  | None => None
  end.

(** [function getUserEmail(id: string): string | null] is
    [user?.email ?? null]. *)
Definition getUserEmail (id' : string) : option string :=
  let user := findUser id' in
  match user with
  | Some u => Some (email u)
  | None => None
  end.

(** [type Option<T> = Some<T> | None], tagged by [tag]. *)
Inductive Option (T : Type) : Type :=
| TagSome (value : T)
| TagNone.

Arguments TagSome {T} value.
Arguments TagNone {T}.

Definition some {T : Type} (value : T) : Option T := TagSome value.
Definition none {T : Type} : Option T := TagNone.

(** [function findUserOption(id: string): Option<User>] *)
Definition findUserOption (id' : string) : Option User :=
  let user := List.find (fun user => id user =? id') users in
  match user with
  | Some u => some u
  | None => none
  end.

(** [function map<T, U>(option: Option<T>, fn: (value: T) => U): Option<U>] *)
Definition map {T U : Type} (option : Option T) (fn : T -> U) : Option U :=
  match option with
  | TagSome value => some (fn value)
  | TagNone => none
  end.

(** The [pattern] argument of [match]. *)
Record Pattern (T U : Type) : Type := mkPattern {
  on_some : T -> U;
  on_none : U
}.

Arguments mkPattern {T U} _ _.
Arguments on_some {T U} _ _.
Arguments on_none {T U} _.

(** [function match<T, U>(option, pattern): U] *)
Definition match_ {T U : Type} (option : Option T) (pattern : Pattern T U) : U :=
  match option with
  | TagSome value => on_some pattern value
  | TagNone => on_none pattern
  end.

(** The [pattern] argument of [matchEither]. *)
Record EitherPattern (L R U : Type) : Type := mkEitherPattern {
  on_left : L -> U;
  on_right : R -> U
}.

Arguments mkEitherPattern {L R U} _ _.
Arguments on_left {L R U} _ _.
Arguments on_right {L R U} _ _.

(** [function matchEither<L, R, U>(either, pattern): U] *)
Definition matchEither {L R U : Type} (either : Either L R)
    (pattern : EitherPattern L R U) : U :=
  match either with
  | Left error => on_left pattern error
  | Right value => on_right pattern value
  end.

(** The argument of [assertNonEmpty]: [T[] | null | undefined]. *)
Inductive MaybeArray (T : Type) : Type :=
| IsNull
| IsUndefined
| IsArray (elements : list T).

Arguments IsNull {T}.
Arguments IsUndefined {T}.
Arguments IsArray {T} elements.

(** [!value] on that union: an array is truthy, even an empty one. *)
Definition array_falsy {T : Type} (value : MaybeArray T) : bool :=
  match value with IsArray _ => false | _ => true end.

(** [value.length === 0], evaluated only when [value] is an array. *)
Definition array_empty {T : Type} (value : MaybeArray T) : bool :=
  match value with
  | IsArray elements => (List.length elements =? 0)%nat
  | _ => false
  end.

(** [function assertNonEmpty<T>(value, message): T[]] *)
Definition assertNonEmpty {T : Type} (value : MaybeArray T) (message : string)
    : Completion (MaybeArray T) :=
  if array_falsy value || array_empty value
  then fail (message ++ " (got empty or null array)")
  else Return value.

End ErrorPatterns.

(* ===================================================================== *)
(** ** errorsHandling.ts: the API client and the error boundary            *)
(* ===================================================================== *)

Module ApiClient.

(** [interface ApiErrorResponse] with every field optional, i.e.
    [Partial<ApiErrorResponse>]. *)
Record ApiErrorPayload : Type := mkPayload {
  payload_status : option float;
  payload_code : option string;
  payload_message : option string;
  payload_details : option (gmap string JsValue)
}.

(** The object literal [{}]. *)
Definition empty_payload : ApiErrorPayload := mkPayload None None None None.

(** What the program reads of a [Response]: [ok], [status] and the outcome
    of [json()], which throws when the body is not JSON. *)
Record Response (T : Type) : Type := mkResponse {
  ok : bool;
  status : float;
  json : Completion T
}.

Arguments mkResponse {T} _ _ _.
Arguments ok {T} _.
Arguments status {T} _.
Arguments json {T} _.

(** What surrounds the client: [fetch], which reads and changes the world
    and may throw; the reading of the properties [code], [message] and
    [details] of a body ([any] in the source) at the type
    [Partial<ApiErrorResponse>], which throws (a [TypeError]) when the body
    is [null] or [undefined]; number formatting; [String(value)], which
    throws when the value cannot be converted (an object without
    [toString], a conversion method that throws). *)
Record Env (World T Init : Type) : Type := mkEnv {
  fetch : string -> option Init -> World -> Completion (Response T) * World;
  as_payload : T -> Completion ApiErrorPayload;
  show_number : float -> string;
  String_ : JsValue -> Completion string
}.

Arguments fetch {World T Init} _ _ _ _.
Arguments as_payload {World T Init} _ _.
Arguments show_number {World T Init} _ _.
Arguments String_ {World T Init} _ _.

(** [value || fallback] on an optional string: absent and empty are falsy. *)
Definition or_else (value : option string) (fallback : string) : string :=
  match value with
  | Some s => if s =? "" then fallback else s
  | None => fallback
  end.

(** The [new ApiError(...)] expression of [fromResponse] once the
    properties of [payload] have been read. *)
Definition error_of_payload {World T Init : Type} (env : Env World T Init)
    (response : Response T) (payload : ApiErrorPayload) : ErrorObj :=
  new_ApiError
    (status response)
    (or_else (payload_code payload) "UNKNOWN_ERROR")
    (or_else (payload_message payload)
             ("HTTP error " ++ show_number env (status response)))
    (match payload_details payload with
     | Some details => VObject details
     | None => VUndefined
     end).

(** [static async fromResponse(response: Response): Promise<ApiError>].
    [payload] is [{}] when [json()] throws and the body otherwise; reading
    [payload.code] of a body that is [null] throws, outside the [try]. *)
Definition fromResponse {World T Init : Type} (env : Env World T Init)
    (response : Response T) : Completion ErrorObj :=
  match json response with
  | Throw _ => Return (error_of_payload env response empty_payload)
  | Return body =>
      match as_payload env body with
      | Return payload => Return (error_of_payload env response payload)
      | Throw t => Throw t
      end
  end.

(** The [try] block of [apiRequest]. *)
Definition apiRequest_try {World T Init : Type} (env : Env World T Init)
    (url : string) (options : option Init) (w : World)
    : Completion T * World :=
  match fetch env url options w with
  | (Throw t, w1) => (Throw t, w1)
  | (Return response, w1) =>
      if negb (ok response)
      then
        match fromResponse env response with
        | Return error => (Throw (ThrownError error), w1)
        | Throw t => (Throw t, w1)
        end
      else (json response, w1)
  end.

(** [error instanceof Error ? error.message : "Unknown error"] *)
Definition message_or_unknown (error : Thrown) : string :=
  if instanceof_Error error then message_of error else "Unknown error".

(** [async function apiRequest<T>(url, options?): Promise<T>] *)
Definition apiRequest {World T Init : Type} (env : Env World T Init)
    (url : string) (options : option Init) (w : World)
    : Completion T * World :=
  match apiRequest_try env url options w with
  | (Return value, w1) => (Return value, w1)
  | (Throw error, w1) =>
      if instanceof_ApiError error
      then (Throw error, w1)
      else (Throw (ThrownError
                     (new_ApiError 0 "CLIENT_ERROR" (message_or_unknown error)
                                   VUndefined)),
            w1)
  end.

(** [error.status] and [error.code] of a caught [ApiError]. *)
Definition status_of (error : Thrown) : float :=
  match error with
  | ThrownError {| err_class := CApiError status _ _ |} => status
  | _ => nan
  end.

Definition code_of (error : Thrown) : string :=
  match error with
  | ThrownError {| err_class := CApiError _ code _ |} => code
  | _ => ""
  end.

(** A printed line: the arguments of one [console] call. *)
Inductive LogArg : Type :=
| LText (s : string)
| LValue (v : JsValue)
| LThrown (t : Thrown).

Definition LogLine : Type := list LogArg.

(** The line the [catch] block of [fetchUserProfile] prints. *)
Definition profile_error_line (userId : string) (error : Thrown) : LogLine :=
  if instanceof_ApiError error then
    if (status_of error =? 404)%float then
      [LText ("User " ++ userId ++ " not found")]
    else if (status_of error =? 403)%float then
      [LText "Permission denied"]
    else
      [LText ("API error (" ++ code_of error ++ "):"); LText (message_of error)]
  else
    [LText "Unexpected error:"; LThrown error].

(** [async function fetchUserProfile(userId: string): Promise<User>]: the
    completion, the world afterwards and what was printed. *)
Definition fetchUserProfile {World T Init : Type} (env : Env World T Init)
    (userId : string) (w : World) : Completion T * World * list LogLine :=
  match apiRequest env ("/api/users/" ++ userId) None w with
  | (Return value, w1) => (Return value, w1, [])
  | (Throw error, w1) => (Throw error, w1, [profile_error_line userId error])
  end.

(** The [try] block of [fetchData]. *)
Definition fetchData_try {World T Init : Type} (env : Env World T Init)
    (url : string) (w : World) : Completion T * World :=
  match fetch env url None w with
  | (Throw t, w1) => (Throw t, w1)
  | (Return response, w1) =>
      if negb (ok response)
      then (Throw (ThrownError
                     (new_Error ("HTTP error "
                                 ++ show_number env (status response)))),
            w1)
      else (json response, w1)
  end.

(** [async function fetchData(url: string): Promise<unknown>] *)
Definition fetchData {World T Init : Type} (env : Env World T Init)
    (url : string) (w : World) : Completion T * World * list LogLine :=
  match fetchData_try env url w with
  | (Return value, w1) => (Return value, w1, [])
  | (Throw error, w1) =>
      (Throw error, w1,
       [if instanceof_Error error
        then [LText "Failed to fetch data:"; LText (message_of error)]
        else [LText "Unknown error:"; LThrown error]])
  end.

(** [class ErrorBoundary]: the error object handed to [errorHandler] for a
    caught value. *)
Definition boundary_error (String_ : JsValue -> Completion string)
    (error : Thrown) : Completion ErrorObj :=
  match error with
  | ThrownError e => Return e
  | ThrownValue v =>
      match String_ v with
      | Return text => Return (new_Error ("Unknown error: " ++ text))
      | Throw t => Throw t
      end
  end.

(** [async run<T>(fn: () => Promise<T>): Promise<T | null>]; [None] is
    [null].  Both [fn] and [errorHandler] act on a state [S].  The [catch]
    block is not guarded: what [String(error)] or the handler throws leaves
    [run]. *)
Definition run {S T : Type} (String_ : JsValue -> Completion string)
    (errorHandler : ErrorObj -> S -> Completion unit * S)
    (fn : S -> Completion T * S) (s : S) : Completion (option T) * S :=
  match fn s with
  | (Return value, s1) => (Return (Some value), s1)
  | (Throw error, s1) =>
      match boundary_error String_ error with
      | Throw t => (Throw t, s1)
      | Return e =>
          match errorHandler e s1 with
          | (Return _, s2) => (Return None, s2)
          | (Throw t, s2) => (Throw t, s2)
          end
      end
  end.

(** The handler of [const boundary = new ErrorBoundary(...)]: it prints one
    line.  The state is the world together with what was printed so far. *)
Definition boundary_handler {World : Type} (error : ErrorObj)
    (s : World * list LogLine) : Completion unit * (World * list LogLine) :=
  (Return tt,
   (fst s, (snd s ++ [[LText "Error caught by boundary:";
                       LText (err_message error)]])%list)).

(** The arrow function [runWithBoundary] passes to [boundary.run]. *)
Definition fetch_example_data {World Init : Type} (env : Env World JsValue Init)
    (s : World * list LogLine) : Completion JsValue * (World * list LogLine) :=
  let '(data, w1, lines) := fetchData env "https://api.example.com/data" (fst s) in
  (data, (w1, (snd s ++ lines)%list)).

(** [if (result)] on [T | null]. *)
Definition result_truthy (result : option JsValue) : bool :=
  match result with
  | Some v => truthy v
  | None => false
  end.

(** [async function runWithBoundary(): Promise<void>] *)
Definition runWithBoundary {World Init : Type} (env : Env World JsValue Init)
    (s : World * list LogLine) : Completion unit * (World * list LogLine) :=
  match run (String_ env) boundary_handler (fetch_example_data env) s with
  | (Throw t, s1) => (Throw t, s1)
  | (Return result, s1) =>
      if result_truthy result then
        (Return tt,
         (fst s1, (snd s1 ++ [[LText "Got result:";
                               LValue (default VNull result)]])%list))
      else
        (Return tt,
         (fst s1, (snd s1 ++ [[LText "Operation failed, using fallback"]])%list))
  end.

End ApiClient.

(* ===================================================================== *)
(** ** classes&interface.ts: the [Dictionary] class                        *)
(* ===================================================================== *)

Module Dictionaries.

(** [class Dictionary]: the own properties of an instance.  The constructor
    and [add] are the only code that creates them, and both store
    strings. *)
Record Dictionary : Type := mkDictionary {
  entries : gmap string JsString
}.

(** The names an instance inherits: the members of [Dictionary.prototype]
    and those of [Object.prototype]. *)
Definition method_names : list string :=
  ["constructor"; "add"; "get"; "getEntryCount"].

Definition object_prototype_methods : list string :=
  ["hasOwnProperty"; "isPrototypeOf"; "propertyIsEnumerable";
   "toLocaleString"; "toString"; "valueOf";
   "__defineGetter__"; "__defineSetter__";
   "__lookupGetter__"; "__lookupSetter__"].

Definition is_in (key : string) (keys : list string) : bool :=
  List.existsb (fun k => k =? key) keys.

(** The property read [this[key]]: an own property first, then the
    prototype chain, where every member is a function except [__proto__],
    which reads as the prototype object. *)
Definition member (this : Dictionary) (key : string) : JsValue :=
  match entries this !! key with
  | Some value => VString value
  | None =>
      if is_in key method_names then VFunction 0
      else if is_in key object_prototype_methods then VFunction 1
      else if key =? "__proto__" then VObject ∅
      else VUndefined
  end.

(** The assignment [this[key] = value] of a string: it creates or replaces
    an own property, except for the key [__proto__], whose setter ignores a
    value that is not an object. *)
Definition assign_member (key : string) (value : JsString) (this : Dictionary)
    : Dictionary :=
  if key =? "__proto__" then this
  else mkDictionary (<[key := value]> (entries this)).

(** [Object.assign(this, initialEntries)]: one assignment per own property
    of [initialEntries]. *)
Definition assign_all (initialEntries : gmap string JsString) (this : Dictionary)
    : Dictionary :=
  map_fold assign_member this initialEntries.

(** [constructor(initialEntries?: Record<string, string>)] *)
Definition new_Dictionary (initialEntries : option (gmap string JsString))
    : Dictionary :=
  match initialEntries with
  | Some initial => assign_all initial (mkDictionary ∅)
  | None => mkDictionary ∅
  end.

(** [add(key: string, value: string): void] *)
Definition add (key : string) (value : JsString) (this : Dictionary)
    : Dictionary :=
  assign_member key value this.

(** [get(key: string): string | undefined]; [None] is [undefined]. *)
Definition get (key : string) (this : Dictionary) : option JsString :=
  let value := member this key in
  match value with
  | VString s => Some s
  | _ => None
  end.

(** [Object.keys(this)]: the names of the own properties. *)
Definition keys (this : Dictionary) : list string :=
  (map_to_list (entries this)).*1.

(** The number [getEntryCount] converts to a string. *)
Definition entry_count (this : Dictionary) : nat :=
  List.length
    (List.filter (fun key => typeof (member this key) =? "string") (keys this)).

(** [getEntryCount(): string]; the [toString()] of an array length is its
    decimal notation. *)
Definition getEntryCount (this : Dictionary) : string :=
  pretty (entry_count this).

(** A method call [this.name(...)]: the member is read like any property
    and must be a function, otherwise the call throws a [TypeError]
    ([None]). *)
Definition call {A : Type} (this : Dictionary) (name : string) (result : A)
    : option A :=
  if typeof (member this name) =? "function" then Some result else None.

End Dictionaries.

(* ===================================================================== *)
(** ** generics.ts: [DataStore] and [UserRepository]                       *)
(* ===================================================================== *)

Module Stores.

(** The type [string | number] of an [id]. *)
Inductive Id : Type :=
| IdString (s : string)
| IdNumber (n : float).

(** [a === b] on [string | number]. *)
Definition strict_equal (a b : Id) : bool :=
  match a, b with
  | IdString s, IdString t => s =? t
  | IdNumber m, IdNumber n => (m =? n)%float
  | _, _ => false
  end.

(** [class DataStore<T extends { id: string | number }>]: the private
    array [items]; [id_of] reads the [id] of an item. *)
Record DataStore (T : Type) : Type := mkDataStore { items : list T }.

Arguments mkDataStore {T} _.
Arguments items {T} _.

Definition new_DataStore {T : Type} : DataStore T := mkDataStore [].

(** [addItem(item: T): void] *)
Definition addItem {T : Type} (item : T) (this : DataStore T) : DataStore T :=
  mkDataStore (items this ++ [item])%list.

(** [getItem(id: string | number): T | undefined] *)
Definition getItem {T : Type} (id_of : T -> Id) (id : Id) (this : DataStore T)
    : option T :=
  List.find (fun item => strict_equal (id_of item) id) (items this).

(** [interface User] of generics.ts *)
Record User : Type := mkUser {
  id : string;
  name : string
}.

(** Arrays of users live in a heap of references. *)
Abbreviation Heap := (gmap nat (list User)).

(** [class UserRepository]: the field [users] holds a reference to an
    array; [delete] makes it point to another array. *)
Record UserRepository : Type := mkUserRepository { users : nat }.

(** [new UserRepository()]: the initialiser [users = []] allocates. *)
Definition new_UserRepository (h : Heap) : UserRepository * Heap :=
  let r := fresh (dom h) in
  (mkUserRepository r, <[r := []]> h).

(** The elements of the array [this.users]. *)
Definition contents (this : UserRepository) (h : Heap) : list User :=
  default [] (h !! users this).

(** [getById(id: string): User]; [None] is the [undefined] that the
    [as User] lets through. *)
Definition getById (id' : string) (this : UserRepository) (h : Heap)
    : option User :=
  List.find (fun user => id user =? id') (contents this h).

(** [getAll(): User[]] returns the array itself. *)
Definition getAll (this : UserRepository) (h : Heap) : nat := users this.

(** [create(user: User): void] *)
Definition create (user : User) (this : UserRepository) (h : Heap) : Heap :=
  alter (fun xs => (xs ++ [user])%list) (users this) h.

(** [Array.prototype.findIndex]; [None] is [-1]. *)
Fixpoint findIndex {A : Type} (p : A -> bool) (xs : list A) : option nat :=
  match xs with
  | [] => None
  | x :: rest =>
      if p x then Some 0
      else match findIndex p rest with
           | Some i => Some (S i)
           | None => None
           end
  end.

(** [update(id: string, user: User): void] *)
Definition update (id' : string) (user : User) (this : UserRepository)
    (h : Heap) : Heap :=
  match findIndex (fun u => id u =? id') (contents this h) with
  | Some index => alter (fun xs => <[index := user]> xs) (users this) h
  | None => h
  end.

(** [delete(id: string): void]: [filter] allocates the new array, and the
    field is assigned. *)
Definition delete (id' : string) (this : UserRepository) (h : Heap)
    : UserRepository * Heap :=
  let r := fresh (dom h) in
  (mkUserRepository r,
   <[r := List.filter (fun user => negb (id user =? id')) (contents this h)]> h).

End Stores.

(* ===================================================================== *)
(** ** The type-guard snippets                                             *)
(* ===================================================================== *)

Module TypeGuards.

(** An object, as the functions typed with an interface receive it: its
    properties, own or inherited, by name. *)
Abbreviation Obj := (gmap string JsValue).

(** [key in object] *)
Definition has (object : Obj) (key : string) : bool :=
  bool_decide (is_Some (object !! key)).

(** The call [object.name()]: the member must be a function, otherwise the
    call throws a [TypeError] ([None]); the answer is the function called. *)
Definition call_member (object : Obj) (name : string) : option JsValue :=
  match object !! name with
  | Some (VFunction f) => Some (VFunction f)
  | _ => None
  end.

(** [function move(animal: Bird | Fish): void]: the methods it calls, in
    order, or [None] when a call throws a [TypeError]. *)
Definition move (animal : Obj) : option (list JsValue) :=
  match call_member animal (if has animal "fly" then "fly" else "swim") with
  | None => None
  | Some first =>
      match call_member animal "layEggs" with
      | None => None
      | Some second => Some [first; second]
      end
  end.

(** What a guard written with [&&] and [in] can do: return a value or
    throw the [TypeError] of [in] applied to a primitive. *)
Inductive GuardResult : Type :=
| Returned (v : JsValue)
| TypeErrorThrown.

(** [function isOfType<T>(value: any, property: keyof T): value is T] is
    [value && property in value].  [function_has] tells which properties a
    function object has. *)
Definition isOfType (function_has : nat -> string -> bool)
    (value : JsValue) (property : string) : GuardResult :=
  if negb (truthy value) then Returned value
  else match value with
       | VObject props => Returned (VBoolean (has props property))
       | VFunction f => Returned (VBoolean (function_has f property))
       | _ => TypeErrorThrown
       end.

(** [function assertNonNull<T>(value, message): asserts value is T] *)
Definition assertNonNull (value : JsValue) (message : string) : Completion unit :=
  if is_null value || is_undefined value
  then Throw (ThrownError (new_Error message))
  else Return tt.

(** [value.toUpperCase()] on a value of static type [string]. *)
Definition upper (toUpperCase : JsString -> JsString) (value : JsValue)
    : Completion JsString :=
  match value with
  | VString s => Return (toUpperCase s)
  | _ => Throw (ThrownError (new_Error "value.toUpperCase is not a function"))
  end.

(** [function assertIsString(value: any, message: string)] of the
    type-guard file: the message is thrown as it is. *)
Definition assertIsString (value : JsValue) (message : string) : Completion unit :=
  if negb (typeof value =? "string")
  then Throw (ThrownError (new_Error message))
  else Return tt.

(** [function capitalizeInput(input: unknown): string] *)
Definition capitalizeInput (toUpperCase : JsString -> JsString)
    (input : JsValue) : Completion JsString :=
  match assertIsString input "Input must be a string" with
  | Throw t => Throw t
  | Return _ => upper toUpperCase input
  end.

(** [function ensureString(value: string | null): string] is
    [value || "default"]. *)
Definition ensureString (value : option string) : string :=
  match value with
  | Some s => if s =? "" then "default" else s
  | None => "default"
  end.

(** The type [string | number]. *)
Inductive StringOrNumber : Type :=
| IsString (s : string)
| IsNumber (n : float).

(** [function provideValue(value: string | number | null): string | number]
    is [value ?? 0]. *)
Definition provideValue (value : option StringOrNumber) : StringOrNumber :=
  match value with
  | Some v => v
  | None => IsNumber 0
  end.

(** [function isNonNull<T>(value: T | null | undefined): value is T] *)
Definition isNonNull (value : JsValue) : bool :=
  negb (is_null value) && negb (is_undefined value).

(** [function filterAndProcess<T>(items: (T | null | undefined)[]): T[]] *)
Definition filterAndProcess (items : list JsValue) : list JsValue :=
  List.filter isNonNull items.

(** [const mixedData = [1, null, 3, undefined, 5]] *)
Definition mixedData : list JsValue :=
  [VNumber 1; VNull; VNumber 3; VUndefined; VNumber 5].

(** [type Result<T> = { ok: true; value: T } | { ok: false; error: Error }] *)
Inductive OkResult (T : Type) : Type :=
| IsOk (value : T)
| IsError (error : ErrorObj).

Arguments IsOk {T} value.
Arguments IsError {T} error.

Definition ok {T : Type} (result : OkResult T) : bool :=
  match result with IsOk _ => true | IsError _ => false end.

(** [result.value], which only a result with [ok: true] has. *)
Definition value_of {T : Type} (result : OkResult T) : option T :=
  match result with IsOk value => Some value | IsError _ => None end.

(** [function processResults<T>(results: Result<T>[]): T[]]: [filter] on
    [ok], then [map] to [value]. *)
Definition processResults {T : Type} (results : list (OkResult T)) : list T :=
  omap value_of (List.filter ok results).

(** An object as [enrichWithName] and the functions after it see it: its
    own enumerable properties, which are what a spread copies, and the other
    properties a read or [in] finds on it (own ones that are not enumerable
    and inherited ones).  Properties are data properties. *)
Record Entity : Type := mkEntity {
  own : gmap string JsValue;
  others : gmap string JsValue
}.

(** [key in entity] *)
Definition entity_has (entity : Entity) (key : string) : bool :=
  bool_decide (is_Some (own entity !! key))
  || bool_decide (is_Some (others entity !! key)).

(** [entity.key] *)
Definition entity_get (entity : Entity) (key : string) : JsValue :=
  match own entity !! key with
  | Some v => v
  | None => default VUndefined (others entity !! key)
  end.

(** A value inside a template literal: a string stands for itself,
    [undefined] and [null] are spelled out, and any other value is
    converted by [String_], which may throw. *)
Definition template (String_ : JsValue -> Completion JsString) (v : JsValue)
    : Completion JsString :=
  match v with
  | VString s => Return s
  | VUndefined => Return (js "undefined")
  | VNull => Return (js "null")
  | _ => String_ v
  end.

(** The template literal [`${a}: ${b}`]: [a] is converted first. *)
Definition id_colon (String_ : JsValue -> Completion JsString)
    (a : JsValue) (b : Completion JsString) : Completion JsString :=
  match template String_ a with
  | Throw t => Throw t
  | Return left =>
      match b with
      | Throw t => Throw t
      | Return right => Return (left ++ js ": " ++ right)%list
      end
  end.

(** [function enrichWithName<T extends HasId>(obj: T, name: string)] is
    the new object [{ ...obj, name }]: it has the own enumerable properties
    of [obj], then [name], and inherits from [Object.prototype]. *)
Definition enrichWithName (Object_prototype : gmap string JsValue)
    (obj : Entity) (name : JsString) : Entity :=
  mkEntity (<["name" := VString name]> (own obj)) Object_prototype.

(** [function processEntity(entity: HasId | (HasId & HasName)): string] *)
Definition processEntity (String_ : JsValue -> Completion JsString)
    (entity : Entity) : Completion JsString :=
  if entity_has entity "name"
  then id_colon String_ (entity_get entity "id")
                (template String_ (entity_get entity "name"))
  else id_colon String_ (entity_get entity "id") (Return (js "Unknown")).

(** [function hasName<T extends Identified<any>>(obj: T): obj is T & Named] *)
Definition hasName (obj : Entity) : bool := entity_has obj "name".

(** [function processIdentified<T extends Identified<any>>(entity: T): string] *)
Definition processIdentified (String_ : JsValue -> Completion JsString)
    (entity : Entity) : Completion JsString :=
  if hasName entity
  then id_colon String_ (entity_get entity "id")
                (template String_ (entity_get entity "name"))
  else id_colon String_ (entity_get entity "id") (Return (js "Unnamed")).

End TypeGuards.

(* ===================================================================== *)
(** ** Predicates used in the statements                                   *)
(* ===================================================================== *)

(** A form that is a non-null object. *)
Definition form_is_object (form : JsValue) : Prop :=
  typeof form = "object" /\ form <> VNull.

(** Its [username] is a non-empty string of length at least 3. *)
Definition username_ok (form : JsValue) : Prop :=
  exists u : JsString,
    get form "username" = VString u /\ u <> [] /\ 3 <= List.length u.

(** Its [email] is a non-empty string containing "@". *)
Definition email_ok (form : JsValue) : Prop :=
  exists e : JsString,
    get form "email" = VString e /\ e <> []
    /\ exists s1 s2 : JsString, e = (s1 ++ js "@" ++ s2)%list.

(** Its [age] is a number not less than 18. *)
Definition age_ok (form : JsValue) : Prop :=
  exists a, get form "age" = VNumber a /\ (a <? 18)%float = false.


(** The error reported for a form that is not an object. *)
Definition form_error : FieldError :=
  mkFieldError "_form" "Form data must be an object" "INVALID_FORM".

(** A method rejects nothing at run time: whatever the argument and the
    object, it completes normally. *)
Definition accepts_every_argument {S A : Type}
    (method : A -> S -> Completion unit * S) : Prop :=
  forall a s, exists s', method a s = (Return tt, s').

(** A [Temperature] that a program can obtain: [new Temperature()] followed
    by assignments to its properties. *)
Definition reachable (t : Classes.Temperature) : Prop :=
  exists ops, Classes.assign_all ops Classes.new_Temperature = t.

(** The stored temperature is not below absolute zero. *)
Definition not_below_absolute_zero (t : Classes.Temperature) : Prop :=
  (Classes._celsius t <? -273.15)%float = false.

(** A call gives the same result whatever was called before it. *)
Definition history_independent {S C R : Type} (call : C -> S -> R * S)
    (init : S) : Prop :=
  forall (h1 h2 : list C) (c : C),
    Generics.result_after call h1 c init = Generics.result_after call h2 c init.

(** The value most recently stored by a history of [Box] calls. *)
Definition last_stored {T : Type} (history : list (Generics.BoxCall T))
    (init : T) : T :=
  fold_left (fun acc c =>
               match c with
               | Generics.SetValue v => v
               | Generics.GetValue => acc
               end) history init.

(** The same for the closure pair of [createState]. *)
Definition last_state {T : Type} (history : list (Generics.StateCall T))
    (init : T) : T :=
  fold_left (fun acc c =>
               match c with
               | Generics.Set_ v => v
               | Generics.Get => acc
               end) history init.

(** How many [Container]s a history constructs. *)
Definition constructions (history : list Generics.ContainerCall) : nat :=
  List.length (List.filter (fun c => match c with
                                     | Generics.NewContainer _ => true
                                     | Generics.GetCount => false
                                     end) history).

(** Writing a value and reading it back gives the value written. *)
Definition round_trip {S V : Type} (put : V -> S -> Completion unit * S)
    (get : S -> V) : Prop :=
  forall v s s', put v s = (Return tt, s') -> get s' = v.

(** A function body whose result does not depend on the function it is
    given to call computes its result without that call. *)
Definition ignores_callee {F A R : Type} (body : F -> A -> R) : Prop :=
  forall (f1 f2 : F) (a : A), body f1 a = body f2 a.

(** A counter that starts at [start] and is incremented [n] times. *)
Fixpoint incremented (n : nat) (start : float) : float :=
  match n with
  | O => start
  | S n' => incremented n' (start + 1)%float
  end.

(** How many times a trace calls [fn]. *)
Fixpoint calls (events : list Event) : nat :=
  match events with
  | [] => 0
  | EvCall _ _ :: rest => S (calls rest)
  | _ :: rest => calls rest
  end.


(** An [ApiError] with [status >= 500]. *)
Definition server_error (error : Thrown) : Prop :=
  exists e status code details,
    error = ThrownError e
    /\ err_class e = CApiError status code details
    /\ (500 <=? status)%float = true.


(** The world a trace leads to from [w]: each call event is a call of
    [fn], each pause is a [setTimeout], printing changes nothing. *)
Fixpoint world_after {World T : Type} (rt : Runtime World)
    (fn : World -> Completion T * World) (events : list Event) (w : World)
    : World :=
  match events with
  | [] => w
  | EvCall _ _ :: rest => world_after rt fn rest (snd (fn w))
  | EvLog _ :: rest => world_after rt fn rest w
  | EvSleep ms :: rest => world_after rt fn rest (sleep rt ms w)
  end.


(** The runs of the retry loop entered at attempt number [attempt] with
    [lastError] in the world [w]: the completion, the world afterwards and
    the trace. *)
Inductive RetryRun {World T : Type} (rt : Runtime World)
    (fn : World -> Completion T * World) (options : World -> RetryOptions)
  : nat -> Thrown -> World -> Completion T -> World -> list Event -> Prop :=
| RunExhausted attempt lastError w :
    in_bounds (options w) attempt = false ->
    RetryRun rt fn options attempt lastError w (Throw lastError) w []
| RunReturned attempt lastError w v w1 :
    in_bounds (options w) attempt = true ->
    fn w = (Return v, w1) ->
    RetryRun rt fn options attempt lastError w (Return v) w1
             [EvCall attempt None]
| RunRethrown attempt lastError w error w1 :
    in_bounds (options w) attempt = true ->
    fn w = (Throw error, w1) ->
    retryable error = false ->
    RetryRun rt fn options attempt lastError w (Throw error) w1
             [EvCall attempt (Some error)]
| RunRetried attempt lastError w error w1 outcome w2 events :
    in_bounds (options w) attempt = true ->
    fn w = (Throw error, w1) ->
    retryable error = true ->
    RetryRun rt fn options (S attempt) error
             (sleep rt (retryDelay rt (options w1) attempt) w1)
             outcome w2 events ->
    RetryRun rt fn options attempt lastError w outcome w2
             (EvCall attempt (Some error)
                :: EvLog (retry_line rt (options w1) attempt)
                :: EvSleep (retryDelay rt (options w1) attempt) :: events).

(** [fn] instrumented with a counter of its invocations, and the runtime
    and the options that go with the enlarged world. *)
Definition counted {World T : Type} (fn : World -> Completion T * World)
    (nw : nat * World) : Completion T * (nat * World) :=
  let '(r, w') := fn (snd nw) in (r, (S (fst nw), w')).

Definition counting_runtime {World : Type} (rt : Runtime World)
    : Runtime (nat * World) :=
  mkRuntime (nat * World) (Math_pow rt) (number_to_string rt)
            (fun ms nw => (fst nw, sleep rt ms (snd nw))).

Definition counting_options {World : Type} (options : World -> RetryOptions)
    : nat * World -> RetryOptions :=
  fun nw => options (snd nw).

(** A 503 [ApiError]. *)
Definition unavailable : Thrown :=
  ThrownError (new_ApiError 503 "UNAVAILABLE" "Service unavailable" VUndefined).

(** A thunk that fails with a 503 [ApiError] on its first two calls and
    returns on the third; the world is the number of calls made so far. *)
Definition flaky (w : nat) : Completion JsString * nat :=
  if (w <? 2)%nat
  then (Throw unavailable, S w)
  else (Return (js "ok"), S w).

(** A thunk that fails with a 503 [ApiError] whenever it is called. *)
Definition always_unavailable (w : nat) : Completion JsString * nat :=
  (Throw unavailable, S w).

(** A thunk that lowers the [maxRetries] its caller reads to [1] and then
    fails with a 503: the world is the current value of that property. *)
Definition giving_up (w : float) : Completion JsString * float :=
  (Throw unavailable, 1%float).


(** A callback that leaves the array at [r] as it is. *)
Definition preserves {R : Type} (r : Generics.Ref)
    (callback : Generics.Callback R) : Prop :=
  forall item h, snd (callback item h) !! r = h !! r.

(** The claim as the specification words it: whatever the callback, the
    receiver's array is after [map], respectively [filter], what it was
    before. *)
Definition map_leaves_the_receiver : Prop :=
  forall (fn : Generics.Callback JsValue) (this : Generics.Collection)
         (h : Generics.Heap),
    snd (Generics.map fn this h) !! Generics.items this
    = h !! Generics.items this.

Definition filter_leaves_the_receiver : Prop :=
  forall (predicate : Generics.Callback bool) (this : Generics.Collection)
         (h : Generics.Heap),
    snd (Generics.filter predicate this h) !! Generics.items this
    = h !! Generics.items this.

(** [const c = new Collection<number>()] followed by [c.add(1); c.add(2)],
    in an empty heap. *)
Definition one_two : Generics.Collection * Generics.Heap :=
  let '(c, h0) := Generics.new_Collection ∅ in
  (c, Generics.add c (VNumber 2) (Generics.add c (VNumber 1) h0)).

(** The callbacks [v => { c.add(v); return v; }] and
    [v => { c.add(v); return true; }]. *)
Definition adding (c : Generics.Collection) : Generics.Callback JsValue :=
  fun v h => (Return v, Generics.add c v h).

Definition adding_and_keeping (c : Generics.Collection)
    : Generics.Callback bool :=
  fun v h => (Return true, Generics.add c v h).

(** How many times a trace pauses. *)
Fixpoint pauses (events : list Event) : nat :=
  match events with
  | [] => 0
  | EvSleep _ :: rest => S (pauses rest)
  | _ :: rest => pauses rest
  end.

(** The thunk [fetchUserWithRetry] hands to [withRetry] when [apiRequest] is
    the one of the file. *)
Definition user_request {World T Init : Type} (env : ApiClient.Env World T Init)
    (url : string) (w : World) : Completion T * World :=
  ApiClient.apiRequest env url None w.

(** The [TypeError] of a property read on [null] or [undefined]. *)
Definition null_read : Thrown :=
  ThrownError (mkErrorObj CTypeError "Cannot read properties of null").

(** Reading [code], [message] and [details] of a body that has none of
    them: [null] and [undefined] throw, any other value gives three times
    [undefined]. *)
Definition read_plain (body : JsValue) : Completion ApiClient.ApiErrorPayload :=
  if is_null body || is_undefined body then Throw null_read
  else Return ApiClient.empty_payload.

(** A [String(value)] for the examples: it throws on an object without
    properties, which has no [toString] to call. *)
Definition String_example (v : JsValue) : Completion string :=
  match v with
  | VUndefined => Return "undefined"
  | VNull => Return "null"
  | VObject props =>
      if decide (props = ∅)
      then Throw (ThrownError (mkErrorObj CTypeError "Cannot convert to string"))
      else Return "[object Object]"
  | _ => Return "?"
  end.

(** An environment whose network is down: every [fetch] throws a
    [TypeError]-like plain error. *)
Definition offline_env : ApiClient.Env nat JsValue unit :=
  ApiClient.mkEnv nat JsValue unit
    (fun _ _ w => (Throw (ThrownError (new_Error "Failed to fetch")), S w))
    read_plain
    (fun _ => "?")
    String_example.

(** An environment whose server answers every request with the given
    status, not [ok], and the given JSON body. *)
Definition failing_env (status : float) (body : JsValue)
    : ApiClient.Env nat JsValue unit :=
  ApiClient.mkEnv nat JsValue unit
    (fun _ _ w => (Return (ApiClient.mkResponse false status (Return body)),
                   S w))
    read_plain
    (fun _ => "?")
    String_example.

(** An environment whose server answers [ok] with the given JSON body. *)
Definition answering_env (body : JsValue) : ApiClient.Env nat JsValue unit :=
  ApiClient.mkEnv nat JsValue unit
    (fun _ _ w => (Return (ApiClient.mkResponse true 200 (Return body)), S w))
    read_plain
    (fun _ => "?")
    String_example.

(** A runtime for the examples; its [Math.pow] is only good for the
    exponents 0, 1 and 2, which is what three attempts need. *)
Definition example_runtime : Runtime nat :=
  mkRuntime nat
    (fun base exponent =>
       if (exponent =? 0)%float then 1%float
       else if (exponent =? 1)%float then base
       else (base * base)%float)
    (fun _ => "?")
    (fun _ w => w).

(** A [Dictionary] as programs can build one: no own property is named
    [__proto__]. *)
Definition dictionary_wf (d : Dictionaries.Dictionary) : Prop :=
  Dictionaries.entries d !! "__proto__" = None.

(** The dictionary of the example: [new Dictionary({ hello: "world",
    foo: "bar" })] followed by [add("typescript", "awesome")]. *)
Definition dict : Dictionaries.Dictionary :=
  Dictionaries.add "typescript" (js "awesome")
    (Dictionaries.new_Dictionary
       (Some (<["hello" := js "world"]> (<["foo" := js "bar"]> ∅)))).

(** The repository of the example: [create] called twice on a new
    repository, in an empty heap. *)
Definition two_users : Stores.UserRepository * Stores.Heap :=
  let '(repo, h0) := Stores.new_UserRepository ∅ in
  (repo,
   Stores.create (Stores.mkUser "2" "Bob") repo
     (Stores.create (Stores.mkUser "1" "Alice") repo h0)).

(** A form with a username that is too short, an email without "@" and an
    age below 18. *)
Definition rejected_form : JsValue :=
  VObject (<["username" := VString (js "al")]>
           (<["email" := VString (js "alice.example.com")]>
            (<["age" := VNumber 17]> ∅))).

(** An environment whose [fetch] throws the given value, which is not an
    [Error]. *)
Definition throwing_env (v : JsValue) : ApiClient.Env nat JsValue unit :=
  ApiClient.mkEnv nat JsValue unit
    (fun _ _ w => (Throw (ThrownValue v), S w))
    read_plain
    (fun _ => "?")
    String_example.

(** No entry of the dictionary is named like a method of the class. *)
Definition methods_intact (d : Dictionaries.Dictionary) : Prop :=
  forall name,
    In name ["add"; "get"; "getEntryCount"] ->
    Dictionaries.entries d !! name = None.

(** The statement [dict.add(key, value)] followed by the expression
    [dict.get(key')]; [None] when one of the two calls throws a
    [TypeError]. *)
Definition add_then_get (this : Dictionaries.Dictionary) (key : string)
    (value : JsString) (key' : string) : option (option JsString) :=
  match Dictionaries.call this "add" (Dictionaries.add key value this) with
  | None => None
  | Some this' =>
      Dictionaries.call this' "get" (Dictionaries.get key' this')
  end.

(** The statement [dict.add(key, value)] followed by the expression
    [dict.getEntryCount()]. *)
Definition add_then_count (this : Dictionaries.Dictionary) (key : string)
    (value : JsString) : option string :=
  match Dictionaries.call this "add" (Dictionaries.add key value this) with
  | None => None
  | Some this' =>
      Dictionaries.call this' "getEntryCount" (Dictionaries.getEntryCount this')
  end.
(* ===================================================================== *)
(** ** Properties                                                          *)
(* ===================================================================== *)

(** *** Division: [divide] and [divideEither] *)

Lemma divide_zero (a b : float) :
  (b =? 0)%float = true ->
  divide a b = Failure (new_Error "Division by zero").
Proof. intros Hb. unfold divide. now rewrite Hb. Qed.

Lemma divide_nonzero (a b : float) :
  (b =? 0)%float = false -> divide a b = Success (a / b)%float.
Proof. intros Hb. unfold divide. now rewrite Hb. Qed.

Lemma divideEither_zero (a b : float) :
  (b =? 0)%float = true -> divideEither a b = Left "Division by zero".
Proof. intros Hb. unfold divideEither. now rewrite Hb. Qed.

Lemma divideEither_nonzero (a b : float) :
  (b =? 0)%float = false -> divideEither a b = Right (a / b)%float.
Proof. intros Hb. unfold divideEither. now rewrite Hb. Qed.

(** C8.  For all numbers [a] and [b]: [divide a b] is a failure exactly when
    [b === 0], the failure then carries the error "Division by zero", and
    otherwise the result is the success carrying [a / b]; [divideEither a b]
    is [left "Division by zero"] exactly when [b === 0] and [right (a / b)]
    otherwise. *)
Theorem divide_fails_iff_divisor_zero (a b : float) :
  ((exists e, divide a b = Failure e) <-> (b =? 0)%float = true)
  /\ (forall e, divide a b = Failure e -> e = new_Error "Division by zero")
  /\ ((b =? 0)%float = false -> divide a b = Success (a / b)%float)
  /\ (divideEither a b = left "Division by zero" <-> (b =? 0)%float = true)
  /\ ((b =? 0)%float = false -> divideEither a b = right (a / b)%float).
Proof.
  destruct (b =? 0)%float eqn:Hb.
  - rewrite (divide_zero a b Hb), (divideEither_zero a b Hb).
    repeat split; eauto; try discriminate.
    intros e He. now inversion He.
  - rewrite (divide_nonzero a b Hb), (divideEither_nonzero a b Hb).
    repeat split; eauto; try discriminate.
    intros [e He]. discriminate.
Qed.

(** *** The assertion function [assertIsString] *)

Lemma typeof_string_inv (v : JsValue) :
  typeof v = "string" -> exists s, v = VString s.
Proof. destruct v; simpl; try discriminate. eauto. Qed.

Lemma assertIsString_string (s : JsString) (message : string) :
  assertIsString (VString s) message = Return tt.
Proof. reflexivity. Qed.

Lemma assertIsString_other (value : JsValue) (message : string) :
  typeof value <> "string" ->
  assertIsString value message
  = Throw (ThrownError (new_Error
      (message ++ " (expected string, got " ++ typeof value ++ ")"))).
Proof.
  intros Hty. unfold assertIsString.
  destruct (String.eqb_spec (typeof value) "string") as [E | E]; [contradiction | reflexivity].
Qed.

(** C5.  [assertIsString value message] returns normally if and only if
    [value] is a string, and otherwise throws an [Error] (whose text names
    the type it got); hence [processInput] returns [input.toUpperCase()] on
    every string and throws on every other value. *)
Theorem assertIsString_returns_iff_string
    (toUpperCase : JsString -> JsString) (value : JsValue) (message : string) :
  (assertIsString value message = Return tt <-> typeof value = "string")
  /\ (typeof value <> "string" ->
      exists e, assertIsString value message = Throw (ThrownError e)
                /\ err_class e = CError)
  /\ (forall s, value = VString s ->
      processInput toUpperCase value = Return (toUpperCase s))
  /\ (typeof value <> "string" ->
      exists e, processInput toUpperCase value = Throw (ThrownError e)
                /\ err_class e = CError).
Proof.
  split; [| split; [| split]].
  - split.
    + intros Hret. destruct (String.eqb_spec (typeof value) "string") as [E | E]; [exact E |].
      rewrite (assertIsString_other value message E) in Hret. discriminate.
    + intros Hty. destruct (typeof_string_inv value Hty) as [s ->].
      apply assertIsString_string.
  - intros Hty. rewrite (assertIsString_other value message Hty). eauto.
  - intros s ->. reflexivity.
  - intros Hty. unfold processInput.
    rewrite (assertIsString_other value _ Hty). eauto.
Qed.

(** *** The type guard [isFish] *)

Lemma get_object (props : gmap string JsValue) (key : string) (v : JsValue) :
  props !! key = Some v -> get (VObject props) key = v.
Proof. intros H. unfold get. now rewrite H. Qed.

Lemma get_object_absent (props : gmap string JsValue) (key : string) :
  props !! key = None -> get (VObject props) key = VUndefined.
Proof. intros H. unfold get. now rewrite H. Qed.

(** C7.  On every pet of the [Fish] shape [isFish] answers [true], and on
    every pet of the [Bird] shape that has no [swim] member it answers
    [false]; the branch [careForPet] then takes calls a method that is
    there ([swim] on a fish, [fly] on a bird). *)
Theorem isFish_sound_and_complete (pet : JsValue) :
  (CustomTypes.Fish_shape pet ->
     CustomTypes.isFish pet = true
     /\ exists f, CustomTypes.careForPet pet = VFunction f)
  /\ (CustomTypes.Bird_shape pet ->
     CustomTypes.isFish pet = false
     /\ exists f, CustomTypes.careForPet pet = VFunction f).
Proof.
  split.
  - intros (props & f & g & -> & Hswim & _).
    unfold CustomTypes.careForPet, CustomTypes.isFish.
    rewrite (get_object _ _ _ Hswim). simpl. eauto.
  - intros (props & f & g & -> & Hfly & _ & Hswim).
    unfold CustomTypes.careForPet, CustomTypes.isFish.
    rewrite (get_object_absent _ _ Hswim), (get_object _ _ _ Hfly). simpl. eauto.
Qed.

(** Both literals of [getRandomPet] are classified as the theorem says. *)
Lemma isFish_sound_and_complete_witness :
  CustomTypes.isFish (CustomTypes.getRandomPet 0.75) = true
  /\ CustomTypes.isFish (CustomTypes.getRandomPet 0.25) = false.
Proof.
  split.
  - apply (proj1 (isFish_sound_and_complete (CustomTypes.getRandomPet 0.75))).
    exists (<["swim" := VFunction 0]> (<["layEggs" := VFunction 1]> ∅)), 0, 1.
    repeat split; reflexivity.
  - apply (proj2 (isFish_sound_and_complete (CustomTypes.getRandomPet 0.25))).
    exists (<["fly" := VFunction 2]> (<["layEggs" := VFunction 3]> ∅)), 2, 3.
    repeat split; reflexivity.
Defined.

(** *** Form validation: [validateUserForm] *)

Lemma starts_with_app_iff (sub s : JsString) :
  starts_with sub s = true <-> exists t, s = (sub ++ t)%list.
Proof.
  revert s. induction sub as [| c sub IH]; intros s.
  - split; [intros _; now exists s | reflexivity].
  - destruct s as [| d s]; simpl.
    + split; [discriminate | intros [t Ht]; discriminate].
    + rewrite andb_true_iff, N.eqb_eq, IH. split.
      * intros [-> [t ->]]. now exists t.
      * intros [t Ht]. inversion Ht; subst. eauto.
Qed.

Lemma includes_spec (s sub : JsString) :
  includes s sub = true <-> exists s1 s2, s = (s1 ++ sub ++ s2)%list.
Proof.
  induction s as [| c s IH].
  - cbn [includes]. rewrite orb_false_r, starts_with_app_iff. split.
    + intros [t Ht]. now exists [], t.
    + intros (s1 & s2 & H). destruct s1; [now exists s2 | discriminate].
  - cbn [includes]. rewrite orb_true_iff, starts_with_app_iff, IH. split.
    + intros [[t Ht] | (s1 & s2 & Hs)].
      * now exists [], t.
      * exists (c :: s1), s2. simpl. now rewrite Hs.
    + intros (s1 & s2 & H). destruct s1 as [| c' s1].
      * left. now exists s2.
      * right. simpl in H. inversion H. now exists s1, s2.
Qed.

Lemma username_accepted (data : JsValue) (errors : list FieldError) :
  username_ok data -> check_username data errors = errors.
Proof.
  intros (u & Hu & Hne & Hlen). unfold check_username. rewrite Hu.
  destruct u as [| c u]; [contradiction |]. cbn [truthy typeof str_length].
  destruct (Nat.ltb_spec (List.length (c :: u)) 3); [lia | reflexivity].
Qed.

Lemma username_rejected (data : JsValue) (errors : list FieldError) :
  ~ username_ok data ->
  exists e, check_username data errors = (errors ++ [e])%list.
Proof.
  intros Hno. unfold check_username.
  destruct (negb (truthy (get data "username"))
            || negb (typeof (get data "username") =? "string")) eqn:Hguard; [eauto |].
  destruct (str_length (get data "username") <? 3)%nat eqn:Hlen; [eauto |].
  exfalso. apply Hno.
  apply orb_false_elim in Hguard as [Htruthy Hty].
  apply negb_false_iff in Htruthy, Hty.
  apply String.eqb_eq, typeof_string_inv in Hty as [u Hu].
  rewrite Hu in Htruthy, Hlen. simpl in Htruthy, Hlen.
  exists u. split; [exact Hu |]. split.
  - intros ->. discriminate.
  - apply Nat.ltb_ge in Hlen. exact Hlen.
Qed.

Lemma email_accepted (data : JsValue) (errors : list FieldError) :
  email_ok data ->
  check_email data errors = errors.
Proof.
  intros (e & He & Hne & Hat). unfold check_email. rewrite He.
  apply includes_spec in Hat.
  destruct e as [| c e]; [contradiction |]. cbn [truthy typeof str_includes].
  now rewrite Hat.
Qed.

Lemma email_rejected (data : JsValue) (errors : list FieldError) :
  ~ email_ok data ->
  exists err, check_email data errors = (errors ++ [err])%list.
Proof.
  intros Hno. unfold check_email.
  destruct (negb (truthy (get data "email"))
            || negb (typeof (get data "email") =? "string")) eqn:Hguard; [eauto |].
  destruct (negb (str_includes (get data "email") (js "@"))) eqn:Hinc; [eauto |].
  exfalso. apply Hno.
  apply orb_false_elim in Hguard as [Htruthy Hty].
  apply negb_false_iff in Htruthy, Hty, Hinc.
  apply String.eqb_eq, typeof_string_inv in Hty as [e He].
  rewrite He in Htruthy, Hinc. simpl in Htruthy. cbn [str_includes] in Hinc.
  exists e. split; [exact He |]. split.
  - intros ->. discriminate.
  - now apply includes_spec.
Qed.

Lemma age_accepted (data : JsValue) (errors : list FieldError) :
  age_ok data ->
  check_age data errors = errors.
Proof.
  intros (a & Ha & Hge). unfold check_age. rewrite Ha. simpl. now rewrite Hge.
Qed.

Lemma age_rejected (data : JsValue) (errors : list FieldError) :
  ~ age_ok data ->
  exists err, check_age data errors = (errors ++ [err])%list.
Proof.
  intros Hno. unfold check_age.
  destruct (is_undefined (get data "age")
            || negb (typeof (get data "age") =? "number")) eqn:Hguard; [eauto |].
  destruct (number_lt (get data "age") 18) eqn:Hlt; [eauto |].
  exfalso. apply Hno.
  apply orb_false_elim in Hguard as [_ Hty].
  apply negb_false_iff, String.eqb_eq in Hty.
  unfold age_ok. destruct (get data "age"); try discriminate. eauto.
Qed.

Lemma form_is_object_guard (form : JsValue) :
  negb (typeof form =? "object") || is_null form = false <-> form_is_object form.
Proof.
  unfold form_is_object.
  destruct form; simpl; split; try discriminate; try tauto;
    try (intros [H _]; discriminate H);
    try (intros _; split; [reflexivity | discriminate]).
Qed.


Lemma validateUserForm_object (form : JsValue) :
  form_is_object form ->
  validateUserForm form
  = let errors := check_age form (check_email form (check_username form [])) in
    if (0 <? List.length errors)%nat then Invalid errors
    else Valid (user_form_of form).
Proof.
  intros Hobj. unfold validateUserForm.
  apply form_is_object_guard in Hobj. now rewrite Hobj.
Qed.

Lemma check_username_grows (data : JsValue) (errors : list FieldError) :
  (username_ok data /\ check_username data errors = errors)
  \/ (~ username_ok data /\ exists e, check_username data errors = (errors ++ [e])%list).
Proof.
  assert (Hdec : username_ok data \/ ~ username_ok data).
  { unfold username_ok. destruct (get data "username") as [| | | | | u | | |];
      try (right; intros (u' & Hu & _); discriminate).
    destruct u as [| c u].
    - right. intros (u' & Hu & Hne' & _). inversion Hu; subst. contradiction.
    - destruct (le_lt_dec 3 (List.length (c :: u))) as [Hlen | Hlen].
      + left. exists (c :: u). repeat split; [discriminate | exact Hlen].
      + right. intros (u' & Hu & _ & Hlen'). inversion Hu; subst. lia. }
  destruct Hdec as [Hok | Hno].
  - left. split; [exact Hok | now apply username_accepted].
  - right. split; [exact Hno | now apply username_rejected].
Qed.

Lemma check_email_grows (data : JsValue) (errors : list FieldError) :
  (email_ok data /\ check_email data errors = errors)
  \/ (~ email_ok data /\ exists e, check_email data errors = (errors ++ [e])%list).
Proof.
  assert (Hdec : email_ok data \/ ~ email_ok data).
  { unfold email_ok. destruct (get data "email") as [| | | | | e | | |];
      try (right; intros (e' & He & _); discriminate).
    destruct e as [| c e].
    - right. intros (e' & He & Hne' & _). inversion He; subst. contradiction.
    - destruct (includes (c :: e) (js "@")) eqn:Hinc.
      + left. exists (c :: e). repeat split; [discriminate |].
        now apply includes_spec.
      + right. intros (e' & He & _ & Hat). inversion He; subst.
        apply includes_spec in Hat. congruence. }
  destruct Hdec as [Hok | Hno].
  - left. split; [exact Hok | now apply email_accepted].
  - right. split; [exact Hno | now apply email_rejected].
Qed.

Lemma check_age_grows (data : JsValue) (errors : list FieldError) :
  (age_ok data /\ check_age data errors = errors)
  \/ (~ age_ok data /\ exists e, check_age data errors = (errors ++ [e])%list).
Proof.
  assert (Hdec : age_ok data \/ ~ age_ok data).
  { unfold age_ok. destruct (get data "age") as [| | | a | | | | |];
      try (right; intros (a' & Ha & _); discriminate).
    destruct (a <? 18)%float eqn:Hlt.
    - right. intros (a' & Ha & Hge). inversion Ha; subst. congruence.
    - left. eauto. }
  destruct Hdec as [Hok | Hno].
  - left. split; [exact Hok | now apply age_accepted].
  - right. split; [exact Hno | now apply age_rejected].
Qed.



(** *** Run-time checks in the classes *)

Lemma deposit_rejects (amount : float) (this : Classes.BankAccount) :
  (amount <=? 0)%float = true ->
  Classes.deposit amount this
  = (Throw (ThrownError (new_Error "Deposit amount must be positive")), this).
Proof. intros H. unfold Classes.deposit. now rewrite H. Qed.

Lemma deposit_accepts (amount : float) (this : Classes.BankAccount) :
  (amount <=? 0)%float = false ->
  Classes.deposit amount this
  = (Return tt,
     Classes.mkBankAccount (Classes.accountNumber this)
       (Classes.balance this + amount)%float (Classes.ownerName this)).
Proof. intros H. unfold Classes.deposit. now rewrite H. Qed.

Lemma set_celsius_rejects (value : float) (this : Classes.Temperature) :
  (value <? -273.15)%float = true ->
  Classes.set_celsius value this
  = (Throw (ThrownError
             (new_Error "Temperature below absolute zero is not possible")),
     this).
Proof. intros H. unfold Classes.set_celsius. now rewrite H. Qed.

Lemma set_celsius_accepts (value : float) (this : Classes.Temperature) :
  (value <? -273.15)%float = false ->
  Classes.set_celsius value this = (Return tt, Classes.mkTemperature value).
Proof. intros H. unfold Classes.set_celsius. now rewrite H. Qed.

(** The setter keeps the stored value out of the forbidden range. *)
Lemma set_celsius_preserves (value : float) (this : Classes.Temperature) :
  not_below_absolute_zero this ->
  not_below_absolute_zero (snd (Classes.set_celsius value this)).
Proof.
  intros Hinv. unfold Classes.set_celsius.
  destruct (value <? -273.15)%float eqn:Hlt; simpl; [exact Hinv | exact Hlt].
Qed.

Lemma assign_preserves (op : Classes.TemperatureOp) (this : Classes.Temperature) :
  not_below_absolute_zero this ->
  not_below_absolute_zero (snd (Classes.assign op this)).
Proof.
  destruct op; simpl; unfold Classes.set_fahrenheit; apply set_celsius_preserves.
Qed.

Lemma assign_all_preserves (ops : list Classes.TemperatureOp)
    (this : Classes.Temperature) :
  not_below_absolute_zero this ->
  not_below_absolute_zero (Classes.assign_all ops this).
Proof.
  revert this. induction ops as [| op ops IH]; intros this Hinv; simpl.
  - exact Hinv.
  - apply IH, assign_preserves, Hinv.
Qed.

Lemma reachable_not_below_absolute_zero (t : Classes.Temperature) :
  reachable t -> not_below_absolute_zero t.
Proof.
  intros [ops <-]. apply assign_all_preserves. reflexivity.
Qed.

(** C2, as stated, fails: [deposit] rejects the number [-5], the [celsius]
    setter rejects the number [-300], the [fahrenheit] setter rejects the
    number [-500], and a [Temperature] holding [-300] has the static shape
    of the class but is never the state of an object. *)
Lemma classes_reject_arguments :
  ~ accepts_every_argument Classes.deposit
  /\ ~ accepts_every_argument Classes.set_celsius
  /\ ~ accepts_every_argument Classes.set_fahrenheit
  /\ ~ (forall t : Classes.Temperature, reachable t).
Proof.
  split; [| split; [| split]].
  - intros Hall.
    destruct (Hall (-5)%float (Classes.new_BankAccount "123456789" "John Doe" 1000))
      as [s' Hs']. discriminate Hs'.
  - intros Hall.
    destruct (Hall (-300)%float Classes.new_Temperature) as [s' Hs']. discriminate Hs'.
  - intros Hall.
    destruct (Hall (-500)%float Classes.new_Temperature) as [s' Hs']. discriminate Hs'.
  - intros Hall.
    pose proof (reachable_not_below_absolute_zero _
                  (Hall (Classes.mkTemperature (-300)))) as Hinv.
    discriminate Hinv.
Qed.

(** C2, amended.  [BankAccount.deposit] throws exactly when
    [amount <= 0] and then leaves the account as it was, otherwise it adds
    the amount to the balance; the [celsius] setter throws exactly when
    [value < -273.15] and then leaves the object as it was, otherwise it
    stores the value; the [fahrenheit] setter, which assigns through it,
    throws exactly when the converted value [((value - 32) * 5) / 9] is
    below [-273.15] and then leaves the object as it was, otherwise it
    stores the converted value; so every [Temperature] obtained from
    [new Temperature()] by assignments to [celsius] and [fahrenheit] holds a
    value that is not below [-273.15]. *)
Theorem classes_runtime_checks :
  (forall amount this,
     (amount <=? 0)%float = true ->
     Classes.deposit amount this
     = (Throw (ThrownError (new_Error "Deposit amount must be positive")), this))
  /\ (forall amount this,
     (amount <=? 0)%float = false ->
     fst (Classes.deposit amount this) = Return tt
     /\ Classes.getBalance (snd (Classes.deposit amount this))
        = (Classes.getBalance this + amount)%float)
  /\ (forall value this,
     (value <? -273.15)%float = true ->
     Classes.set_celsius value this
     = (Throw (ThrownError
                (new_Error "Temperature below absolute zero is not possible")),
        this))
  /\ (forall value this,
     (value <? -273.15)%float = false ->
     Classes.set_celsius value this = (Return tt, Classes.mkTemperature value))
  /\ (forall value this,
     ((((value - 32) * 5) / 9) <? -273.15)%float = true ->
     Classes.set_fahrenheit value this
     = (Throw (ThrownError
                (new_Error "Temperature below absolute zero is not possible")),
        this))
  /\ (forall value this,
     ((((value - 32) * 5) / 9) <? -273.15)%float = false ->
     Classes.set_fahrenheit value this
     = (Return tt, Classes.mkTemperature (((value - 32) * 5) / 9)%float))
  /\ (forall t, reachable t -> not_below_absolute_zero t).
Proof.
  split; [| split; [| split; [| split; [| split; [| split]]]]].
  - apply deposit_rejects.
  - intros amount this H. now rewrite (deposit_accepts amount this H).
  - apply set_celsius_rejects.
  - apply set_celsius_accepts.
  - intros value this H. unfold Classes.set_fahrenheit.
    now apply set_celsius_rejects.
  - intros value this H. unfold Classes.set_fahrenheit.
    now apply set_celsius_accepts.
  - apply reachable_not_below_absolute_zero.
Qed.

(** *** Round trips *)

Lemma set_celsius_then_get (v : float) (this this' : Classes.Temperature) :
  Classes.set_celsius v this = (Return tt, this') -> Classes.get_celsius this' = v.
Proof.
  unfold Classes.set_celsius.
  destruct (v <? -273.15)%float; intros H; inversion H. reflexivity.
Qed.

(** C6, as stated, fails: a value assigned to [celsius] is read back
    unchanged (the repository's own [25]), and the repository's own
    Fahrenheit example converts [68] to [20] degrees Celsius and back to
    [68]. *)
Lemma temperature_round_trips :
  Classes.get_celsius (snd (Classes.set_celsius 25 Classes.new_Temperature)) = 25%float
  /\ Classes.get_celsius (snd (Classes.set_fahrenheit 68 Classes.new_Temperature))
     = 20%float
  /\ Classes.get_fahrenheit (snd (Classes.set_fahrenheit 68 Classes.new_Temperature))
     = 68%float
  /\ Classes.get_fahrenheit (snd (Classes.set_celsius 25 Classes.new_Temperature))
     = 77%float.
Proof. repeat split; reflexivity. Qed.

(** C6, amended.  Writing and reading back is a round trip on every value
    the write accepts: [temp.celsius = v] followed by [temp.celsius],
    [box.setValue(v)] followed by [box.getValue()], and [set(v)] followed by
    [get()] on the pair [createState] returns.  The Fahrenheit conversion
    followed by its inverse gives back [68] but, in binary64 arithmetic, not
    every input: [0.1] comes back as another number. *)
Theorem write_then_read_round_trips :
  round_trip Classes.set_celsius Classes.get_celsius
  /\ (forall (T : Type) (v : T) (b : Generics.Box T),
        fst (Generics.box_call Generics.GetValue
               (snd (Generics.box_call (Generics.SetValue v) b))) = Some v)
  /\ (forall (T : Type) (v : T) (st : Generics.State T),
        fst (Generics.state_call Generics.Get
               (snd (Generics.state_call (Generics.Set_ v) st))) = Some v)
  /\ Classes.get_fahrenheit (snd (Classes.set_fahrenheit 68 Classes.new_Temperature))
     = 68%float
  /\ Classes.get_fahrenheit (snd (Classes.set_fahrenheit 0.1 Classes.new_Temperature))
     <> 0.1%float
  /\ Classes.get_fahrenheit (snd (Classes.set_fahrenheit 0.1 Classes.new_Temperature))
     = 0.10000000000000142%float.
Proof.
  split; [| split; [| split; [| split; [| split]]]].
  - intros v s s'. apply set_celsius_then_get.
  - reflexivity.
  - reflexivity.
  - reflexivity.
  - vm_compute. intros H. discriminate H.
  - reflexivity.
Qed.

(** *** State kept between calls *)

Lemma run_box_value {T : Type} (history : list (Generics.BoxCall T))
    (b : Generics.Box T) :
  Generics.box_value (Generics.run Generics.box_call history b)
  = last_stored history (Generics.box_value b).
Proof.
  revert b. induction history as [| c history IH]; intros b; simpl.
  - reflexivity.
  - rewrite IH. destruct c; reflexivity.
Qed.

Lemma run_state_value {T : Type} (history : list (Generics.StateCall T))
    (st : Generics.State T) :
  Generics.state (Generics.run Generics.state_call history st)
  = last_state history (Generics.state st).
Proof.
  revert st. induction history as [| c history IH]; intros st; simpl.
  - reflexivity.
  - rewrite IH. destruct c; reflexivity.
Qed.

Lemma incremented_S (n : nat) (start : float) :
  incremented (S n) start = (incremented n start + 1)%float.
Proof.
  revert start. induction n as [| n IH]; intros start.
  - reflexivity.
  - change (incremented (S (S n)) start) with (incremented (S n) (start + 1)%float).
    rewrite IH. reflexivity.
Qed.

Lemma incremented_from_zero (n : nat) : incremented n 0 = float_of_nat n.
Proof.
  induction n as [| n IH]; [reflexivity |].
  rewrite incremented_S, IH. reflexivity.
Qed.

Lemma run_container_count (history : list Generics.ContainerCall)
    (st : Generics.ContainerStatics) :
  Generics.count (Generics.run Generics.container_call history st)
  = incremented (constructions history) (Generics.count st).
Proof.
  revert st. induction history as [| c history IH]; intros st.
  - reflexivity.
  - simpl Generics.run. rewrite IH. destruct c; reflexivity.
Qed.

(** C3, as stated, fails: [getValue()] on [new Box("hello")] answers
    "hello" at once and "world" after [setValue("world")]; the [get] of
    [createState(42)] answers [42] at once and [10] after [set(10)];
    [Container.getCount()] answers [0] at once and [2] after two
    constructions. *)
Lemma results_depend_on_history :
  ~ history_independent Generics.box_call (Generics.mkBox "hello")
  /\ ~ history_independent Generics.state_call (Generics.createState 42%float)
  /\ ~ history_independent Generics.container_call Generics.Container_init.
Proof.
  split; [| split]; intros Hind.
  - specialize (Hind [] [Generics.SetValue "world"] Generics.GetValue).
    discriminate Hind.
  - specialize (Hind [] [Generics.Set_ 10%float] Generics.Get).
    vm_compute in Hind. discriminate Hind.
  - specialize (Hind [] [Generics.NewContainer (VNumber 42);
                         Generics.NewContainer (VString (js "hello"))]
                     Generics.GetCount).
    vm_compute in Hind. discriminate Hind.
Qed.

(** C3, amended.  Three snippets keep state between calls, and a result
    depends on the calls made before exactly through that state: after any
    history, [Box.getValue()] returns the argument of the latest
    [setValue] (the constructor's argument when there was none), the [get]
    closure of [createState] returns the argument of the latest [set] (the
    initial value when there was none), and [Container.getCount()] returns
    the number of [Container]s constructed so far. *)
Theorem results_are_functions_of_the_state :
  (forall (T : Type) (init : T) (history : list (Generics.BoxCall T)),
     Generics.result_after Generics.box_call history Generics.GetValue
                           (Generics.mkBox init)
     = Some (last_stored history init))
  /\ (forall (T : Type) (initial : T) (history : list (Generics.StateCall T)),
     Generics.result_after Generics.state_call history Generics.Get
                           (Generics.createState initial)
     = Some (last_state history initial))
  /\ (forall history : list Generics.ContainerCall,
     Generics.result_after Generics.container_call history Generics.GetCount
                           Generics.Container_init
     = Some (float_of_nat (constructions history))).
Proof.
  split; [| split].
  - intros T init history. unfold Generics.result_after. simpl.
    now rewrite run_box_value.
  - intros T initial history. unfold Generics.result_after. simpl.
    now rewrite run_state_value.
  - intros history. unfold Generics.result_after. simpl.
    rewrite run_container_count. simpl. now rewrite incremented_from_zero.
Qed.

(** *** Snippets that call other snippets *)

(** C4, as stated, fails: what [performDivision(10, 2)] returns changes
    with what the [divide] it calls returns, what [saveUser(null)] prints
    changes with what the [validateUser] it calls does, and
    [fetchUserWithRetry] returns what the [withRetry] it calls returns. *)
Lemma snippets_call_each_other :
  ~ ignores_callee (fun divide' ab => performDivision_body divide' (fst ab) (snd ab))
  /\ ~ ignores_callee (fun validateUser' user =>
                         saveUser_body validateUser' (fun _ => "") user)
  /\ ~ ignores_callee (fun withRetry' (userId : string) =>
                         @fetchUserWithRetry_body unit unit bool withRetry'
                           (fun _ w => (Return tt, w)) userId tt).
Proof.
  split; [| split]; intros Hig.
  - specialize (Hig divide (fun _ _ => Failure (new_Error "unavailable"))
                    (10%float, 2%float)).
    vm_compute in Hig. discriminate Hig.
  - specialize (Hig validateUser (fun _ => Return tt) VNull).
    vm_compute in Hig. discriminate Hig.
  - specialize (Hig (fun _ _ _ => true) (fun _ _ _ => false) "1").
    discriminate Hig.
Qed.

(** C4, amended.  Some example functions compute their result by calling
    another example function of the repository: [performDivision] returns
    the value [divide] computed, or [null] (printing the error's message)
    when [divide] failed; [saveUser] runs [validateUser] and prints its
    [ValidationError]; [processInput] throws what [assertIsString] throws;
    [processUserForm] returns the data [validateUserForm] accepted, or
    [null]; [fetchUserWithRetry] is [withRetry] applied to the
    [apiRequest] for "/api/users/<userId>" with the options
    [{maxRetries: 3, delay: 500, backoffFactor: 1.5}]. *)
Theorem callers_return_what_callees_compute :
  (forall a b,
     performDivision a b
     = match divide a b with
       | Success value => (Some value, [])
       | Failure error => (None, [[AText (err_message error)]])
       end)
  /\ (forall number_to_string user,
     saveUser number_to_string user
     = match validateUser user with
       | Return _ => []
       | Throw _ => [[AText "Validation failed:"; AText "User must be an object"]]
       end)
  /\ (forall toUpperCase input t,
     assertIsString input "Input must be a string" = Throw t ->
     processInput toUpperCase input = Throw t)
  /\ (forall formData,
     fst (processUserForm formData)
     = match validateUserForm formData with
       | Valid data => Some data
       | Invalid _ => None
       end)
  /\ (forall (World T : Type) (fuel : nat) (rt : Runtime World)
            (apiRequest : string -> World -> Completion T * World)
            (userId : string) (w : World),
     fetchUserWithRetry fuel rt apiRequest userId w
     = withRetry fuel rt (apiRequest ("/api/users/" ++ userId))
                 (fixed (mkRetryOptions 3 500 1.5)) w).
Proof.
  split; [| split; [| split; [| split]]].
  - reflexivity.
  - intros number_to_string user. unfold saveUser, saveUser_body, validateUser.
    destruct (negb (typeof user =? "object") || is_null user); reflexivity.
  - intros toUpperCase input t Ht. unfold processInput. now rewrite Ht.
  - intros formData. unfold processUserForm.
    destruct (validateUserForm formData); reflexivity.
  - reflexivity.
Qed.

(** *** The generic [Collection] *)

Section CollectionFrame.

Implicit Types (h : Generics.Heap) (xs acc : list JsValue) (r arr res : Generics.Ref).

Lemma fresh_not_allocated h : h !! fresh (dom h) = None.
Proof. apply not_elem_of_dom, is_fresh. Qed.

Lemma fresh_differs h r xs : h !! r = Some xs -> fresh (dom h) <> r.
Proof.
  intros Hr Heq. subst r. rewrite fresh_not_allocated in Hr. discriminate.
Qed.

Lemma mutate_other r arr (f : list JsValue -> list JsValue) h :
  r <> arr -> Generics.mutate arr f h !! r = h !! r.
Proof. intros Hne. unfold Generics.mutate. now apply lookup_alter_ne. Qed.

Lemma add_insert res (item : JsValue) acc h :
  Generics.add (Generics.mkCollection res) item (<[res := acc]> h)
  = <[res := (acc ++ [item])%list]> h.
Proof.
  unfold Generics.add, Generics.mutate. cbn [Generics.items].
  apply map_eq. intros r. destruct (decide (res = r)) as [<- | Hne].
  - now rewrite lookup_alter_eq, !lookup_insert_eq.
  - now rewrite lookup_alter_ne, !lookup_insert_ne by done.
Qed.

(** With a callback that returns and leaves the array alone, [forEach]
    visits the elements the array had at the start, in order. *)
Lemma forEach_loop_fold arr (callback : Generics.Callback unit)
    (g : JsValue -> Generics.Heap -> Generics.Heap) xs :
  (forall x h, callback x h = (Return tt, g x h)) ->
  (forall x h, h !! arr = Some xs -> g x h !! arr = Some xs) ->
  forall remaining k h,
    h !! arr = Some xs ->
    k + remaining = List.length xs ->
    Generics.forEach_loop arr callback k remaining h
    = (Return tt, fold_left (fun h' x => g x h') (drop k xs) h).
Proof.
  intros Hcb Hframe. induction remaining as [| remaining IH]; intros k h Harr Hlen.
  - simpl. rewrite drop_ge by lia. reflexivity.
  - simpl. rewrite Harr. simpl.
    destruct (lookup_lt_is_Some_2 xs k ltac:(lia)) as [x Hx].
    rewrite Hx, (drop_S _ _ _ Hx), Hcb. simpl.
    apply IH; [now apply Hframe | lia].
Qed.

Lemma forEach_fold arr (callback : Generics.Callback unit)
    (g : JsValue -> Generics.Heap -> Generics.Heap) xs h :
  (forall x h', callback x h' = (Return tt, g x h')) ->
  (forall x h', h' !! arr = Some xs -> g x h' !! arr = Some xs) ->
  h !! arr = Some xs ->
  Generics.forEach arr callback h
  = (Return tt, fold_left (fun h' x => g x h') xs h).
Proof.
  intros Hcb Hframe Harr. unfold Generics.forEach. rewrite Harr. simpl.
  now rewrite (forEach_loop_fold arr callback g xs Hcb Hframe _ 0 h Harr).
Qed.

(** Whatever else the callback does, [forEach] leaves alone an array the
    callback leaves alone. *)
Lemma forEach_loop_preserves arr (callback : Generics.Callback unit) r :
  preserves r callback ->
  forall remaining k h,
    snd (Generics.forEach_loop arr callback k remaining h) !! r = h !! r.
Proof.
  intros Hpres. induction remaining as [| remaining IH]; intros k h; simpl.
  - reflexivity.
  - destruct (h !! arr ≫= (fun xs : list JsValue => xs !! k)) as [x |];
      [| apply IH].
    pose proof (Hpres x h) as Hx.
    destruct (callback x h) as [[u | e] h1]; simpl in Hx.
    + now rewrite IH.
    + exact Hx.
Qed.

Lemma fold_add_map res (fn : JsValue -> JsValue) xs acc h :
  fold_left (fun h' x => Generics.add (Generics.mkCollection res) (fn x) h')
            xs (<[res := acc]> h)
  = <[res := (acc ++ List.map fn xs)%list]> h.
Proof.
  revert acc. induction xs as [| x xs IH]; intros acc; simpl.
  - now rewrite app_nil_r.
  - rewrite add_insert, IH, <- app_assoc. reflexivity.
Qed.

Lemma fold_add_filter res (predicate : JsValue -> bool) xs acc h :
  fold_left (fun h' x => if predicate x
                         then Generics.add (Generics.mkCollection res) x h'
                         else h')
            xs (<[res := acc]> h)
  = <[res := (acc ++ List.filter predicate xs)%list]> h.
Proof.
  revert acc. induction xs as [| x xs IH]; intros acc; simpl.
  - now rewrite app_nil_r.
  - destruct (predicate x).
    + rewrite add_insert, IH, <- app_assoc. reflexivity.
    + apply IH.
Qed.

(** [map] with a callback that only computes. *)
Lemma map_heap (fn : JsValue -> JsValue) (this : Generics.Collection) h xs :
  h !! Generics.items this = Some xs ->
  Generics.map (Generics.pure fn) this h
  = (Return (Generics.mkCollection (fresh (dom h))),
     <[fresh (dom h) := List.map fn xs]> h).
Proof.
  intros Hthis. unfold Generics.map, Generics.new_Collection.
  pose proof (fresh_differs h _ xs Hthis) as Hne.
  rewrite (forEach_fold _ _
             (fun x h' =>
                Generics.add (Generics.mkCollection (fresh (dom h))) (fn x) h')
             xs).
  - now rewrite fold_add_map.
  - reflexivity.
  - intros x h' Hh'. unfold Generics.add. cbn [Generics.items].
    rewrite mutate_other by done. exact Hh'.
  - rewrite lookup_insert_ne by done. exact Hthis.
Qed.

(** [filter] with a predicate that only computes. *)
Lemma filter_heap (predicate : JsValue -> bool) (this : Generics.Collection) h xs :
  h !! Generics.items this = Some xs ->
  Generics.filter (Generics.pure predicate) this h
  = (Return (Generics.mkCollection (fresh (dom h))),
     <[fresh (dom h) := List.filter predicate xs]> h).
Proof.
  intros Hthis. unfold Generics.filter, Generics.new_Collection.
  pose proof (fresh_differs h _ xs Hthis) as Hne.
  rewrite (forEach_fold _ _
             (fun x h' =>
                if predicate x
                then Generics.add (Generics.mkCollection (fresh (dom h))) x h'
                else h')
             xs).
  - now rewrite fold_add_filter.
  - intros x h'. unfold Generics.pure. now destruct (predicate x).
  - intros x h' Hh'. destruct (predicate x); [| exact Hh'].
    unfold Generics.add. cbn [Generics.items]. rewrite mutate_other by done. exact Hh'.
  - rewrite lookup_insert_ne by done. exact Hthis.
Qed.

(** [map] and [filter] with any callback that leaves the receiver's array
    alone. *)
Lemma map_preserves (fn : Generics.Callback JsValue)
    (this : Generics.Collection) h xs :
  h !! Generics.items this = Some xs ->
  preserves (Generics.items this) fn ->
  snd (Generics.map fn this h) !! Generics.items this = Some xs.
Proof.
  intros Hthis Hpres. unfold Generics.map, Generics.new_Collection.
  pose proof (fresh_differs h _ xs Hthis) as Hne.
  match goal with
  | |- snd (match ?loop with _ => _ end) !! _ = _ =>
      replace (snd (match loop with
                    | (Return _, h2) =>
                        (Return (Generics.mkCollection (fresh (dom h))), h2)
                    | (Throw e, h2) => (Throw e, h2)
                    end))
        with (snd loop) by (now destruct loop as [[u | e] h2])
  end.
  unfold Generics.forEach. rewrite forEach_loop_preserves.
  - rewrite lookup_insert_ne by done. exact Hthis.
  - intros item h'. pose proof (Hpres item h') as Hitem.
    destruct (fn item h') as [[v | e] h'']; simpl in *; [| exact Hitem].
    unfold Generics.add. cbn [Generics.items].
    rewrite mutate_other by done. exact Hitem.
Qed.

Lemma filter_preserves (predicate : Generics.Callback bool)
    (this : Generics.Collection) h xs :
  h !! Generics.items this = Some xs ->
  preserves (Generics.items this) predicate ->
  snd (Generics.filter predicate this h) !! Generics.items this = Some xs.
Proof.
  intros Hthis Hpres. unfold Generics.filter, Generics.new_Collection.
  pose proof (fresh_differs h _ xs Hthis) as Hne.
  match goal with
  | |- snd (match ?loop with _ => _ end) !! _ = _ =>
      replace (snd (match loop with
                    | (Return _, h2) =>
                        (Return (Generics.mkCollection (fresh (dom h))), h2)
                    | (Throw e, h2) => (Throw e, h2)
                    end))
        with (snd loop) by (now destruct loop as [[u | e] h2])
  end.
  unfold Generics.forEach. rewrite forEach_loop_preserves.
  - rewrite lookup_insert_ne by done. exact Hthis.
  - intros item h'. pose proof (Hpres item h') as Hitem.
    destruct (predicate item h') as [[[|] | e] h'']; simpl in *;
      [| exact Hitem | exact Hitem].
    unfold Generics.add. cbn [Generics.items].
    rewrite mutate_other by done. exact Hitem.
Qed.

Lemma mutations_other r arr (fs : list (list JsValue -> list JsValue)) h :
  r <> arr ->
  fold_left (fun h' f => Generics.mutate arr f h') fs h !! r = h !! r.
Proof.
  intros Hne. revert h. induction fs as [| f fs IH]; intros h; simpl.
  - reflexivity.
  - rewrite IH. now apply mutate_other.
Qed.

End CollectionFrame.

(** C10, as stated, fails: the callback is the caller's code and can reach
    the receiver.  On the collection holding [1, 2],
    [c.map(v => { c.add(v); return v; })] leaves [c] holding [1, 2, 1, 2],
    and so does [c.filter(v => { c.add(v); return true; })]. *)
Lemma callbacks_change_the_receiver :
  ~ map_leaves_the_receiver /\ ~ filter_leaves_the_receiver.
Proof.
  split; intros Hleaves.
  - specialize (Hleaves (adding (fst one_two)) (fst one_two) (snd one_two)).
    vm_compute in Hleaves. discriminate Hleaves.
  - specialize (Hleaves (adding_and_keeping (fst one_two)) (fst one_two)
                        (snd one_two)).
    vm_compute in Hleaves. discriminate Hleaves.
Qed.

(** C10, amended.  On a collection whose array holds [xs]: with a callback
    that only computes, [map] and [filter] return a collection whose array
    is newly allocated and holds the mapped, respectively the kept,
    elements, and they change nothing else, the receiver's array included;
    with any callback, which may change arrays and may throw, they leave
    the receiver's array as it is provided the callback itself does;
    [getAll] returns a newly allocated array holding [xs], so whatever
    in-place changes are then made to the returned array, the collection
    still holds [xs]. *)
Theorem collection_operations_frame
    (this : Generics.Collection) (h : Generics.Heap) (xs : list JsValue) :
  h !! Generics.items this = Some xs ->
  (forall (fn : JsValue -> JsValue),
     exists result h',
       Generics.map (Generics.pure fn) this h = (Return result, h')
       /\ h' !! Generics.items this = Some xs
       /\ Generics.items result <> Generics.items this
       /\ h !! Generics.items result = None
       /\ h' !! Generics.items result = Some (List.map fn xs)
       /\ forall r, r <> Generics.items result -> h' !! r = h !! r)
  /\ (forall (predicate : JsValue -> bool),
     exists result h',
       Generics.filter (Generics.pure predicate) this h = (Return result, h')
       /\ h' !! Generics.items this = Some xs
       /\ Generics.items result <> Generics.items this
       /\ h !! Generics.items result = None
       /\ h' !! Generics.items result = Some (List.filter predicate xs)
       /\ forall r, r <> Generics.items result -> h' !! r = h !! r)
  /\ (forall (fn : Generics.Callback JsValue),
     preserves (Generics.items this) fn ->
     snd (Generics.map fn this h) !! Generics.items this = Some xs)
  /\ (forall (predicate : Generics.Callback bool),
     preserves (Generics.items this) predicate ->
     snd (Generics.filter predicate this h) !! Generics.items this = Some xs)
  /\ (let arr := fst (Generics.getAll this h) in
      let h' := snd (Generics.getAll this h) in
      arr <> Generics.items this
      /\ h !! arr = None
      /\ h' !! arr = Some xs
      /\ h' !! Generics.items this = Some xs
      /\ forall fs : list (list JsValue -> list JsValue),
           fold_left (fun h'' f => Generics.mutate arr f h'') fs h'
             !! Generics.items this = Some xs).
Proof.
  intros Hthis. pose proof (fresh_differs h _ xs Hthis) as Hne.
  split; [| split; [| split; [| split]]].
  - intros fn. rewrite (map_heap fn this h xs Hthis).
    eexists _, _. split; [reflexivity |]. cbn [Generics.items].
    split; [| split; [| split; [| split]]].
    + rewrite lookup_insert_ne by done. exact Hthis.
    + exact Hne.
    + apply fresh_not_allocated.
    + apply lookup_insert_eq.
    + intros r Hr. now rewrite lookup_insert_ne.
  - intros predicate. rewrite (filter_heap predicate this h xs Hthis).
    eexists _, _. split; [reflexivity |]. cbn [Generics.items].
    split; [| split; [| split; [| split]]].
    + rewrite lookup_insert_ne by done. exact Hthis.
    + exact Hne.
    + apply fresh_not_allocated.
    + apply lookup_insert_eq.
    + intros r Hr. now rewrite lookup_insert_ne.
  - intros fn. now apply map_preserves.
  - intros predicate. now apply filter_preserves.
  - unfold Generics.getAll. rewrite Hthis. cbv zeta. cbn [fst snd Generics.items default].
    split; [| split; [| split; [| split]]].
    + exact Hne.
    + apply fresh_not_allocated.
    + apply lookup_insert_eq.
    + rewrite lookup_insert_ne by done. exact Hthis.
    + intros fs. rewrite mutations_other by (intros E; now apply Hne).
      rewrite lookup_insert_ne by done. exact Hthis.
Qed.

(** A collection holding [1, 2, 3], mapped with a callback that adds to
    another collection and so leaves this one alone. *)
Lemma collection_operations_frame_witness :
  snd (Generics.map (adding (fst one_two))
         (Generics.mkCollection 1)
         (<[1 := [VNumber 1; VNumber 2; VNumber 3]]> (snd one_two)))
    !! 1
  = Some [VNumber 1; VNumber 2; VNumber 3].
Proof.
  refine (proj1 (proj2 (proj2 (collection_operations_frame
                                 (Generics.mkCollection 1)
                                 (<[1 := [VNumber 1; VNumber 2; VNumber 3]]>
                                    (snd one_two))
                                 [VNumber 1; VNumber 2; VNumber 3] _)))
                (adding (fst one_two)) _).
  - vm_compute. reflexivity.
  - intros item h. unfold adding, Generics.add. cbn [snd].
    apply mutate_other. vm_compute. discriminate.
Defined.

(** *** Retry with backoff: [withRetry] *)


Lemma retryable_iff (error : Thrown) :
  retryable error = true <-> server_error error.
Proof.
  split.
  - destruct error as [[[| | | c | status code details] message] | v];
      simpl; try discriminate.
    intros Hs. now eexists _, status, code, details.
  - intros (e & status & code & details & -> & Hclass & Hs).
    destruct e as [class message]. simpl in Hclass. subst class. exact Hs.
Qed.


Section Retry.

Context {World T : Type} (rt : Runtime World)
        (fn : World -> Completion T * World) (options : World -> RetryOptions).

Implicit Types (w : World) (events pre post : list Event)
               (outcome : Completion T).


(** A run is what the loop computes as soon as the fuel exceeds the number
    of calls. *)
Lemma run_withRetry_loop attempt lastError w outcome w' events :
  RetryRun rt fn options attempt lastError w outcome w' events ->
  forall fuel,
    calls events < fuel ->
    withRetry_loop rt fn options fuel attempt lastError w
    = Some (outcome, w', events).
Proof.
  induction 1 as [attempt lastError w Hb
                 | attempt lastError w v w1 Hb Hfn
                 | attempt lastError w error w1 Hb Hfn Hr
                 | attempt lastError w error w1 outcome w2 events Hb Hfn Hr Hrun IH];
    intros [| fuel] Hfuel; try (simpl in Hfuel; lia);
    cbn [withRetry_loop]; rewrite Hb; try rewrite Hfn; try rewrite Hr;
    try reflexivity.
  cbv zeta. rewrite IH; [reflexivity |]. simpl in Hfuel. lia.
Qed.






End Retry.

Lemma counted_eq {World T : Type} (fn : World -> Completion T * World)
    (n : nat) (w : World) :
  counted fn (n, w) = (fst (fn w), (S n, snd (fn w))).
Proof. unfold counted. simpl. now destruct (fn w). Qed.

(** The call events of the trace are exactly the invocations of [fn]: a
    counter threaded through [fn] ends at their number. *)
Lemma withRetry_loop_counted {World T : Type} (rt : Runtime World)
    (fn : World -> Completion T * World) (options : World -> RetryOptions)
    (fuel : nat) :
  forall attempt lastError n w,
    withRetry_loop (counting_runtime rt) (counted fn) (counting_options options)
                   fuel attempt lastError (n, w)
    = match withRetry_loop rt fn options fuel attempt lastError w with
      | Some (outcome, w', events) =>
          Some (outcome, (n + calls events, w'), events)
      | None => None
      end.
Proof.
  induction fuel as [| fuel IH]; intros attempt lastError n w; [reflexivity |].
  cbn [withRetry_loop]. rewrite counted_eq.
  change (counting_options options (n, w)) with (options w).
  destruct (in_bounds (options w) attempt).
  - destruct (fn w) as [[v | error] w1]; cbn [fst snd].
    + cbn [calls]. now rewrite Nat.add_1_r.
    + change (counting_options options (S n, w1)) with (options w1).
      change (retryDelay (counting_runtime rt) (options w1) attempt)
        with (retryDelay rt (options w1) attempt).
      change (retry_line (counting_runtime rt) (options w1) attempt)
        with (retry_line rt (options w1) attempt).
      destruct (retryable error).
      * cbv zeta. cbn [sleep counting_runtime fst snd]. rewrite IH.
        destruct (withRetry_loop rt fn options fuel (S attempt) error
                    (sleep rt (retryDelay rt (options w1) attempt) w1))
          as [[[outcome w2] events] |]; [| reflexivity].
        cbn [calls]. now rewrite Nat.add_succ_r.
      * cbn [calls]. now rewrite Nat.add_1_r.
  - cbn [calls]. now rewrite Nat.add_0_r.
Qed.



(** A run with the default options on a thunk that fails twice with a 503
    and then returns: three calls, with pauses of [300 * pow(2, 0)] and
    [300 * pow(2, 1)] between them. *)
Example withRetry_flaky (pow : float -> float -> float) (show : float -> string) :
  let rt := mkRuntime nat pow show (fun _ w => w) in
  withRetry 3 rt flaky (fixed default_options) 0
  = Some (Return (js "ok"), 3,
          [EvCall 0 (Some unavailable);
           EvLog (retry_line rt default_options 0);
           EvSleep (300 * pow 2 0)%float;
           EvCall 1 (Some unavailable);
           EvLog (retry_line rt default_options 1);
           EvSleep (300 * pow 2 (0 + 1))%float;
           EvCall 2 None]).
Proof. reflexivity. Qed.

(** A thunk that always fails with a 503 is called [maxRetries] times and
    the pause after the last call still takes place. *)
Example withRetry_always_failing (pow : float -> float -> float)
    (show : float -> string) :
  let rt := mkRuntime nat pow show (fun _ w => w) in
  withRetry 3 rt always_unavailable (fixed (mkRetryOptions 2 500 1.5)) 0
  = Some (Throw unavailable, 2,
          [EvCall 0 (Some unavailable);
           EvLog (retry_line rt (mkRetryOptions 2 500 1.5) 0);
           EvSleep (500 * pow 1.5 0)%float;
           EvCall 1 (Some unavailable);
           EvLog (retry_line rt (mkRetryOptions 2 500 1.5) 1);
           EvSleep (500 * pow 1.5 (0 + 1))%float]).
Proof. reflexivity. Qed.

(** With [maxRetries] [NaN], negative or zero, [fn] is not called and
    [undefined] is thrown. *)
Example withRetry_no_attempt :
  withRetry 1 example_runtime flaky (fixed (mkRetryOptions nan 300 2)) 0
  = Some (Throw (ThrownValue VUndefined), 0, [])
  /\ withRetry 1 example_runtime flaky (fixed (mkRetryOptions (-1) 300 2)) 0
     = Some (Throw (ThrownValue VUndefined), 0, [])
  /\ withRetry 1 example_runtime flaky (fixed (mkRetryOptions 0 300 2)) 0
     = Some (Throw (ThrownValue VUndefined), 0, []).
Proof. repeat split; reflexivity. Qed.

(** With [maxRetries] [Infinity] and a thunk that keeps failing with a 503
    the loop is still running after a hundred iterations. *)
Example withRetry_unbounded :
  withRetry 100 example_runtime always_unavailable
            (fixed (mkRetryOptions infinity 300 2)) 0
  = None.
Proof. vm_compute. reflexivity. Qed.

(** The bound is read at each test: a thunk that lowers [maxRetries] from
    [3] to [1] while it runs is called once. *)
Example withRetry_reads_maxRetries_each_time :
  exists events,
    withRetry 2 (mkRuntime float (fun _ _ => 1%float) (fun _ => "?") (fun _ w => w))
              giving_up (fun w => mkRetryOptions w 300 2) 3%float
    = Some (Throw unavailable, 1%float, events)
    /\ calls events = 1.
Proof. eexists. split; reflexivity. Qed.

(** *** The examples the source files run *)

Example divide_10_2 : divide 10 2 = Success 5%float.
Proof. reflexivity. Qed.

Example divide_by_negative_zero :
  divide 1 (-0)%float = Failure (new_Error "Division by zero").
Proof. reflexivity. Qed.

Example divide_by_nan : divide 1 nan = Success nan.
Proof. reflexivity. Qed.

Example divideEither_10_2 : divideEither 10 2 = Right 5%float.
Proof. reflexivity. Qed.

Example performDivision_by_zero :
  performDivision 1 0 = (None, [[AText "Division by zero"]]).
Proof. reflexivity. Qed.

Example assertIsString_number :
  assertIsString (VNumber 42) "Input must be a string"
  = Throw (ThrownError
             (new_Error "Input must be a string (expected string, got number)")).
Proof. reflexivity. Qed.

Example saveUser_null (show : float -> string) :
  saveUser show VNull
  = [[AText "Validation failed:"; AText "User must be an object"]].
Proof. reflexivity. Qed.

Example validateUserForm_accepts :
  validateUserForm
    (VObject (<["username" := VString (js "alice")]>
              (<["email" := VString (js "alice@example.com")]>
               (<["age" := VNumber 30]> ∅))))
  = Valid (VObject (<["username" := VString (js "alice")]>
                    (<["email" := VString (js "alice@example.com")]>
                     (<["age" := VNumber 30]> ∅)))).
Proof. vm_compute. reflexivity. Qed.

Example validateUserForm_collects_errors :
  validateUserForm
    (VObject (<["username" := VString (js "al")]>
              (<["email" := VString (js "alice.example.com")]>
               (<["age" := VNumber 17]> ∅))))
  = Invalid
      [mkFieldError "username" "Username must be at least 3 characters"
                    "USERNAME_TOO_SHORT";
       mkFieldError "email" "Email must be a valid email address"
                    "INVALID_EMAIL_FORMAT";
       mkFieldError "age" "You must be at least 18 years old" "AGE_TOO_YOUNG"].
Proof. vm_compute. reflexivity. Qed.

Example validateUserForm_empty_object :
  validateUserForm (VObject ∅)
  = Invalid
      [mkFieldError "username" "Username is required and must be a string"
                    "INVALID_USERNAME";
       mkFieldError "email" "Email is required and must be a string"
                    "INVALID_EMAIL";
       mkFieldError "age" "Age is required and must be a number" "INVALID_AGE"].
Proof. vm_compute. reflexivity. Qed.

Example validateUserForm_null : validateUserForm VNull = Invalid [form_error].
Proof. reflexivity. Qed.

Example validateUserForm_age_nan :
  exists data,
    validateUserForm
      (VObject (<["username" := VString (js "alice")]>
                (<["email" := VString (js "alice@example.com")]>
                 (<["age" := VNumber nan]> ∅))))
    = Valid data.
Proof. eexists. vm_compute. reflexivity. Qed.

Example temperature_25_celsius :
  Classes.get_fahrenheit (snd (Classes.set_celsius 25 Classes.new_Temperature))
  = 77%float.
Proof. reflexivity. Qed.

Example container_count_after_two :
  Generics.result_after Generics.container_call
    [Generics.NewContainer (VNumber 42); Generics.NewContainer (VString (js "hello"))]
    Generics.GetCount Generics.Container_init
  = Some 2%float.
Proof. reflexivity. Qed.

Example numbers_getAll :
  snd (Generics.getAll (fst Generics.numbers) (snd Generics.numbers))
    !! fst (Generics.getAll (fst Generics.numbers) (snd Generics.numbers))
  = Some [VNumber 1; VNumber 2; VNumber 3].
Proof. vm_compute. reflexivity. Qed.

Example numbers_filter :
  exists result h',
    Generics.filter (Generics.pure (fun v => match v with
                                             | VNumber n => (1 <? n)%float
                                             | _ => false
                                             end))
      (fst Generics.numbers) (snd Generics.numbers)
    = (Return result, h')
    /\ h' !! Generics.items result = Some [VNumber 2; VNumber 3].
Proof. eexists _, _. split; vm_compute; reflexivity. Qed.

(** A callback that adds to the receiver: the loop still visits two
    elements, the length being read once, and the receiver has grown. *)
Example map_while_adding :
  exists result h',
    Generics.map (adding (fst one_two)) (fst one_two) (snd one_two)
    = (Return result, h')
    /\ h' !! Generics.items result = Some [VNumber 1; VNumber 2]
    /\ h' !! Generics.items (fst one_two)
       = Some [VNumber 1; VNumber 2; VNumber 1; VNumber 2].
Proof. eexists _, _. repeat split; vm_compute; reflexivity. Qed.

(** The proviso of the [Bird] shape matters: an object that has [fly],
    [layEggs] and also a [swim] member is answered [true]. *)
Example isFish_bird_that_swims :
  CustomTypes.isFish
    (VObject (<["fly" := VFunction 0]>
              (<["layEggs" := VFunction 1]> (<["swim" := VFunction 2]> ∅))))
  = true.
Proof. vm_compute. reflexivity. Qed.

(** *** The API client *)

Section ApiClientFacts.

Context {World T Init : Type} (env : ApiClient.Env World T Init).

(** The three ways [fromResponse] can go. *)
Lemma fromResponse_cases (response : ApiClient.Response T) :
  (exists t, ApiClient.json response = Throw t
             /\ ApiClient.fromResponse env response
                = Return (ApiClient.error_of_payload env response
                            ApiClient.empty_payload))
  \/ (exists body payload,
        ApiClient.json response = Return body
        /\ ApiClient.as_payload env body = Return payload
        /\ ApiClient.fromResponse env response
           = Return (ApiClient.error_of_payload env response payload))
  \/ (exists body t,
        ApiClient.json response = Return body
        /\ ApiClient.as_payload env body = Throw t
        /\ ApiClient.fromResponse env response = Throw t).
Proof.
  unfold ApiClient.fromResponse.
  destruct (ApiClient.json response) as [body | t]; [| left; eauto].
  destruct (ApiClient.as_payload env body) as [payload | t] eqn:Hp.
  - right. left. now exists body, payload.
  - right. right. now exists body, t.
Qed.

Lemma fromResponse_is_ApiError (response : ApiClient.Response T) (e : ErrorObj) :
  ApiClient.fromResponse env response = Return e ->
  instanceof_ApiError (ThrownError e) = true
  /\ ApiClient.status_of (ThrownError e) = ApiClient.status response.
Proof.
  destruct (fromResponse_cases response)
    as [(t & _ & ->) | [(body & payload & _ & _ & ->) | (body & t & _ & _ & ->)]];
    intros H; inversion H; subst; split; reflexivity.
Qed.

(** What the [catch] block of [apiRequest] throws for the value caught. *)
Lemma apiRequest_fetch_throws url options w t w1 :
  ApiClient.fetch env url options w = (Throw t, w1) ->
  ApiClient.apiRequest env url options w
  = (if instanceof_ApiError t
     then Throw t
     else Throw (ThrownError
                   (new_ApiError 0 "CLIENT_ERROR"
                                 (ApiClient.message_or_unknown t) VUndefined)),
     w1).
Proof.
  intros Hfetch. unfold ApiClient.apiRequest, ApiClient.apiRequest_try.
  rewrite Hfetch. now destruct (instanceof_ApiError t).
Qed.

Lemma apiRequest_not_ok url options w response w1 :
  ApiClient.fetch env url options w = (Return response, w1) ->
  ApiClient.ok response = false ->
  ApiClient.apiRequest env url options w
  = (match ApiClient.fromResponse env response with
     | Return e => Throw (ThrownError e)
     | Throw t =>
         if instanceof_ApiError t
         then Throw t
         else Throw (ThrownError
                       (new_ApiError 0 "CLIENT_ERROR"
                                     (ApiClient.message_or_unknown t) VUndefined))
     end, w1).
Proof.
  intros Hfetch Hok. unfold ApiClient.apiRequest, ApiClient.apiRequest_try.
  rewrite Hfetch, Hok. simpl.
  destruct (ApiClient.fromResponse env response) as [e | t] eqn:Hfrom.
  - now rewrite (proj1 (fromResponse_is_ApiError response e Hfrom)).
  - now destruct (instanceof_ApiError t).
Qed.

Lemma apiRequest_ok url options w response w1 :
  ApiClient.fetch env url options w = (Return response, w1) ->
  ApiClient.ok response = true ->
  ApiClient.apiRequest env url options w
  = (match ApiClient.json response with
     | Return value => Return value
     | Throw t =>
         if instanceof_ApiError t
         then Throw t
         else Throw (ThrownError
                       (new_ApiError 0 "CLIENT_ERROR"
                                     (ApiClient.message_or_unknown t) VUndefined))
     end, w1).
Proof.
  intros Hfetch Hok. unfold ApiClient.apiRequest, ApiClient.apiRequest_try.
  rewrite Hfetch, Hok. simpl.
  destruct (ApiClient.json response) as [value | t]; [reflexivity |].
  now destruct (instanceof_ApiError t).
Qed.

Lemma apiRequest_throws_ApiError url options w error :
  fst (ApiClient.apiRequest env url options w) = Throw error ->
  instanceof_ApiError error = true.
Proof.
  destruct (ApiClient.fetch env url options w) as [[response | t] w1] eqn:Hfetch.
  - destruct (ApiClient.ok response) eqn:Hok.
    + rewrite (apiRequest_ok _ _ _ _ _ Hfetch Hok). simpl.
      destruct (ApiClient.json response) as [value | t]; [discriminate |].
      destruct (instanceof_ApiError t) eqn:Ht; intros H; inversion H; subst;
        [exact Ht | reflexivity].
    + rewrite (apiRequest_not_ok _ _ _ _ _ Hfetch Hok). simpl.
      destruct (ApiClient.fromResponse env response) as [e | t] eqn:Hfrom.
      * intros H. inversion H; subst.
        exact (proj1 (fromResponse_is_ApiError response e Hfrom)).
      * destruct (instanceof_ApiError t) eqn:Ht; intros H; inversion H; subst;
          [exact Ht | reflexivity].
  - rewrite (apiRequest_fetch_throws _ _ _ _ _ Hfetch). simpl.
    destruct (instanceof_ApiError t) eqn:Ht; intros H; inversion H; subst;
      [exact Ht | reflexivity].
Qed.

(** X1.  Whatever goes wrong, [apiRequest] throws an [ApiError] and nothing
    else.  A [fetch] that throws a value that is not an [ApiError] gives the
    status 0 and the code "CLIENT_ERROR".  A response that is not [ok]
    gives the [ApiError] [fromResponse] builds, with the status of the
    response, when [fromResponse] returns; when it throws, which it does on
    a body that is [null], the [TypeError] is caught and becomes an
    [ApiError] with status 0, code "CLIENT_ERROR" and the message of the
    [TypeError], so the status of the response is lost.  [apiRequest]
    returns a value exactly when [fetch] returned an [ok] response whose
    [json()] returned that value. *)
Theorem apiRequest_only_throws_ApiError
    (url : string) (options : option Init) (w : World) :
  (forall error,
     fst (ApiClient.apiRequest env url options w) = Throw error ->
     instanceof_ApiError error = true)
  /\ (forall t w1,
        ApiClient.fetch env url options w = (Throw t, w1) ->
        instanceof_ApiError t = false ->
        ApiClient.apiRequest env url options w
        = (Throw (ThrownError
                    (new_ApiError 0 "CLIENT_ERROR"
                                  (ApiClient.message_or_unknown t) VUndefined)),
           w1))
  /\ (forall response w1 e,
        ApiClient.fetch env url options w = (Return response, w1) ->
        ApiClient.ok response = false ->
        ApiClient.fromResponse env response = Return e ->
        ApiClient.apiRequest env url options w = (Throw (ThrownError e), w1)
        /\ ApiClient.status_of (ThrownError e) = ApiClient.status response)
  /\ (forall response w1 body e,
        ApiClient.fetch env url options w = (Return response, w1) ->
        ApiClient.ok response = false ->
        ApiClient.json response = Return body ->
        ApiClient.as_payload env body = Throw (ThrownError e) ->
        err_class e = CTypeError ->
        ApiClient.apiRequest env url options w
        = (Throw (ThrownError
                    (new_ApiError 0 "CLIENT_ERROR" (err_message e) VUndefined)),
           w1))
  /\ (forall value,
        fst (ApiClient.apiRequest env url options w) = Return value
        <-> exists response w1,
              ApiClient.fetch env url options w = (Return response, w1)
              /\ ApiClient.ok response = true
              /\ ApiClient.json response = Return value).
Proof.
  split; [| split; [| split; [| split]]].
  - apply apiRequest_throws_ApiError.
  - intros t w1 Hfetch Ht.
    rewrite (apiRequest_fetch_throws _ _ _ _ _ Hfetch), Ht. reflexivity.
  - intros response w1 e Hfetch Hok Hfrom.
    rewrite (apiRequest_not_ok _ _ _ _ _ Hfetch Hok), Hfrom.
    split; [reflexivity |]. exact (proj2 (fromResponse_is_ApiError response e Hfrom)).
  - intros response w1 body e Hfetch Hok Hjson Hpayload Hclass.
    rewrite (apiRequest_not_ok _ _ _ _ _ Hfetch Hok).
    unfold ApiClient.fromResponse. rewrite Hjson, Hpayload.
    destruct e as [class message]. simpl in Hclass. subst class. reflexivity.
  - intros value. split.
    + destruct (ApiClient.fetch env url options w) as [[response | t] w1] eqn:Hfetch.
      * destruct (ApiClient.ok response) eqn:Hok.
        -- rewrite (apiRequest_ok _ _ _ _ _ Hfetch Hok). simpl.
           destruct (ApiClient.json response) as [v | t] eqn:Hjson.
           ++ intros H. inversion H; subst. now exists response, w1.
           ++ now destruct (instanceof_ApiError t).
        -- rewrite (apiRequest_not_ok _ _ _ _ _ Hfetch Hok). simpl.
           destruct (ApiClient.fromResponse env response) as [e | t];
             [discriminate |].
           now destruct (instanceof_ApiError t).
      * rewrite (apiRequest_fetch_throws _ _ _ _ _ Hfetch). simpl.
        now destruct (instanceof_ApiError t).
    + intros (response & w1 & Hfetch & Hok & Hjson).
      rewrite (apiRequest_ok _ _ _ _ _ Hfetch Hok), Hjson. reflexivity.
Qed.

(** X2.  [fetchUserProfile] passes on what [apiRequest] did, value or
    error, and leaves the world as [apiRequest] left it; it prints nothing
    on success and exactly one line on failure, and that line is never the
    "Unexpected error:" one, since [apiRequest] only throws [ApiError]s. *)
Theorem fetchUserProfile_is_transparent (userId : string) (w : World) :
  fst (ApiClient.fetchUserProfile env userId w)
  = ApiClient.apiRequest env ("/api/users/" ++ userId) None w
  /\ (forall value,
        fst (ApiClient.apiRequest env ("/api/users/" ++ userId) None w)
        = Return value ->
        snd (ApiClient.fetchUserProfile env userId w) = [])
  /\ (forall error,
        fst (ApiClient.apiRequest env ("/api/users/" ++ userId) None w)
        = Throw error ->
        exists line,
          snd (ApiClient.fetchUserProfile env userId w) = [line]
          /\ line <> [ApiClient.LText "Unexpected error:"; ApiClient.LThrown error]
          /\ ((ApiClient.status_of error =? 404)%float = true ->
              line = [ApiClient.LText ("User " ++ userId ++ " not found")])).
Proof.
  unfold ApiClient.fetchUserProfile.
  pose proof (apiRequest_throws_ApiError ("/api/users/" ++ userId) None w) as Honly.
  destruct (ApiClient.apiRequest env ("/api/users/" ++ userId) None w)
    as [[value | error] w1]; simpl in *.
  - split; [reflexivity |]. split; [reflexivity | discriminate].
  - split; [reflexivity |]. split; [discriminate |].
    intros error' H. inversion H; subst error'.
    eexists. split; [reflexivity |].
    unfold ApiClient.profile_error_line. rewrite (Honly error eq_refl).
    split.
    + destruct (ApiClient.status_of error =? 404)%float; [discriminate |].
      destruct (ApiClient.status_of error =? 403)%float; discriminate.
    + intros H404. now rewrite H404.
Qed.

End ApiClientFacts.
(** *** Retrying the API client *)

Section RetryFacts.

Context {World T : Type} (rt : Runtime World)
        (fn : World -> Completion T * World) (options : World -> RetryOptions).

(** A thunk that fails with a server error whatever the world is called on
    every iteration the bound allows, each call is followed by a pause, and
    the error of the last call is thrown after the last pause. *)
Lemma run_always_failing (n : nat) :
  (forall w0, exists e w1, fn w0 = (Throw e, w1) /\ server_error e) ->
  (forall i w0, i < n -> in_bounds (options w0) i = true) ->
  (forall w0, in_bounds (options w0) n = false) ->
  forall d attempt lastError w,
    attempt + d = n ->
    exists outcome w' events,
      RetryRun rt fn options attempt lastError w outcome w' events
      /\ calls events = d
      /\ pauses events = d
      /\ (d = 0 -> events = [] /\ outcome = Throw lastError)
      /\ (0 < d ->
          exists pre e line ms,
            events = (pre ++ [EvCall (n - 1) (Some e); EvLog line; EvSleep ms])%list
            /\ fst (fn (world_after rt fn pre w)) = Throw e
            /\ server_error e
            /\ outcome = Throw e).
Proof.
  intros Hfn Hin Hout. induction d as [| d IH]; intros attempt lastError w Hd.
  - rewrite Nat.add_0_r in Hd. subst attempt.
    eexists _, _, _. split; [apply RunExhausted, Hout |].
    repeat split; try reflexivity. intros H. lia.
  - destruct (Hfn w) as (e & w1 & Hcall & Hserver).
    destruct (IH (S attempt) e
                 (sleep rt (retryDelay rt (options w1) attempt) w1))
      as (outcome & w2 & events & Hrun & Hcalls & Hpauses & Hzero & Hpos);
      [lia |].
    eexists _, _, _. split.
    { eapply RunRetried; [apply Hin; lia | exact Hcall | | exact Hrun].
      now apply retryable_iff. }
    cbn [calls pauses]. rewrite Hcalls, Hpauses.
    split; [reflexivity |]. split; [reflexivity |]. split; [discriminate |].
    intros _. destruct d as [| d].
    + destruct (Hzero eq_refl) as [-> ->].
      exists [], e. eexists _, _. replace (n - 1) with attempt by lia.
      split; [reflexivity |]. simpl. rewrite Hcall. now split.
    + destruct (Hpos ltac:(lia)) as (pre & e' & line & ms & -> & Hfn' & Hs' & Ho').
      exists (EvCall attempt (Some e)
                :: EvLog (retry_line rt (options w1) attempt)
                :: EvSleep (retryDelay rt (options w1) attempt) :: pre), e', line, ms.
      split; [reflexivity |]. simpl. rewrite Hcall. simpl. now split.
Qed.

(** X3.  When [fn] fails with an [ApiError] of status at least 500
    whatever the world and the loop test [i < options.maxRetries] holds for
    the attempts below [n] and fails at [n], [withRetry] ends, having
    invoked [fn] exactly [n] times and paused exactly [n] times: it pauses
    after the last failed attempt too, and only then throws the error of
    that attempt.  With [n] equal to 0, [fn] is never called and [undefined]
    is thrown. *)
Theorem withRetry_pauses_after_each_retryable_failure (n : nat) (w : World) :
  (forall w0, exists e w1, fn w0 = (Throw e, w1) /\ server_error e) ->
  (forall i w0, i < n -> in_bounds (options w0) i = true) ->
  (forall w0, in_bounds (options w0) n = false) ->
  exists outcome w' events,
    withRetry (S n) rt fn options w = Some (outcome, w', events)
    /\ withRetry (S n) (counting_runtime rt) (counted fn)
                 (counting_options options) (0, w)
       = Some (outcome, (n, w'), events)
    /\ calls events = n
    /\ pauses events = n
    /\ (n = 0 -> events = [] /\ outcome = Throw (ThrownValue VUndefined))
    /\ (0 < n ->
        exists pre e line ms,
          events = (pre ++ [EvCall (n - 1) (Some e); EvLog line; EvSleep ms])%list
          /\ fst (fn (world_after rt fn pre w)) = Throw e
          /\ server_error e
          /\ outcome = Throw e).
Proof.
  intros Hfn Hin Hout.
  destruct (run_always_failing n Hfn Hin Hout n 0 (ThrownValue VUndefined) w eq_refl)
    as (outcome & w' & events & Hrun & Hcalls & Hpauses & Hzero & Hpos).
  exists outcome, w', events.
  assert (Hloop : withRetry (S n) rt fn options w = Some (outcome, w', events)).
  { unfold withRetry. apply (run_withRetry_loop rt fn options _ _ _ _ _ _ Hrun). lia. }
  split; [exact Hloop |]. split.
  { unfold withRetry in *. rewrite withRetry_loop_counted, Hloop, Hcalls.
    reflexivity. }
  split; [exact Hcalls |]. split; [exact Hpauses |].
  split; [exact Hzero | exact Hpos].
Qed.

End RetryFacts.

(** A thunk that always fails with a 503, under the default options: three
    calls, three pauses. *)
Lemma withRetry_pauses_after_each_retryable_failure_witness :
  exists outcome w' events,
    withRetry 4 example_runtime always_unavailable (fixed default_options) 0
    = Some (outcome, w', events)
    /\ withRetry 4 (counting_runtime example_runtime) (counted always_unavailable)
                 (counting_options (fixed default_options)) (0, 0)
       = Some (outcome, (3, w'), events)
    /\ calls events = 3
    /\ pauses events = 3
    /\ (3 = 0 -> events = [] /\ outcome = Throw (ThrownValue VUndefined))
    /\ (0 < 3 ->
        exists pre e line ms,
          events = (pre ++ [EvCall (3 - 1) (Some e); EvLog line; EvSleep ms])%list
          /\ fst (always_unavailable
                    (world_after example_runtime always_unavailable pre 0))
             = Throw e
          /\ server_error e
          /\ outcome = Throw e).
Proof.
  apply (withRetry_pauses_after_each_retryable_failure
           example_runtime always_unavailable (fixed default_options) 3 0).
  - intros w0. exists unavailable, (S w0). split; [reflexivity |].
    eexists _, _, _, _. repeat split; reflexivity.
  - intros i w0 Hi. destruct i as [| [| [| i]]]; [reflexivity .. | lia].
  - intros w0. reflexivity.
Defined.

Section RetryApi.

Context {World T Init : Type} (rt : Runtime World)
        (env : ApiClient.Env World T Init).

Lemma user_request_not_ok url w response w1 e :
  ApiClient.fetch env url None w = (Return response, w1) ->
  ApiClient.ok response = false ->
  ApiClient.fromResponse env response = Return e ->
  user_request env url w = (Throw (ThrownError e), w1)
  /\ retryable (ThrownError e) = (500 <=? ApiClient.status response)%float.
Proof.
  intros Hfetch Hok Hfrom. unfold user_request.
  rewrite (apiRequest_not_ok env _ _ _ _ _ Hfetch Hok), Hfrom.
  split; [reflexivity |].
  destruct (fromResponse_cases env response)
    as [(t & _ & E) | [(body & payload & _ & _ & E) | (body & t & _ & _ & E)]];
    rewrite E in Hfrom; inversion Hfrom; subst; reflexivity.
Qed.

Lemma three_attempts (i : nat) (w : World) :
  in_bounds (@fixed World (mkRetryOptions 3 500 1.5) w) i
  = match i with 0 | 1 | 2 => true | _ => in_bounds (mkRetryOptions 3 500 1.5) i end.
Proof. destruct i as [| [| [| i]]]; reflexivity. Qed.

(** X4.  [fetchUserWithRetry] over the file's own [apiRequest]: a network
    failure (a [fetch] that throws something that is not an [ApiError]) is
    not retried, since it becomes an [ApiError] of status 0; a response that
    is not [ok] with a status below 500 is not retried either; nor is a
    response that is not [ok] whose body is [null], whatever its status,
    since the [TypeError] of reading the body becomes an [ApiError] of
    status 0; and while every response is not [ok] with a status of at least
    500 and a body that can be read, exactly three requests are made, each
    followed by a pause, before the [ApiError] of the last response is
    thrown. *)
Theorem fetchUserWithRetry_retries_server_errors_only
    (userId : string) (w : World) :
  (forall fuel t w1,
     ApiClient.fetch env ("/api/users/" ++ userId) None w = (Throw t, w1) ->
     instanceof_ApiError t = false ->
     fetchUserWithRetry (S fuel) rt (user_request env) userId w
     = Some (Throw (ThrownError
                      (new_ApiError 0 "CLIENT_ERROR"
                                    (ApiClient.message_or_unknown t) VUndefined)),
             w1,
             [EvCall 0 (Some (ThrownError
                                (new_ApiError 0 "CLIENT_ERROR"
                                   (ApiClient.message_or_unknown t) VUndefined)))]))
  /\ (forall fuel response w1 e,
     ApiClient.fetch env ("/api/users/" ++ userId) None w = (Return response, w1) ->
     ApiClient.ok response = false ->
     ApiClient.fromResponse env response = Return e ->
     (500 <=? ApiClient.status response)%float = false ->
     fetchUserWithRetry (S fuel) rt (user_request env) userId w
     = Some (Throw (ThrownError e), w1, [EvCall 0 (Some (ThrownError e))]))
  /\ (forall fuel response w1 body t,
     ApiClient.fetch env ("/api/users/" ++ userId) None w = (Return response, w1) ->
     ApiClient.ok response = false ->
     ApiClient.json response = Return body ->
     ApiClient.as_payload env body = Throw t ->
     instanceof_ApiError t = false ->
     fetchUserWithRetry (S fuel) rt (user_request env) userId w
     = Some (Throw (ThrownError
                      (new_ApiError 0 "CLIENT_ERROR"
                                    (ApiClient.message_or_unknown t) VUndefined)),
             w1,
             [EvCall 0 (Some (ThrownError
                                (new_ApiError 0 "CLIENT_ERROR"
                                   (ApiClient.message_or_unknown t) VUndefined)))]))
  /\ ((forall w0, exists response w1 e,
         ApiClient.fetch env ("/api/users/" ++ userId) None w0 = (Return response, w1)
         /\ ApiClient.ok response = false
         /\ ApiClient.fromResponse env response = Return e
         /\ (500 <=? ApiClient.status response)%float = true) ->
      exists error w' events,
        fetchUserWithRetry 4 rt (user_request env) userId w
        = Some (Throw error, w', events)
        /\ calls events = 3
        /\ pauses events = 3
        /\ server_error error
        /\ exists pre line ms,
             events = (pre ++ [EvCall 2 (Some error); EvLog line; EvSleep ms])%list
             /\ fst (user_request env ("/api/users/" ++ userId)
                       (world_after rt
                          (user_request env ("/api/users/" ++ userId)) pre w))
                = Throw error).
Proof.
  split; [| split; [| split]].
  - intros fuel t w1 Hfetch Ht.
    unfold fetchUserWithRetry, fetchUserWithRetry_body, withRetry.
    cbn [withRetry_loop]. rewrite three_attempts. unfold user_request.
    rewrite (apiRequest_fetch_throws env _ _ _ _ _ Hfetch), Ht. reflexivity.
  - intros fuel response w1 e Hfetch Hok Hfrom Hstatus.
    destruct (user_request_not_ok _ _ _ _ _ Hfetch Hok Hfrom) as [Hreq Hretry].
    unfold fetchUserWithRetry, fetchUserWithRetry_body, withRetry.
    cbn [withRetry_loop]. rewrite three_attempts, Hreq, Hretry, Hstatus.
    reflexivity.
  - intros fuel response w1 body t Hfetch Hok Hjson Hpayload Ht.
    unfold fetchUserWithRetry, fetchUserWithRetry_body, withRetry.
    cbn [withRetry_loop]. rewrite three_attempts. unfold user_request.
    rewrite (apiRequest_not_ok env _ _ _ _ _ Hfetch Hok).
    unfold ApiClient.fromResponse. rewrite Hjson, Hpayload, Ht. reflexivity.
  - intros Hserver.
    destruct (run_always_failing rt
                (fun w' => user_request env ("/api/users/" ++ userId) w')
                (fixed (mkRetryOptions 3 500 1.5)) 3)
      with (d := 3) (attempt := 0) (lastError := ThrownValue VUndefined) (w := w)
      as (outcome & w' & events & Hrun & Hcalls & Hpauses & _ & Hpos).
    + intros w0. destruct (Hserver w0) as (response & w1 & e & Hfetch & Hok & Hfrom & Hstatus).
      destruct (user_request_not_ok _ _ _ _ _ Hfetch Hok Hfrom) as [Hreq Hretry].
      exists (ThrownError e), w1. split; [exact Hreq |].
      apply retryable_iff. now rewrite Hretry.
    + intros i w0 Hi. rewrite three_attempts.
      destruct i as [| [| [| i]]]; [reflexivity .. | lia].
    + intros w0. reflexivity.
    + reflexivity.
    + destruct (Hpos ltac:(lia)) as (pre & e & line & ms & Hev & Hfn & Hs & ->).
      exists e, w', events. split.
      { unfold fetchUserWithRetry, fetchUserWithRetry_body, withRetry.
        apply (run_withRetry_loop rt _ _ _ _ _ _ _ _ Hrun). lia. }
      repeat split; try assumption. now exists pre, line, ms.
Qed.

End RetryApi.

(** With the network down, one request and no pause. *)
Example fetchUserWithRetry_offline :
  fetchUserWithRetry 4 example_runtime (user_request offline_env) "1" 0
  = Some (Throw (ThrownError
                   (new_ApiError 0 "CLIENT_ERROR" "Failed to fetch" VUndefined)),
          1,
          [EvCall 0 (Some (ThrownError
                             (new_ApiError 0 "CLIENT_ERROR" "Failed to fetch"
                                           VUndefined)))]).
Proof. reflexivity. Qed.

(** With a server that answers 503, three requests and the pauses
    [500], [750] and [1125]. *)
Example fetchUserWithRetry_503 :
  let e503 := ThrownError (new_ApiError 503 "UNKNOWN_ERROR" "HTTP error ?" VUndefined) in
  fetchUserWithRetry 4 example_runtime
    (user_request (failing_env 503 (VObject ∅))) "1" 0
  = Some (Throw e503, 3,
          [EvCall 0 (Some e503);
           EvLog (retry_line example_runtime (mkRetryOptions 3 500 1.5) 0);
           EvSleep 500;
           EvCall 1 (Some e503);
           EvLog (retry_line example_runtime (mkRetryOptions 3 500 1.5) 1);
           EvSleep 750;
           EvCall 2 (Some e503);
           EvLog (retry_line example_runtime (mkRetryOptions 3 500 1.5) 2);
           EvSleep 1125]).
Proof. vm_compute. reflexivity. Qed.

(** With a server that answers 404, one request. *)
Example fetchUserWithRetry_404 :
  exists outcome w' events,
    fetchUserWithRetry 4 example_runtime
      (user_request (failing_env 404 (VObject ∅))) "1" 0
    = Some (outcome, w', events)
    /\ calls events = 1.
Proof. eexists _, _, _. split; reflexivity. Qed.

(** With a server that answers 503 and the body [null], one request: the
    error thrown is a client error and is not retried. *)
Example fetchUserWithRetry_503_null_body :
  fetchUserWithRetry 4 example_runtime
    (user_request (failing_env 503 VNull)) "1" 0
  = Some (Throw (ThrownError
                   (new_ApiError 0 "CLIENT_ERROR"
                                 "Cannot read properties of null" VUndefined)),
          1,
          [EvCall 0 (Some (ThrownError
                             (new_ApiError 0 "CLIENT_ERROR"
                                "Cannot read properties of null" VUndefined)))]).
Proof. reflexivity. Qed.

(** *** The error boundary *)

(** X5.  [ErrorBoundary.run] returns the value of [fn] when [fn] returns
    (without calling the handler) and returns [null] when [fn] throws and
    the handler returns.  The handler receives the thrown error itself or,
    for a thrown value that is not an [Error], a new [Error] whose message
    is "Unknown error: " followed by the value as a string.  The error of
    [fn] never leaves [run], but [run] can throw: what it throws was thrown
    by the handler or by the conversion [String(error)] of a thrown value
    that is not an [Error], in which case the handler is not called.  With
    a handler and a conversion that never throw, [run] never throws. *)
Theorem run_contains_the_error {S T : Type}
    (String_ : JsValue -> Completion string)
    (errorHandler : ErrorObj -> S -> Completion unit * S)
    (fn : S -> Completion T * S) (s : S) :
  (forall value s1,
     fn s = (Return value, s1) ->
     ApiClient.run String_ errorHandler fn s = (Return (Some value), s1))
  /\ (forall error s1 e s2,
     fn s = (Throw error, s1) ->
     ApiClient.boundary_error String_ error = Return e ->
     errorHandler e s1 = (Return tt, s2) ->
     ApiClient.run String_ errorHandler fn s = (Return None, s2))
  /\ (forall v s1 t,
     fn s = (Throw (ThrownValue v), s1) ->
     String_ v = Throw t ->
     ApiClient.run String_ errorHandler fn s = (Throw t, s1))
  /\ (forall t,
     fst (ApiClient.run String_ errorHandler fn s) = Throw t ->
     exists error s1,
       fn s = (Throw error, s1)
       /\ ((exists e s2,
              ApiClient.boundary_error String_ error = Return e
              /\ errorHandler e s1 = (Throw t, s2))
           \/ (exists v, error = ThrownValue v /\ String_ v = Throw t)))
  /\ (forall e, ApiClient.boundary_error String_ (ThrownError e) = Return e)
  /\ (forall v text,
        String_ v = Return text ->
        ApiClient.boundary_error String_ (ThrownValue v)
        = Return (new_Error ("Unknown error: " ++ text)))
  /\ ((forall e s', exists s'', errorHandler e s' = (Return tt, s'')) ->
      (forall v, exists text, String_ v = Return text) ->
      exists result s', ApiClient.run String_ errorHandler fn s = (Return result, s')).
Proof.
  unfold ApiClient.run.
  split; [| split; [| split; [| split; [| split; [| split]]]]].
  - intros value s1 Hfn. now rewrite Hfn.
  - intros error s1 e s2 Hfn He Hh. now rewrite Hfn, He, Hh.
  - intros v s1 t Hfn Hv. rewrite Hfn. simpl. now rewrite Hv.
  - intros t. destruct (fn s) as [[value | error] s1]; [discriminate |].
    destruct (ApiClient.boundary_error String_ error) as [e | t'] eqn:He.
    + destruct (errorHandler e s1) as [[[] | t'] s2] eqn:Hh; [discriminate |].
      simpl. intros H. inversion H; subst.
      exists error, s1. split; [reflexivity |]. left. now exists e, s2.
    + simpl. intros H. inversion H; subst.
      exists error, s1. split; [reflexivity |]. right.
      destruct error as [e | v]; [discriminate |]. exists v. split; [reflexivity |].
      simpl in He. destruct (String_ v); [discriminate | now inversion He].
  - reflexivity.
  - intros v text Hv. simpl. now rewrite Hv.
  - intros Htotal Hstring. destruct (fn s) as [[value | error] s1]; [eauto |].
    assert (He : exists e, ApiClient.boundary_error String_ error = Return e).
    { destruct error as [e | v]; [now exists e |].
      destruct (Hstring v) as [text Hv]. simpl. rewrite Hv. eauto. }
    destruct He as [e He]. rewrite He.
    destruct (Htotal e s1) as [s2 Hh]. rewrite Hh. eauto.
Qed.

Section RunWithBoundary.

Context {World Init : Type} (env : ApiClient.Env World JsValue Init).

Lemma fetch_example_data_returns (s : World * list ApiClient.LogLine)
    response w1 v :
  ApiClient.fetch env "https://api.example.com/data" None (fst s)
  = (Return response, w1) ->
  ApiClient.ok response = true ->
  ApiClient.json response = Return v ->
  ApiClient.fetch_example_data env s = (Return v, (w1, snd s)).
Proof.
  intros Hfetch Hok Hjson.
  unfold ApiClient.fetch_example_data, ApiClient.fetchData, ApiClient.fetchData_try.
  rewrite Hfetch, Hok. simpl. rewrite Hjson. now rewrite app_nil_r.
Qed.

Lemma fetch_example_data_throws (s : World * list ApiClient.LogLine) error w1 :
  ApiClient.fetchData_try env "https://api.example.com/data" (fst s)
  = (Throw error, w1) ->
  ApiClient.fetch_example_data env s
  = (Throw error,
     (w1, (snd s ++ [if instanceof_Error error
                     then [ApiClient.LText "Failed to fetch data:";
                           ApiClient.LText (message_of error)]
                     else [ApiClient.LText "Unknown error:";
                           ApiClient.LThrown error]])%list)).
Proof.
  intros Htry. unfold ApiClient.fetch_example_data, ApiClient.fetchData.
  now rewrite Htry.
Qed.

(** X6.  [runWithBoundary] prints "Got result:" and the data exactly when
    the request succeeded with a body that is truthy; a body that parsed to
    a falsy value ([null], [0], the empty string, [false]) makes it print
    "Operation failed, using fallback" although no error occurred and the
    handler of the boundary was not called; and when [fetchData] throws,
    the line of [fetchData], the line of the boundary and the fallback line
    are printed, in this order.  It throws in one case only: [fetchData]
    threw a value that is not an [Error] and that [String] cannot convert;
    the line of [fetchData] is then the only one printed. *)
Theorem runWithBoundary_outcomes (s : World * list ApiClient.LogLine) :
  (forall t,
     fst (ApiClient.runWithBoundary env s) = Throw t
     <-> exists v w1,
           ApiClient.fetchData_try env "https://api.example.com/data" (fst s)
           = (Throw (ThrownValue v), w1)
           /\ ApiClient.String_ env v = Throw t)
  /\ (forall response w1 v,
     ApiClient.fetch env "https://api.example.com/data" None (fst s)
     = (Return response, w1) ->
     ApiClient.ok response = true ->
     ApiClient.json response = Return v ->
     ApiClient.runWithBoundary env s
     = (Return tt,
        (w1,
         (snd s ++ [if truthy v
                    then [ApiClient.LText "Got result:"; ApiClient.LValue v]
                    else [ApiClient.LText "Operation failed, using fallback"]])%list)))
  /\ (forall error w1 e,
     ApiClient.fetchData_try env "https://api.example.com/data" (fst s)
     = (Throw error, w1) ->
     ApiClient.boundary_error (ApiClient.String_ env) error = Return e ->
     ApiClient.runWithBoundary env s
     = (Return tt,
        (w1,
         (snd s
          ++ [if instanceof_Error error
              then [ApiClient.LText "Failed to fetch data:";
                    ApiClient.LText (message_of error)]
              else [ApiClient.LText "Unknown error:"; ApiClient.LThrown error];
              [ApiClient.LText "Error caught by boundary:";
               ApiClient.LText (err_message e)];
              [ApiClient.LText "Operation failed, using fallback"]])%list)))
  /\ (forall v w1 t,
     ApiClient.fetchData_try env "https://api.example.com/data" (fst s)
     = (Throw (ThrownValue v), w1) ->
     ApiClient.String_ env v = Throw t ->
     ApiClient.runWithBoundary env s
     = (Throw t,
        (w1,
         (snd s ++ [[ApiClient.LText "Unknown error:";
                     ApiClient.LThrown (ThrownValue v)]])%list))).
Proof.
  assert (Hthrows : forall v w1 t,
             ApiClient.fetchData_try env "https://api.example.com/data" (fst s)
             = (Throw (ThrownValue v), w1) ->
             ApiClient.String_ env v = Throw t ->
             ApiClient.runWithBoundary env s
             = (Throw t,
                (w1,
                 (snd s ++ [[ApiClient.LText "Unknown error:";
                             ApiClient.LThrown (ThrownValue v)]])%list))).
  { intros v w1 t Htry Hv.
    unfold ApiClient.runWithBoundary, ApiClient.run.
    rewrite (fetch_example_data_throws s _ w1 Htry).
    simpl. now rewrite Hv. }
  split; [| split; [| split]].
  - intros t. split.
    + unfold ApiClient.runWithBoundary, ApiClient.run,
        ApiClient.fetch_example_data, ApiClient.fetchData.
      destruct (ApiClient.fetchData_try env "https://api.example.com/data" (fst s))
        as [[value | error] w1]; simpl.
      * now destruct (truthy value).
      * destruct error as [e | v]; simpl; [discriminate |].
        destruct (ApiClient.String_ env v) as [text | t'] eqn:Hv; simpl;
          [discriminate |].
        intros H. inversion H; subst. now exists v, w1.
    + intros (v & w1 & Htry & Hv). now rewrite (Hthrows v w1 t Htry Hv).
  - intros response w1 v Hfetch Hok Hjson.
    unfold ApiClient.runWithBoundary, ApiClient.run.
    rewrite (fetch_example_data_returns s response w1 v Hfetch Hok Hjson).
    simpl. now destruct (truthy v).
  - intros error w1 e Htry He.
    unfold ApiClient.runWithBoundary, ApiClient.run.
    rewrite (fetch_example_data_throws s error w1 Htry), He.
    simpl. now rewrite <- !app_assoc.
  - exact Hthrows.
Qed.

End RunWithBoundary.

(** A server that answers [ok] with the body [0]: the fallback line, and
    no error line. *)
Example runWithBoundary_falsy_body :
  ApiClient.runWithBoundary (answering_env (VNumber 0)) (0, [])
  = (Return tt, (1, [[ApiClient.LText "Operation failed, using fallback"]])).
Proof. reflexivity. Qed.

Example runWithBoundary_offline :
  ApiClient.runWithBoundary offline_env (0, [])
  = (Return tt,
     (1, [[ApiClient.LText "Failed to fetch data:";
           ApiClient.LText "Failed to fetch"];
          [ApiClient.LText "Error caught by boundary:";
           ApiClient.LText "Failed to fetch"];
          [ApiClient.LText "Operation failed, using fallback"]])).
Proof. reflexivity. Qed.

(** A [fetch] that throws an object without any property, such as
    [Object.create(null)]: [String] cannot convert it, and the [TypeError]
    of the conversion leaves [runWithBoundary]. *)
Example runWithBoundary_throws :
  ApiClient.runWithBoundary (throwing_env (VObject ∅)) (0, [])
  = (Throw (ThrownError (mkErrorObj CTypeError "Cannot convert to string")),
     (1, [[ApiClient.LText "Unknown error:";
           ApiClient.LThrown (ThrownValue (VObject ∅))]])).
Proof. reflexivity. Qed.

(** *** Results, options and lookups *)

Lemma findUser_cases (id' : string) :
  (id' = "1" /\ ErrorPatterns.findUser id'
                = Some (ErrorPatterns.mkUser "1" "Alice" "alice@example.com"))
  \/ (id' = "2" /\ ErrorPatterns.findUser id'
                   = Some (ErrorPatterns.mkUser "2" "Bob" "bob@example.com"))
  \/ (id' <> "1" /\ id' <> "2" /\ ErrorPatterns.findUser id' = None).
Proof.
  unfold ErrorPatterns.findUser, ErrorPatterns.users.
  cbn [List.find ErrorPatterns.id].
  destruct (String.eqb_spec "1" id') as [<- | H1]; [now left |].
  destruct (String.eqb_spec "2" id') as [<- | H2]; [right; now left |].
  right. right. split; [congruence |]. split; [congruence | reflexivity].
Qed.

(** X7.  [findUser] answers a user exactly for the ids "1" and "2", and the
    user it answers has the id asked for; [findUserOption] is [some] of that
    user exactly when [findUser] is not [null]; [getUserEmail] is the email
    of that user, and [null] exactly when [findUser] is [null]. *)
Theorem findUser_finds_by_id (id' : string) :
  (forall u, ErrorPatterns.findUser id' = Some u ->
             ErrorPatterns.id u = id' /\ In u ErrorPatterns.users)
  /\ (ErrorPatterns.findUser id' = None <-> id' <> "1" /\ id' <> "2")
  /\ ErrorPatterns.findUserOption id'
     = match ErrorPatterns.findUser id' with
       | Some u => ErrorPatterns.some u
       | None => ErrorPatterns.none
       end
  /\ ErrorPatterns.getUserEmail id'
     = match ErrorPatterns.findUser id' with
       | Some u => Some (ErrorPatterns.email u)
       | None => None
       end
  /\ (ErrorPatterns.getUserEmail id' = None <-> ErrorPatterns.findUser id' = None).
Proof.
  split; [| split; [| split; [| split]]].
  - intros u Hu.
    destruct (findUser_cases id') as [[-> H] | [[-> H] | (_ & _ & H)]];
      rewrite H in Hu; inversion Hu; subst; simpl; auto.
  - destruct (findUser_cases id') as [[-> H] | [[-> H] | (H1 & H2 & H)]];
      rewrite H.
    + split; [discriminate | intros [E1 E2]; congruence].
    + split; [discriminate | intros [E1 E2]; congruence].
    + split; [now intros _ | reflexivity].
  - unfold ErrorPatterns.findUserOption, ErrorPatterns.findUser.
    now destruct (find _ ErrorPatterns.users).
  - reflexivity.
  - unfold ErrorPatterns.getUserEmail.
    destruct (ErrorPatterns.findUser id'); split; congruence.
Qed.

(** X8.  [map] on [Option] keeps the identity and composes, [match] after
    [map] is [match] with the function applied first, and the file's own
    chain, [match(map(findUserOption(id), user => user.name), ...)], gives
    "User: " and the name for a known id and "User not found" for any
    other. *)
Theorem option_map_composes :
  (forall (T : Type) (option : ErrorPatterns.Option T),
     ErrorPatterns.map option (fun value => value) = option)
  /\ (forall (T U V : Type) (option : ErrorPatterns.Option T)
             (f : T -> U) (g : U -> V),
     ErrorPatterns.map (ErrorPatterns.map option f) g
     = ErrorPatterns.map option (fun value => g (f value)))
  /\ (forall (T U V : Type) (option : ErrorPatterns.Option T) (f : T -> U)
             (pattern : ErrorPatterns.Pattern U V),
     ErrorPatterns.match_ (ErrorPatterns.map option f) pattern
     = ErrorPatterns.match_ option
         (ErrorPatterns.mkPattern
            (fun value => ErrorPatterns.on_some pattern (f value))
            (ErrorPatterns.on_none pattern)))
  /\ (forall id',
     ErrorPatterns.match_
       (ErrorPatterns.map (ErrorPatterns.findUserOption id') ErrorPatterns.name)
       (ErrorPatterns.mkPattern (fun name => "User: " ++ name) "User not found")
     = if (id' =? "1") then "User: Alice"
       else if (id' =? "2") then "User: Bob"
       else "User not found").
Proof.
  split; [| split; [| split]].
  - intros T []; reflexivity.
  - intros T U V [] f g; reflexivity.
  - intros T U V [] f pattern; reflexivity.
  - intros id'. unfold ErrorPatterns.findUserOption, ErrorPatterns.users.
    cbn [List.find ErrorPatterns.id].
    rewrite (String.eqb_sym id' "1"), (String.eqb_sym id' "2").
    destruct ("1" =? id'); [reflexivity |].
    destruct ("2" =? id'); reflexivity.
Qed.

(** X9.  [fetchUser] fails exactly for the id "invalid", and then with the
    validation error on the field "id": its [catch] block, the only place
    that builds a network error, is never entered.  For every other id it
    succeeds with a user of that id.  So [displayUser] prints the "User:"
    line or the "Validation error (id):" line and never a network or a
    timeout line. *)
Theorem fetchUser_fails_only_on_invalid (id' : string) :
  ((exists e, ErrorPatterns.fetchUser id' = Failure e) <-> id' = "invalid")
  /\ (forall e, ErrorPatterns.fetchUser id' = Failure e ->
                e = ErrorPatterns.ValidationError2 "id" "Invalid user ID format")
  /\ (forall u, ErrorPatterns.fetchUser id' = Success u ->
                ErrorPatterns.id u = id'
                /\ ErrorPatterns.name u = "John Doe"
                /\ ErrorPatterns.email u = "john@example.com")
  /\ (forall number_to_string,
        ErrorPatterns.displayUser number_to_string id'
        = if id' =? "invalid"
          then [[AText "Validation error (id):"; AText "Invalid user ID format"]]
          else [[AText "User: John Doe (john@example.com)"]]).
Proof.
  unfold ErrorPatterns.displayUser, ErrorPatterns.fetchUser,
    ErrorPatterns.fetchUser_try.
  destruct (String.eqb_spec id' "invalid") as [-> | Hne]; simpl.
  - split; [| split; [| split]].
    + split; eauto.
    + intros e He. now inversion He.
    + discriminate.
    + reflexivity.
  - split; [| split; [| split]].
    + split; [intros [e He]; discriminate | contradiction].
    + discriminate.
    + intros u Hu. inversion Hu; subst. now simpl.
    + reflexivity.
Qed.

(** X10.  [assertNonEmpty] returns exactly on an array that has at least
    one element, and then returns that array; on [null], on [undefined] and
    on the empty array it throws an [Error] whose message is the given one
    followed by " (got empty or null array)". *)
Theorem assertNonEmpty_returns_iff_nonempty {T : Type}
    (value : ErrorPatterns.MaybeArray T) (message : string) :
  ((exists r, ErrorPatterns.assertNonEmpty value message = Return r)
   <-> exists x xs, value = ErrorPatterns.IsArray (x :: xs))
  /\ (forall r, ErrorPatterns.assertNonEmpty value message = Return r -> r = value)
  /\ ((value = ErrorPatterns.IsNull \/ value = ErrorPatterns.IsUndefined
       \/ value = ErrorPatterns.IsArray []) ->
      ErrorPatterns.assertNonEmpty value message
      = Throw (ThrownError
                 (new_Error (message ++ " (got empty or null array)")))).
Proof.
  unfold ErrorPatterns.assertNonEmpty.
  destruct value as [| | [| x xs]]; simpl.
  all: split; [| split].
  all: try (split; [intros [r Hr]; discriminate | intros (x' & xs' & H); discriminate]).
  all: try discriminate; try reflexivity.
  - split; eauto.
  - intros r Hr. now inversion Hr.
  - intros [H | [H | H]]; discriminate.
Qed.

(** *** The [Dictionary] class *)

Lemma dictionary_get_entries (key : string) (this : Dictionaries.Dictionary) :
  Dictionaries.get key this = Dictionaries.entries this !! key.
Proof.
  unfold Dictionaries.get, Dictionaries.member.
  destruct (Dictionaries.entries this !! key); [reflexivity |].
  destruct (Dictionaries.is_in key Dictionaries.method_names); [reflexivity |].
  destruct (Dictionaries.is_in key Dictionaries.object_prototype_methods);
    [reflexivity |].
  destruct (key =? "__proto__"); reflexivity.
Qed.

Lemma dictionary_member_own (key : string) (this : Dictionaries.Dictionary) :
  is_Some (Dictionaries.entries this !! key) ->
  typeof (Dictionaries.member this key) = "string".
Proof.
  intros [value Hv]. unfold Dictionaries.member. now rewrite Hv.
Qed.

Lemma dictionary_entry_count_size (this : Dictionaries.Dictionary) :
  Dictionaries.entry_count this = size (Dictionaries.entries this).
Proof.
  unfold Dictionaries.entry_count, Dictionaries.keys.
  rewrite (filter_ext_in _ (fun _ => true)).
  - rewrite filter_true, length_fmap. apply length_map_to_list.
  - intros key Hin. apply list_elem_of_In, list_elem_of_fmap in Hin
      as [[k v] [-> Hkv]].
    apply elem_of_map_to_list in Hkv. simpl.
    rewrite dictionary_member_own; [reflexivity | eauto].
Qed.

Lemma assign_member_entries (key : string) (value : JsString)
    (this : Dictionaries.Dictionary) :
  Dictionaries.entries (Dictionaries.assign_member key value this)
  = if key =? "__proto__" then Dictionaries.entries this
    else <[key := value]> (Dictionaries.entries this).
Proof. unfold Dictionaries.assign_member. now destruct (key =? "__proto__"). Qed.

Lemma assign_member_wf (key : string) (value : JsString)
    (this : Dictionaries.Dictionary) :
  dictionary_wf this -> dictionary_wf (Dictionaries.assign_member key value this).
Proof.
  unfold dictionary_wf. intros Hwf. rewrite assign_member_entries.
  destruct (String.eqb_spec key "__proto__") as [-> | Hne]; [exact Hwf |].
  now rewrite lookup_insert_ne.
Qed.

Lemma assign_all_entries (initial : gmap string JsString) :
  Dictionaries.entries
    (Dictionaries.assign_all initial (Dictionaries.mkDictionary ∅))
  = delete "__proto__" initial.
Proof.
  unfold Dictionaries.assign_all.
  apply (map_fold_weak_ind
           (fun (r : Dictionaries.Dictionary) (m : gmap string JsString) =>
              Dictionaries.entries r = delete "__proto__" m)).
  - simpl. now rewrite delete_empty.
  - intros key value m r Hfresh IH. rewrite assign_member_entries, IH.
    destruct (String.eqb_spec key "__proto__") as [-> | Hne].
    + now rewrite delete_insert_eq.
    + now rewrite delete_insert_ne.
Qed.

Lemma new_Dictionary_wf (initialEntries : option (gmap string JsString)) :
  dictionary_wf (Dictionaries.new_Dictionary initialEntries).
Proof.
  unfold dictionary_wf. destruct initialEntries as [initial |]; simpl.
  - rewrite assign_all_entries. apply lookup_delete_eq.
  - apply lookup_empty.
Qed.

(** A call of a method of the class goes through exactly when no entry
    has the name of the method. *)
Lemma call_method (this : Dictionaries.Dictionary) (name : string)
    {A : Type} (result : A) :
  In name ["add"; "get"; "getEntryCount"] ->
  Dictionaries.call this name result
  = match Dictionaries.entries this !! name with
    | Some _ => None
    | None => Some result
    end.
Proof.
  intros Hname.
  assert (Hin : Dictionaries.is_in name Dictionaries.method_names = true)
    by (destruct Hname as [<- | [<- | [<- | []]]]; reflexivity).
  unfold Dictionaries.call, Dictionaries.member.
  destruct (Dictionaries.entries this !! name); [reflexivity |].
  now rewrite Hin.
Qed.

(** X11.  On a dictionary none of whose entries is named like a method,
    the calls [dict.add(key, value)] and then [dict.get(key)] give back
    [value] when [key] is neither the name of a method nor "__proto__";
    [dict.get] of any other key gives what it gave before, as long as [key]
    is not "get"; [dict.getEntryCount()] then answers one more when the key
    is new and the same when it replaces an entry.  After
    [dict.add("get", value)] the call [dict.get(...)] throws a [TypeError],
    and after [dict.add("getEntryCount", value)] so does
    [dict.getEntryCount()].  The key "__proto__" stores nothing:
    [dict.get("__proto__")] is [undefined] afterwards.  A dictionary built
    from initial entries none of which is named like a method reads each of
    them back, "__proto__" excepted. *)
Theorem dictionary_add_then_get (this : Dictionaries.Dictionary)
    (key : string) (value : JsString) :
  dictionary_wf this ->
  methods_intact this ->
  (~ In key ["add"; "get"; "getEntryCount"; "__proto__"] ->
     add_then_get this key value key = Some (Some value)
     /\ methods_intact (Dictionaries.add key value this))
  /\ (forall key',
        key <> "get" -> key' <> key ->
        add_then_get this key value key'
        = Some (Dictionaries.entries this !! key'))
  /\ (forall key', add_then_get this "get" value key' = None)
  /\ add_then_count this "getEntryCount" value = None
  /\ (key <> "getEntryCount" -> key <> "__proto__" ->
      add_then_count this key value
      = Some (pretty (match Dictionaries.entries this !! key with
                      | Some _ => size (Dictionaries.entries this)
                      | None => S (size (Dictionaries.entries this))
                      end)))
  /\ add_then_get this "__proto__" value "__proto__" = Some None
  /\ add_then_count this "__proto__" value
     = Some (pretty (size (Dictionaries.entries this)))
  /\ (forall initial k,
        (forall name, In name ["add"; "get"; "getEntryCount"] ->
                      initial !! name = None) ->
        k <> "__proto__" ->
        Dictionaries.call (Dictionaries.new_Dictionary (Some initial)) "get"
          (Dictionaries.get k (Dictionaries.new_Dictionary (Some initial)))
        = Some (initial !! k))
  /\ dictionary_wf (Dictionaries.add key value this).
Proof.
  intros Hwf Hintact.
  assert (Hadd : forall k v, add_then_get this k v
                             = fun k' =>
                                 Dictionaries.call (Dictionaries.add k v this) "get"
                                   (Dictionaries.get k' (Dictionaries.add k v this))).
  { intros k v. unfold add_then_get.
    rewrite call_method by (now left). rewrite Hintact by (now left). reflexivity. }
  assert (Hcount : forall k v, add_then_count this k v
                               = Dictionaries.call (Dictionaries.add k v this)
                                   "getEntryCount"
                                   (Dictionaries.getEntryCount
                                      (Dictionaries.add k v this))).
  { intros k v. unfold add_then_count.
    rewrite call_method by (now left). rewrite Hintact by (now left). reflexivity. }
  unfold Dictionaries.add in *.
  split; [| split; [| split; [| split; [| split; [| split; [| split;
    [| split]]]]]]].
  - intros Hkey.
    assert (Hproto : key <> "__proto__") by (intros ->; apply Hkey; now do 3 right; left).
    assert (Hmethods : forall name, In name ["add"; "get"; "getEntryCount"] ->
                                    key <> name).
    { intros name Hname ->. apply Hkey.
      destruct Hname as [<- | [<- | [<- | []]]];
        [now left | now right; left | now do 2 right; left]. }
    assert (Hintact' : methods_intact (Dictionaries.assign_member key value this)).
    { intros name Hname. rewrite assign_member_entries.
      destruct (String.eqb_spec key "__proto__") as [E | _]; [contradiction |].
      rewrite lookup_insert_ne by (now apply Hmethods). now apply Hintact. }
    split; [| exact Hintact'].
    rewrite Hadd. rewrite call_method by (now right; left).
    rewrite Hintact' by (now right; left).
    rewrite dictionary_get_entries, assign_member_entries.
    destruct (String.eqb_spec key "__proto__") as [E | _]; [contradiction |].
    now rewrite lookup_insert_eq.
  - intros key' Hget Hne. rewrite Hadd.
    rewrite call_method by (now right; left).
    rewrite dictionary_get_entries, assign_member_entries.
    destruct (key =? "__proto__").
    + rewrite Hintact by (now right; left). reflexivity.
    + rewrite lookup_insert_ne by done. rewrite Hintact by (now right; left).
      now rewrite lookup_insert_ne.
  - intros key'. rewrite Hadd. rewrite call_method by (now right; left).
    rewrite assign_member_entries. simpl. now rewrite lookup_insert_eq.
  - rewrite Hcount. rewrite call_method by (now do 2 right; left).
    rewrite assign_member_entries. simpl. now rewrite lookup_insert_eq.
  - intros Hcountkey Hproto. rewrite Hcount.
    rewrite call_method by (now do 2 right; left).
    rewrite assign_member_entries.
    destruct (String.eqb_spec key "__proto__") as [E | _]; [contradiction |].
    rewrite lookup_insert_ne by done. rewrite Hintact by (now do 2 right; left).
    unfold Dictionaries.getEntryCount.
    rewrite dictionary_entry_count_size, assign_member_entries.
    destruct (String.eqb_spec key "__proto__") as [E | _]; [contradiction |].
    rewrite map_size_insert.
    now destruct (Dictionaries.entries this !! key).
  - rewrite Hadd. rewrite call_method by (now right; left).
    rewrite dictionary_get_entries, assign_member_entries. simpl.
    rewrite Hintact by (now right; left). now rewrite Hwf.
  - rewrite Hcount. rewrite call_method by (now do 2 right; left).
    rewrite assign_member_entries. simpl.
    rewrite Hintact by (now do 2 right; left).
    unfold Dictionaries.getEntryCount.
    now rewrite dictionary_entry_count_size, assign_member_entries.
  - intros initial k Hinitial Hk.
    rewrite call_method by (now right; left).
    rewrite dictionary_get_entries. simpl. rewrite assign_all_entries.
    rewrite lookup_delete_ne by discriminate.
    rewrite Hinitial by (now right; left).
    now rewrite lookup_delete_ne.
  - now apply assign_member_wf.
Qed.

(** The dictionary of the example reads "world" for "hello" once it has
    been added again. *)
Lemma dictionary_add_then_get_witness :
  add_then_get dict "hello" (js "world") "hello" = Some (Some (js "world")).
Proof.
  refine (proj1 (proj1 (dictionary_add_then_get dict "hello" (js "world") _ _) _)).
  - vm_compute. reflexivity.
  - intros name [<- | [<- | [<- | []]]]; vm_compute; reflexivity.
  - intros [H | [H | [H | [H | []]]]]; discriminate H.
Defined.

(** X12.  An entry named like a method hides the method: after
    [add("get", value)], [add("add", value)] or [add("getEntryCount",
    value)], a call of that method on the dictionary throws a [TypeError],
    and no later [add] brings the method back, since [add] only stores
    strings.  On a dictionary that has no entry named like a method, every
    method call goes through. *)
Theorem dictionary_entry_hides_method (this : Dictionaries.Dictionary)
    (name : string) (value : JsString) :
  In name ["add"; "get"; "getEntryCount"] ->
  (forall (A : Type) (result : A),
     Dictionaries.call (Dictionaries.add name value this) name result = None)
  /\ (forall (A : Type) (result : A) key value',
        Dictionaries.call this name result = None ->
        Dictionaries.call (Dictionaries.add key value' this) name result = None)
  /\ (forall (A : Type) (result : A),
        Dictionaries.entries this !! name = None ->
        Dictionaries.call this name result = Some result).
Proof.
  intros Hname.
  assert (Hmethod : Dictionaries.is_in name Dictionaries.method_names = true
                    /\ name <> "__proto__").
  { destruct Hname as [<- | [<- | [<- | []]]]; split; (reflexivity || discriminate). }
  destruct Hmethod as [Hin Hproto].
  assert (Hcall : forall (d : Dictionaries.Dictionary) (A : Type) (result : A),
             Dictionaries.call d name result
             = match Dictionaries.entries d !! name with
               | Some _ => None
               | None => Some result
               end).
  { intros d A result. unfold Dictionaries.call, Dictionaries.member.
    destruct (Dictionaries.entries d !! name); [reflexivity |].
    now rewrite Hin. }
  split; [| split].
  - intros A result. rewrite Hcall. unfold Dictionaries.add.
    rewrite assign_member_entries.
    destruct (String.eqb_spec name "__proto__") as [E | _]; [contradiction |].
    now rewrite lookup_insert_eq.
  - intros A result key value'. rewrite !Hcall. unfold Dictionaries.add.
    rewrite assign_member_entries.
    destruct (Dictionaries.entries this !! name) eqn:Hown; [| discriminate].
    intros _. destruct (key =? "__proto__"); [now rewrite Hown |].
    destruct (decide (key = name)) as [-> | Hne].
    + now rewrite lookup_insert_eq.
    + now rewrite lookup_insert_ne, Hown.
  - intros A result Hown. now rewrite Hcall, Hown.
Qed.

Lemma dictionary_entry_hides_method_witness :
  Dictionaries.call (Dictionaries.add "get" (js "x") dict) "get" tt = None.
Proof.
  refine (proj1 (dictionary_entry_hides_method dict "get" (js "x") _) unit tt).
  right. now left.
Defined.

(** *** [DataStore] and [UserRepository] *)

Lemma find_app_first {A : Type} (p : A -> bool) (xs ys : list A) :
  List.find p (xs ++ ys)
  = match List.find p xs with
    | Some x => Some x
    | None => List.find p ys
    end.
Proof.
  induction xs as [| x xs IH]; simpl; [reflexivity |].
  now destruct (p x).
Qed.

(** X13.  In a [DataStore] the first item added under an id is the one
    [getItem] answers: after [addItem(item)], [getItem(id)] is what it was
    if it found something, else [item] if the id of [item] is [id], else
    still [undefined].  What [getItem] finds is an item of the store whose
    id is the one asked for, and a new store finds nothing. *)
Theorem dataStore_first_item_wins {T : Type} (id_of : T -> Stores.Id)
    (this : Stores.DataStore T) (item : T) (id : Stores.Id) :
  Stores.getItem id_of id (Stores.addItem item this)
  = match Stores.getItem id_of id this with
    | Some found => Some found
    | None => if Stores.strict_equal (id_of item) id then Some item else None
    end
  /\ (forall found,
        Stores.getItem id_of id this = Some found ->
        Stores.strict_equal (id_of found) id = true
        /\ In found (Stores.items this))
  /\ (Stores.getItem id_of id this = None ->
      forall other, In other (Stores.items this) ->
                    Stores.strict_equal (id_of other) id = false)
  /\ Stores.getItem id_of id Stores.new_DataStore = None.
Proof.
  unfold Stores.getItem, Stores.addItem. simpl.
  split; [| split; [| split]].
  - rewrite find_app_first. simpl.
    now destruct (Stores.strict_equal (id_of item) id).
  - intros found Hfound. apply find_some in Hfound. tauto.
  - intros Hnone other Hin. exact (find_none _ _ Hnone other Hin).
  - reflexivity.
Qed.

Section Repository.

Implicit Types (this : Stores.UserRepository) (h : Stores.Heap)
               (xs : list Stores.User).

Lemma contents_of this h xs :
  h !! Stores.users this = Some xs -> Stores.contents this h = xs.
Proof. intros H. unfold Stores.contents. now rewrite H. Qed.

Lemma create_contents this h xs user :
  h !! Stores.users this = Some xs ->
  Stores.create user this h !! Stores.users this = Some (xs ++ [user])%list.
Proof.
  intros H. unfold Stores.create. now rewrite lookup_alter_eq, H.
Qed.

Lemma repository_fresh this h xs :
  h !! Stores.users this = Some xs -> fresh (dom h) <> Stores.users this.
Proof.
  intros H E. rewrite <- E in H.
  assert (Hnone : h !! fresh (dom h) = None) by apply not_elem_of_dom, is_fresh.
  congruence.
Qed.

Lemma findIndex_split (p : Stores.User -> bool) xs index :
  Stores.findIndex p xs = Some index ->
  exists before found after,
    xs = (before ++ found :: after)%list
    /\ List.length before = index
    /\ p found = true
    /\ forall x, In x before -> p x = false.
Proof.
  revert index. induction xs as [| x xs IH]; intros index; simpl; [discriminate |].
  destruct (p x) eqn:Hx.
  - intros H. inversion H; subst. exists [], x, xs. now repeat split.
  - destruct (Stores.findIndex p xs) as [i |]; [| discriminate].
    intros H. inversion H; subst.
    destruct (IH i eq_refl) as (before & found & after & -> & Hlen & Hp & Hbefore).
    exists (x :: before), found, after. repeat split; simpl; auto.
    intros y [<- | Hy]; auto.
Qed.

Lemma findIndex_none (p : Stores.User -> bool) xs :
  Stores.findIndex p xs = None <-> List.find p xs = None.
Proof.
  induction xs as [| x xs IH]; simpl; [tauto |].
  destruct (p x); [split; discriminate |].
  destruct (Stores.findIndex p xs); [| tauto].
  split; [discriminate |]. intros H. apply IH in H. discriminate.
Qed.

Lemma find_filter_other (id' id'' : string) xs :
  id'' <> id' ->
  List.find (fun user => Stores.id user =? id'')
            (List.filter (fun user => negb (Stores.id user =? id')) xs)
  = List.find (fun user => Stores.id user =? id'') xs.
Proof.
  intros Hne. induction xs as [| x xs IH]; simpl; [reflexivity |].
  destruct (String.eqb_spec (Stores.id x) id') as [E | E]; simpl.
  - destruct (String.eqb_spec (Stores.id x) id'') as [E' | _]; [congruence | exact IH].
  - destruct (Stores.id x =? id''); [reflexivity | exact IH].
Qed.

Lemma find_filter_same (id' : string) xs :
  List.find (fun user => Stores.id user =? id')
            (List.filter (fun user => negb (Stores.id user =? id')) xs)
  = None.
Proof.
  induction xs as [| x xs IH]; simpl; [reflexivity |].
  destruct (Stores.id x =? id') eqn:E; simpl; [exact IH |].
  now rewrite E.
Qed.

(** X14.  On a repository whose array holds [xs]: [create] appends, and
    [getById] still answers the first user created under an id; [delete]
    leaves exactly the users with another id, so [getById] of the deleted
    id is [undefined] and [getById] of every other id is unchanged;
    [update] of an id nobody has changes nothing (it does not create), and
    otherwise replaces the first user with that id, in place, and nothing
    else. *)
Theorem repository_operations this h xs (id' : string) (user : Stores.User) :
  h !! Stores.users this = Some xs ->
  (Stores.contents this (Stores.create user this h) = (xs ++ [user])%list
   /\ Stores.getById id' this (Stores.create user this h)
      = match Stores.getById id' this h with
        | Some found => Some found
        | None => if Stores.id user =? id' then Some user else None
        end)
  /\ (let this' := fst (Stores.delete id' this h) in
      let h' := snd (Stores.delete id' this h) in
      Stores.contents this' h'
      = List.filter (fun u => negb (Stores.id u =? id')) xs
      /\ Stores.getById id' this' h' = None
      /\ forall id'', id'' <> id' ->
           Stores.getById id'' this' h' = Stores.getById id'' this h)
  /\ (Stores.getById id' this h = None -> Stores.update id' user this h = h)
  /\ (forall found,
        Stores.getById id' this h = Some found ->
        exists before after,
          xs = (before ++ found :: after)%list
          /\ (forall x, In x before -> Stores.id x <> id')
          /\ Stores.contents this (Stores.update id' user this h)
             = (before ++ user :: after)%list).
Proof.
  intros Hxs. pose proof (contents_of this h xs Hxs) as Hc.
  split; [| split; [| split]].
  - unfold Stores.getById.
    rewrite (contents_of this _ _ (create_contents this h xs user Hxs)), Hc.
    split; [reflexivity |]. rewrite find_app_first. simpl.
    now destruct (Stores.id user =? id').
  - cbv zeta. unfold Stores.delete, Stores.getById, Stores.contents.
    cbn [fst snd Stores.users]. rewrite !lookup_insert_eq, Hxs. cbn [default].
    split; [reflexivity |]. split; [apply find_filter_same |].
    intros id'' Hne. now apply find_filter_other.
  - unfold Stores.getById, Stores.update. rewrite Hc. intros Hnone.
    apply findIndex_none in Hnone. now rewrite Hnone.
  - unfold Stores.getById, Stores.update. rewrite Hc. intros found Hfound.
    destruct (Stores.findIndex (fun u => Stores.id u =? id') xs) as [index |] eqn:Hi.
    + destruct (findIndex_split _ _ _ Hi)
        as (before & found' & after & -> & Hlen & Hp & Hbefore).
      rewrite find_app_first in Hfound.
      destruct (List.find (fun u => Stores.id u =? id') before) as [y |] eqn:Hy.
      { apply find_some in Hy as [Hin Hy]. rewrite (Hbefore y Hin) in Hy. discriminate. }
      simpl in Hfound. rewrite Hp in Hfound. inversion Hfound; subst found'.
      exists before, after. split; [reflexivity |]. split.
      * intros x Hx E. specialize (Hbefore x Hx). simpl in Hbefore.
        apply String.eqb_neq in Hbefore. contradiction.
      * unfold Stores.contents. rewrite lookup_alter_eq, Hxs. simpl.
        rewrite <- Hlen. rewrite insert_app_r_alt by lia.
        now rewrite Nat.sub_diag.
    + apply findIndex_none in Hi. congruence.
Qed.

Lemma repository_operations_witness :
  Stores.getById "1" (fst (Stores.delete "1" (fst two_users) (snd two_users)))
                 (snd (Stores.delete "1" (fst two_users) (snd two_users)))
  = None.
Proof.
  refine (proj1 (proj2 (proj1 (proj2
            (repository_operations (fst two_users) (snd two_users)
               [Stores.mkUser "1" "Alice"; Stores.mkUser "2" "Bob"]
               "1" (Stores.mkUser "3" "Carol") _))))).
  vm_compute. reflexivity.
Defined.

(** X15.  [UserRepository.getAll] hands out the repository's own array,
    not a copy: a user created afterwards shows up in the array obtained
    before, and a change made to that array changes the repository.
    [delete] makes the repository use a new array, so an array obtained
    before a [delete] still holds the deleted users and no longer follows
    the repository. *)
Theorem repository_getAll_is_the_array this h xs :
  h !! Stores.users this = Some xs ->
  let arr := Stores.getAll this h in
  (forall user, Stores.create user this h !! arr = Some (xs ++ [user])%list)
  /\ (forall f : list Stores.User -> list Stores.User,
        Stores.contents this (alter f arr h) = f xs)
  /\ (forall id' user,
        let this' := fst (Stores.delete id' this h) in
        let h' := snd (Stores.delete id' this h) in
        Stores.getAll this' h' <> arr
        /\ h' !! arr = Some xs
        /\ Stores.create user this' h' !! arr = Some xs
        /\ Stores.contents this' (Stores.create user this' h')
           = (List.filter (fun u => negb (Stores.id u =? id')) xs ++ [user])%list).
Proof.
  intros Hxs arr. unfold arr, Stores.getAll.
  pose proof (repository_fresh this h xs Hxs) as Hfresh.
  split; [| split].
  - intros user. now apply create_contents.
  - intros f. unfold Stores.contents. now rewrite lookup_alter_eq, Hxs.
  - intros id' user. cbv zeta. unfold Stores.delete, Stores.create, Stores.contents.
    cbn [fst snd Stores.users].
    split; [exact Hfresh |]. split; [| split].
    + now rewrite lookup_insert_ne.
    + rewrite lookup_alter_ne, lookup_insert_ne by done. exact Hxs.
    + rewrite lookup_alter_eq, lookup_insert_eq, Hxs. reflexivity.
Qed.

Lemma repository_getAll_is_the_array_witness :
  Stores.create (Stores.mkUser "3" "Carol") (fst two_users) (snd two_users)
    !! Stores.getAll (fst two_users) (snd two_users)
  = Some [Stores.mkUser "1" "Alice"; Stores.mkUser "2" "Bob";
          Stores.mkUser "3" "Carol"].
Proof.
  refine (proj1 (repository_getAll_is_the_array (fst two_users) (snd two_users)
                   [Stores.mkUser "1" "Alice"; Stores.mkUser "2" "Bob"] _)
                (Stores.mkUser "3" "Carol")).
  vm_compute. reflexivity.
Defined.

End Repository.

(** *** Chaining [Collection] operations *)

Lemma filter_filter_andb {A : Type} (p q : A -> bool) (xs : list A) :
  List.filter q (List.filter p xs) = List.filter (fun x => p x && q x) xs.
Proof.
  induction xs as [| x xs IH]; simpl; [reflexivity |].
  destruct (p x); simpl; [| exact IH].
  destruct (q x); [now rewrite IH | exact IH].
Qed.

Lemma add_contents (this : Generics.Collection) (h : Generics.Heap)
    (xs : list JsValue) (item : JsValue) :
  h !! Generics.items this = Some xs ->
  Generics.add this item h !! Generics.items this = Some (xs ++ [item])%list.
Proof.
  intros H. unfold Generics.add, Generics.mutate.
  now rewrite lookup_alter_eq, H.
Qed.

(** X16.  With callbacks that only compute (they change no array and do
    not throw), chained [Collection] calls behave like the list operations
    they are named after: [c.map(f).map(g)] holds the elements of [c]
    mapped by [g] after [f]; [c.filter(p).filter(q)] holds the elements
    that satisfy both; [c.filter(p).map(f)] holds the mapped elements that
    satisfy [p]; all in the original order and with [c] and the
    intermediate collection left as they were.  After [c.add(item)],
    [getAll] returns a copy that ends with [item]. *)
Theorem collection_operations_compose
    (this : Generics.Collection) (h : Generics.Heap) (xs : list JsValue) :
  h !! Generics.items this = Some xs ->
  (forall f g : JsValue -> JsValue,
     exists c1 h1 c2 h2,
       Generics.map (Generics.pure f) this h = (Return c1, h1)
       /\ Generics.map (Generics.pure g) c1 h1 = (Return c2, h2)
       /\ h2 !! Generics.items c2 = Some (List.map (fun x => g (f x)) xs)
       /\ h2 !! Generics.items c1 = Some (List.map f xs)
       /\ h2 !! Generics.items this = Some xs)
  /\ (forall p q : JsValue -> bool,
     exists c1 h1 c2 h2,
       Generics.filter (Generics.pure p) this h = (Return c1, h1)
       /\ Generics.filter (Generics.pure q) c1 h1 = (Return c2, h2)
       /\ h2 !! Generics.items c2 = Some (List.filter (fun x => p x && q x) xs)
       /\ h2 !! Generics.items c1 = Some (List.filter p xs)
       /\ h2 !! Generics.items this = Some xs)
  /\ (forall (p : JsValue -> bool) (f : JsValue -> JsValue),
     exists c1 h1 c2 h2,
       Generics.filter (Generics.pure p) this h = (Return c1, h1)
       /\ Generics.map (Generics.pure f) c1 h1 = (Return c2, h2)
       /\ h2 !! Generics.items c2 = Some (List.map f (List.filter p xs))
       /\ h2 !! Generics.items c1 = Some (List.filter p xs)
       /\ h2 !! Generics.items this = Some xs)
  /\ (forall item : JsValue,
     let h1 := Generics.add this item h in
     let arr := fst (Generics.getAll this h1) in
     let h2 := snd (Generics.getAll this h1) in
     h2 !! arr = Some (xs ++ [item])%list
     /\ arr <> Generics.items this).
Proof.
  intros Hthis. pose proof (fresh_differs h _ xs Hthis) as Hne.
  assert (Hchain : forall ys : list JsValue,
             let h1 := <[fresh (dom h) := ys]> h in
             h1 !! fresh (dom h) = Some ys
             /\ h1 !! Generics.items this = Some xs
             /\ fresh (dom h1) <> fresh (dom h)
             /\ fresh (dom h1) <> Generics.items this).
  { intros ys h1. subst h1.
    assert (H1 : <[fresh (dom h) := ys]> h !! fresh (dom h) = Some ys)
      by apply lookup_insert_eq.
    assert (H2 : <[fresh (dom h) := ys]> h !! Generics.items this = Some xs)
      by (rewrite lookup_insert_ne by done; exact Hthis).
    repeat split; try assumption.
    - exact (fresh_differs _ _ _ H1).
    - exact (fresh_differs _ _ _ H2). }
  split; [| split; [| split]].
  - intros f g.
    destruct (Hchain (List.map f xs)) as (H1 & H2 & Hn1 & Hn2).
    eexists _, _, _, _.
    split; [exact (map_heap f this h xs Hthis) |].
    split; [exact (map_heap g (Generics.mkCollection (fresh (dom h))) _ _ H1) |].
    cbn [Generics.items]. split; [| split].
    + rewrite lookup_insert_eq, List.map_map. reflexivity.
    + rewrite lookup_insert_ne by done. exact H1.
    + rewrite lookup_insert_ne by done. exact H2.
  - intros p q.
    destruct (Hchain (List.filter p xs)) as (H1 & H2 & Hn1 & Hn2).
    eexists _, _, _, _.
    split; [exact (filter_heap p this h xs Hthis) |].
    split; [exact (filter_heap q (Generics.mkCollection (fresh (dom h))) _ _ H1) |].
    cbn [Generics.items]. split; [| split].
    + rewrite lookup_insert_eq, filter_filter_andb. reflexivity.
    + rewrite lookup_insert_ne by done. exact H1.
    + rewrite lookup_insert_ne by done. exact H2.
  - intros p f.
    destruct (Hchain (List.filter p xs)) as (H1 & H2 & Hn1 & Hn2).
    eexists _, _, _, _.
    split; [exact (filter_heap p this h xs Hthis) |].
    split; [exact (map_heap f (Generics.mkCollection (fresh (dom h))) _ _ H1) |].
    cbn [Generics.items]. split; [| split].
    + rewrite lookup_insert_eq. reflexivity.
    + rewrite lookup_insert_ne by done. exact H1.
    + rewrite lookup_insert_ne by done. exact H2.
  - intros item. cbv zeta. unfold Generics.getAll. cbn [fst snd].
    pose proof (add_contents this h xs item Hthis) as Hadd.
    rewrite Hadd. cbn [default]. rewrite lookup_insert_eq.
    split; [reflexivity |]. exact (fresh_differs _ _ _ Hadd).
Qed.

(** After [numbers.add(4)] on the collection of the example, [getAll]
    returns a copy that ends with 4. *)
Lemma collection_operations_compose_witness :
  snd (Generics.getAll (fst Generics.numbers)
         (Generics.add (fst Generics.numbers) (VNumber 4) (snd Generics.numbers)))
    !! fst (Generics.getAll (fst Generics.numbers)
              (Generics.add (fst Generics.numbers) (VNumber 4)
                 (snd Generics.numbers)))
  = Some ([VNumber 1; VNumber 2; VNumber 3] ++ [VNumber 4])%list.
Proof.
  refine (proj1 (proj2 (proj2 (proj2 (collection_operations_compose
                                        (fst Generics.numbers)
                                        (snd Generics.numbers)
                                        [VNumber 1; VNumber 2; VNumber 3] _)))
                       (VNumber 4))).
  vm_compute. reflexivity.
Defined.

(** Two [map] calls chained on the collection [numbers] of the example. *)
Example numbers_map_map :
  exists c1 h1 c2 h2,
    Generics.map (Generics.pure (fun v => v))
      (fst Generics.numbers) (snd Generics.numbers) = (Return c1, h1)
    /\ Generics.map (Generics.pure (fun v => VString (js "n"))) c1 h1
       = (Return c2, h2)
    /\ h2 !! Generics.items c2
       = Some [VString (js "n"); VString (js "n"); VString (js "n")]
    /\ h2 !! Generics.items (fst Generics.numbers)
       = Some [VNumber 1; VNumber 2; VNumber 3].
Proof. eexists _, _, _, _. repeat split; vm_compute; reflexivity. Qed.

(** *** The other type guards *)

Lemma has_true (object : TypeGuards.Obj) (key : string) (v : JsValue) :
  object !! key = Some v -> TypeGuards.has object key = true.
Proof.
  intros H. unfold TypeGuards.has. apply bool_decide_eq_true. now exists v.
Qed.

Lemma has_false (object : TypeGuards.Obj) (key : string) :
  object !! key = None -> TypeGuards.has object key = false.
Proof.
  intros H. unfold TypeGuards.has. apply bool_decide_eq_false.
  rewrite H. now intros [v Hv].
Qed.

(** X17.  The two ways the files tell a bird from a fish, ["fly" in
    animal] in [move] and [swim !== undefined] in [isFish], pick the same
    method on an animal that has either [fly] or [swim] as a function and
    not the other member, but not otherwise: on an animal that has both,
    [move] calls [fly] while [careForPet] calls [swim]; and on an animal
    whose [fly] member is present but not a function, [move] throws a
    [TypeError] although the animal can swim. *)
Theorem move_and_isFish_guards (animal : TypeGuards.Obj) (l : nat) :
  animal !! "layEggs" = Some (VFunction l) ->
  (forall s,
     animal !! "swim" = Some (VFunction s) -> animal !! "fly" = None ->
     TypeGuards.move animal = Some [VFunction s; VFunction l]
     /\ CustomTypes.careForPet (VObject animal) = VFunction s)
  /\ (forall f,
     animal !! "fly" = Some (VFunction f) -> animal !! "swim" = None ->
     TypeGuards.move animal = Some [VFunction f; VFunction l]
     /\ CustomTypes.careForPet (VObject animal) = VFunction f)
  /\ (forall f s,
     animal !! "fly" = Some (VFunction f) ->
     animal !! "swim" = Some (VFunction s) ->
     TypeGuards.move animal = Some [VFunction f; VFunction l]
     /\ CustomTypes.careForPet (VObject animal) = VFunction s)
  /\ (forall s,
     animal !! "fly" = Some VUndefined ->
     animal !! "swim" = Some (VFunction s) ->
     TypeGuards.move animal = None
     /\ CustomTypes.isFish (VObject animal) = true).
Proof.
  intros Hlay.
  unfold TypeGuards.move, TypeGuards.call_member,
    CustomTypes.careForPet, CustomTypes.isFish, get.
  split; [| split; [| split]].
  - intros s Hswim Hfly. rewrite (has_false _ _ Hfly), Hswim, Hlay. now simpl.
  - intros f Hfly Hswim. rewrite (has_true _ _ _ Hfly), Hfly, Hswim, Hlay. now simpl.
  - intros f s Hfly Hswim. rewrite (has_true _ _ _ Hfly), Hfly, Hswim, Hlay. now simpl.
  - intros s Hfly Hswim. rewrite (has_true _ _ _ Hfly), Hfly, Hswim. now simpl.
Qed.

Lemma move_and_isFish_guards_witness :
  TypeGuards.move
    (<["fly" := VFunction 0]>
       (<["swim" := VFunction 1]> (<["layEggs" := VFunction 2]> ∅)))
  = Some [VFunction 0; VFunction 2]
  /\ CustomTypes.careForPet
       (VObject (<["fly" := VFunction 0]>
                   (<["swim" := VFunction 1]> (<["layEggs" := VFunction 2]> ∅))))
     = VFunction 1.
Proof.
  refine (proj1 (proj2 (proj2 (move_and_isFish_guards _ 2 _))) 0 1 _ _);
    vm_compute; reflexivity.
Defined.

(** X18.  [isOfType] is not a function into the booleans: on a falsy
    value ([null], [undefined], [0], [NaN], the empty string, [false]) it
    returns that value; on any other primitive the [in] operator throws a
    [TypeError]; only on an object or a function does it return a boolean,
    which is [true] exactly when the property is there. *)
Theorem isOfType_results (function_has : nat -> string -> bool)
    (value : JsValue) (property : string) :
  (truthy value = false ->
     TypeGuards.isOfType function_has value property
     = TypeGuards.Returned value)
  /\ (truthy value = true ->
      typeof value <> "object" -> typeof value <> "function" ->
      TypeGuards.isOfType function_has value property
      = TypeGuards.TypeErrorThrown)
  /\ (forall props,
      value = VObject props ->
      TypeGuards.isOfType function_has value property
      = TypeGuards.Returned (VBoolean (TypeGuards.has props property))
      /\ (TypeGuards.has props property = true
          <-> exists v, props !! property = Some v))
  /\ ((exists b, TypeGuards.isOfType function_has value property
                 = TypeGuards.Returned (VBoolean b))
      <-> (exists props, value = VObject props)
          \/ (exists f, value = VFunction f)
          \/ value = VBoolean false).
Proof.
  unfold TypeGuards.isOfType.
  split; [| split; [| split]].
  - intros Hfalsy. now rewrite Hfalsy.
  - intros Htruthy Hobj Hfun. rewrite Htruthy. simpl.
    destruct value; try reflexivity; simpl in *; congruence.
  - intros props ->. simpl. split; [reflexivity |].
    unfold TypeGuards.has. rewrite bool_decide_eq_true. reflexivity.
  - split.
    + intros [b Hb]. destruct value as [| | b' | n | z | s | i | f | props];
        simpl in Hb.
      * discriminate.
      * discriminate.
      * destruct b'; simpl in Hb; [discriminate |]. now do 2 right.
      * destruct (negb (negb (number_falsy n))); discriminate.
      * destruct (negb (negb (z =? 0)%Z)); discriminate.
      * destruct s; discriminate.
      * discriminate.
      * right. left. eauto.
      * left. eauto.
    + intros [[props ->] | [[f ->] | ->]]; simpl; eauto.
Qed.

(** X19.  [assertNonNull] throws exactly on [null] and [undefined], with
    the given message; every other value, the falsy [0], [""] and [false]
    included, passes.  [capitalizeInput] returns the same as [processInput]
    of errorsHandling.ts on every string, and throws on every other value,
    with the bare message where [processInput] appends the type it got. *)
Theorem assertNonNull_rejects_null_and_undefined
    (toUpperCase : JsString -> JsString) (value : JsValue) (message : string) :
  (TypeGuards.assertNonNull value message = Return tt
   <-> value <> VNull /\ value <> VUndefined)
  /\ ((value = VNull \/ value = VUndefined) ->
      TypeGuards.assertNonNull value message
      = Throw (ThrownError (new_Error message)))
  /\ TypeGuards.assertNonNull (VNumber 0) message = Return tt
  /\ TypeGuards.assertNonNull (VString []) message = Return tt
  /\ TypeGuards.assertNonNull (VBoolean false) message = Return tt
  /\ (forall s, value = VString s ->
        TypeGuards.capitalizeInput toUpperCase value = Return (toUpperCase s)
        /\ TypeGuards.capitalizeInput toUpperCase value
           = processInput toUpperCase value)
  /\ (typeof value <> "string" ->
      TypeGuards.capitalizeInput toUpperCase value
      = Throw (ThrownError (new_Error "Input must be a string"))
      /\ processInput toUpperCase value
         = Throw (ThrownError
                    (new_Error ("Input must be a string (expected string, got "
                                ++ typeof value ++ ")")))).
Proof.
  split; [| split; [| split; [| split; [| split; [| split]]]]].
  - unfold TypeGuards.assertNonNull.
    destruct value; simpl; split; try discriminate; try (intros [H1 H2]; congruence);
      intros _; split; discriminate.
  - intros [-> | ->]; reflexivity.
  - reflexivity.
  - reflexivity.
  - reflexivity.
  - intros s ->. split; reflexivity.
  - intros Hty. unfold TypeGuards.capitalizeInput, TypeGuards.assertIsString,
      processInput.
    rewrite (assertIsString_other value _ Hty).
    destruct (String.eqb_spec (typeof value) "string") as [E | _]; [contradiction |].
    split; reflexivity.
Qed.

(** X20.  [ensureString], written with [||], never returns the empty
    string: it replaces [null] and also [""] by "default" and returns every
    other string as it is.  [provideValue], written with [??], replaces only
    [null] (by [0]) and returns every other value as it is, the empty string
    and [0] included. *)
Theorem ensureString_and_provideValue :
  (forall value, TypeGuards.ensureString value <> "")
  /\ (forall value s,
        TypeGuards.ensureString value = s
        <-> (value = Some s /\ s <> "")
            \/ (s = "default" /\ (value = None \/ value = Some "")))
  /\ (forall v, TypeGuards.provideValue (Some v) = v)
  /\ TypeGuards.provideValue None = TypeGuards.IsNumber 0
  /\ TypeGuards.ensureString (Some "") = "default"
  /\ TypeGuards.provideValue (Some (TypeGuards.IsString ""))
     = TypeGuards.IsString "".
Proof.
  split; [| split; [| split; [| split; [| split]]]]; try reflexivity.
  - intros [s |]; simpl; [| discriminate].
    destruct (String.eqb_spec s "") as [-> | Hne]; [discriminate | exact Hne].
  - intros [v |] s; simpl.
    + destruct (String.eqb_spec v "") as [-> | Hne]; split.
      * intros <-. right. split; [reflexivity | now right].
      * intros [[E Hs] | [-> _]]; [inversion E; subst; contradiction | reflexivity].
      * intros <-. left. now split.
      * intros [[E Hs] | [-> [E | E]]]; inversion E; subst; [reflexivity | contradiction].
    + split.
      * intros <-. right. split; [reflexivity | now left].
      * intros [[E _] | [-> _]]; [discriminate | reflexivity].
Qed.

(** *** Guards used with array methods *)

Lemma isNonNull_iff (value : JsValue) :
  TypeGuards.isNonNull value = true <-> value <> VNull /\ value <> VUndefined.
Proof.
  unfold TypeGuards.isNonNull.
  destruct value; simpl; split; try discriminate;
    try (intros [H1 H2]; congruence); intros _; split; discriminate.
Qed.

(** X21.  [filterAndProcess] removes the [null] and [undefined] elements
    and nothing else: an element is in the result exactly when it is in the
    input and is neither [null] nor [undefined] (falsy values such as [0]
    and [""] stay); the order is kept; filtering a concatenation is
    concatenating the filtered parts; filtering twice changes nothing more;
    and an input without [null] and [undefined] comes back as it is. *)
Theorem filterAndProcess_removes_null_and_undefined (items more : list JsValue) :
  (forall v, In v (TypeGuards.filterAndProcess items)
             <-> In v items /\ v <> VNull /\ v <> VUndefined)
  /\ sublist (TypeGuards.filterAndProcess items) items
  /\ TypeGuards.filterAndProcess (items ++ more)
     = (TypeGuards.filterAndProcess items ++ TypeGuards.filterAndProcess more)%list
  /\ TypeGuards.filterAndProcess (TypeGuards.filterAndProcess items)
     = TypeGuards.filterAndProcess items
  /\ ((forall v, In v items -> v <> VNull /\ v <> VUndefined) ->
      TypeGuards.filterAndProcess items = items)
  /\ TypeGuards.filterAndProcess TypeGuards.mixedData
     = [VNumber 1; VNumber 3; VNumber 5].
Proof.
  unfold TypeGuards.filterAndProcess.
  split; [| split; [| split; [| split; [| split]]]].
  - intros v. rewrite List.filter_In, isNonNull_iff. reflexivity.
  - induction items as [| x items IH]; simpl; [constructor |].
    destruct (TypeGuards.isNonNull x); now constructor.
  - apply List.filter_app.
  - rewrite filter_filter_andb.
    apply List.filter_ext. intros x. now destruct (TypeGuards.isNonNull x).
  - intros Hall. rewrite (List.filter_ext_in _ (fun _ => true)); [apply List.filter_true |].
    intros v Hv. now apply isNonNull_iff, Hall.
  - reflexivity.
Qed.

Lemma processResults_cons {T : Type} (r : TypeGuards.OkResult T)
    (results : list (TypeGuards.OkResult T)) :
  TypeGuards.processResults (r :: results)
  = match r with
    | TypeGuards.IsOk value => value :: TypeGuards.processResults results
    | TypeGuards.IsError _ => TypeGuards.processResults results
    end.
Proof. destruct r; reflexivity. Qed.

(** X22.  [processResults] keeps exactly the values of the results with
    [ok: true], in their order: a value is returned exactly when a
    successful result carries it, the number of values is the number of
    successful results, a concatenation is processed part by part, and
    results that are all errors give the empty array. *)
Theorem processResults_keeps_ok_values {T : Type}
    (results more : list (TypeGuards.OkResult T)) :
  (forall v, In v (TypeGuards.processResults results)
             <-> In (TypeGuards.IsOk v) results)
  /\ List.length (TypeGuards.processResults results)
     = List.length (List.filter TypeGuards.ok results)
  /\ TypeGuards.processResults (results ++ more)
     = (TypeGuards.processResults results ++ TypeGuards.processResults more)%list
  /\ TypeGuards.processResults (List.map TypeGuards.IsOk
                                  (TypeGuards.processResults results))
     = TypeGuards.processResults results
  /\ ((forall r, In r results -> TypeGuards.ok r = false) ->
      TypeGuards.processResults results = []).
Proof.
  split; [| split; [| split; [| split]]].
  - intros v. induction results as [| r results IH]; [simpl; tauto |].
    rewrite processResults_cons. destruct r as [value | error]; simpl.
    + rewrite IH. split; intros [H | H]; auto.
      * left. now subst.
      * left. now inversion H.
    + rewrite IH. split; [auto | intros [H | H]; [discriminate | exact H]].
  - induction results as [| r results IH]; [reflexivity |].
    rewrite processResults_cons. destruct r; simpl; [now rewrite IH | exact IH].
  - induction results as [| r results IH]; [reflexivity |].
    change ((r :: results) ++ more)%list with (r :: (results ++ more))%list.
    rewrite !processResults_cons. destruct r; [| exact IH].
    now rewrite IH.
  - induction (TypeGuards.processResults results) as [| v vs IH]; [reflexivity |].
    change (List.map TypeGuards.IsOk (v :: vs))
      with (TypeGuards.IsOk v :: List.map TypeGuards.IsOk vs).
    rewrite processResults_cons. now rewrite IH.
  - intros Hall. induction results as [| r results IH]; [reflexivity |].
    rewrite processResults_cons.
    pose proof (Hall r (or_introl eq_refl)) as Hr.
    destruct r; [discriminate |]. apply IH. intros r' Hin. apply Hall. now right.
Qed.

(** X23.  [processEntity] of an entity built by [enrichWithName] always
    takes the branch with a name.  For an object that has [id] as an own
    enumerable property holding a string, the result is the id, ": " and
    the name given, also when the object already had another name.  The
    spread copies nothing else: for an object whose [id] is inherited or not
    enumerable the result starts with "undefined" (unless [Object.prototype]
    has an [id]).  Without a [name] member the result ends in "Unknown",
    where [processIdentified] says "Unnamed"; with one the two functions
    agree. *)
Theorem processEntity_after_enrichWithName
    (String_ : JsValue -> Completion JsString)
    (Object_prototype : gmap string JsValue)
    (obj : TypeGuards.Entity) (i name : JsString) :
  TypeGuards.own obj !! "id" = Some (VString i) ->
  TypeGuards.processEntity String_
    (TypeGuards.enrichWithName Object_prototype obj name)
  = Return (i ++ js ": " ++ name)%list
  /\ (forall obj' : TypeGuards.Entity,
        TypeGuards.own obj' !! "id" = None ->
        Object_prototype !! "id" = None ->
        TypeGuards.processEntity String_
          (TypeGuards.enrichWithName Object_prototype obj' name)
        = Return (js "undefined: " ++ name)%list)
  /\ (TypeGuards.entity_has obj "name" = false ->
      TypeGuards.processEntity String_ obj = Return (i ++ js ": Unknown")%list
      /\ TypeGuards.processIdentified String_ obj
         = Return (i ++ js ": Unnamed")%list)
  /\ (TypeGuards.entity_has obj "name" = true ->
      TypeGuards.processEntity String_ obj
      = TypeGuards.processIdentified String_ obj).
Proof.
  intros Hid.
  assert (Hhas : forall o : TypeGuards.Entity,
             TypeGuards.entity_has
               (TypeGuards.enrichWithName Object_prototype o name) "name" = true).
  { intros o. unfold TypeGuards.entity_has, TypeGuards.enrichWithName.
    cbn [TypeGuards.own]. rewrite lookup_insert_eq.
    rewrite bool_decide_eq_true_2 by eauto. reflexivity. }
  assert (Hname : forall o : TypeGuards.Entity,
             TypeGuards.entity_get
               (TypeGuards.enrichWithName Object_prototype o name) "name"
             = VString name).
  { intros o. unfold TypeGuards.entity_get, TypeGuards.enrichWithName.
    cbn [TypeGuards.own]. now rewrite lookup_insert_eq. }
  split; [| split; [| split]].
  - unfold TypeGuards.processEntity. rewrite Hhas, Hname.
    unfold TypeGuards.entity_get, TypeGuards.enrichWithName.
    cbn [TypeGuards.own]. rewrite lookup_insert_ne by done. rewrite Hid.
    reflexivity.
  - intros obj' Hown Hproto.
    unfold TypeGuards.processEntity. rewrite Hhas, Hname.
    unfold TypeGuards.entity_get, TypeGuards.enrichWithName.
    cbn [TypeGuards.own TypeGuards.others].
    rewrite lookup_insert_ne by done. rewrite Hown, Hproto. reflexivity.
  - intros Hno.
    unfold TypeGuards.processEntity, TypeGuards.processIdentified,
      TypeGuards.hasName.
    rewrite Hno. unfold TypeGuards.entity_get. rewrite Hid. now split.
  - intros Hyes.
    unfold TypeGuards.processEntity, TypeGuards.processIdentified,
      TypeGuards.hasName.
    now rewrite Hyes.
Qed.

Lemma processEntity_after_enrichWithName_witness :
  TypeGuards.processEntity (fun _ => Return (js "?"))
    (TypeGuards.enrichWithName ∅
       (TypeGuards.mkEntity
          (<["id" := VString (js "42")]> (<["name" := VString (js "old")]> ∅)) ∅)
       (js "Ada"))
  = Return (js "42" ++ js ": " ++ js "Ada")%list.
Proof.
  refine (proj1 (processEntity_after_enrichWithName (fun _ => Return (js "?")) ∅
                   (TypeGuards.mkEntity
                      (<["id" := VString (js "42")]>
                         (<["name" := VString (js "old")]> ∅)) ∅)
                   (js "42") (js "Ada") _)).
  vm_compute. reflexivity.
Defined.

(** An [id] that is inherited is not copied by the spread. *)
Example enrichWithName_inherited_id :
  TypeGuards.processEntity (fun _ => Return (js "?"))
    (TypeGuards.enrichWithName ∅
       (TypeGuards.mkEntity ∅ (<["id" := VString (js "42")]> ∅)) (js "Ada"))
  = Return (js "undefined: Ada").
Proof. vm_compute. reflexivity. Qed.

(** *** The error report of [validateUserForm] *)

Lemma app_one_neq {A : Type} (xs : list A) (x : A) : xs <> (xs ++ [x])%list.
Proof.
  intros H. apply (f_equal (@List.length A)) in H.
  rewrite length_app in H. simpl in H. lia.
Qed.

Lemma check_username_field (data : JsValue) (errors : list FieldError) e :
  check_username data errors = (errors ++ [e])%list -> field e = "username".
Proof.
  unfold check_username.
  destruct (negb (truthy (get data "username"))
            || negb (typeof (get data "username") =? "string")).
  - intros H. apply app_inv_head in H. now inversion H.
  - destruct (str_length (get data "username") <? 3)%nat.
    + intros H. apply app_inv_head in H. now inversion H.
    + intros H. now apply app_one_neq in H.
Qed.

Lemma check_email_field (data : JsValue) (errors : list FieldError) e :
  check_email data errors = (errors ++ [e])%list -> field e = "email".
Proof.
  unfold check_email.
  destruct (negb (truthy (get data "email"))
            || negb (typeof (get data "email") =? "string")).
  - intros H. apply app_inv_head in H. now inversion H.
  - destruct (negb (str_includes (get data "email") (js "@"))).
    + intros H. apply app_inv_head in H. now inversion H.
    + intros H. now apply app_one_neq in H.
Qed.

Lemma check_age_field (data : JsValue) (errors : list FieldError) e :
  check_age data errors = (errors ++ [e])%list -> field e = "age".
Proof.
  unfold check_age.
  destruct (is_undefined (get data "age")
            || negb (typeof (get data "age") =? "number")).
  - intros H. apply app_inv_head in H. now inversion H.
  - destruct (number_lt (get data "age") 18).
    + intros H. apply app_inv_head in H. now inversion H.
    + intros H. now apply app_one_neq in H.
Qed.

(** X24.  For a form that is a non-null object, the error list of
    [validateUserForm] holds at most one error per field, in the order
    username, email, age: an error on a field is reported exactly when that
    field fails its check, so there are at most three errors, and
    [processUserForm] prints one line per error. *)
Theorem validateUserForm_reports_each_field_once
    (form : JsValue) (errors : list FieldError) :
  validateUserForm form = Invalid errors ->
  form_is_object form ->
  sublist (List.map field errors) ["username"; "email"; "age"]
  /\ (In "username" (List.map field errors) <-> ~ username_ok form)
  /\ (In "email" (List.map field errors) <-> ~ email_ok form)
  /\ (In "age" (List.map field errors) <-> ~ age_ok form)
  /\ List.length errors <= 3
  /\ List.length (snd (processUserForm form)) = List.length errors.
Proof.
  intros Hinvalid Hobj.
  assert (Hlines : List.length (snd (processUserForm form)) = List.length errors).
  { unfold processUserForm. rewrite Hinvalid. simpl. apply length_map. }
  rewrite (validateUserForm_object form Hobj) in Hinvalid. cbv zeta in Hinvalid.
  destruct (check_username_grows form []) as [[Hu Eu] | [Hu [eu Eu]]];
    destruct (check_email_grows form (check_username form []))
      as [[He Ee] | [He [ee Ee]]];
    destruct (check_age_grows form (check_email form (check_username form [])))
      as [[Ha Ea] | [Ha [ea Ea]]].
  all: try (pose proof (check_username_field _ _ _ Eu) as Fu).
  all: try (pose proof (check_email_field _ _ _ Ee) as Fe).
  all: try (pose proof (check_age_field _ _ _ Ea) as Fa).
  all: rewrite Ea, Ee, Eu in Hinvalid; simpl in Hinvalid;
    inversion Hinvalid; subst errors; clear Hinvalid; simpl;
    try rewrite Fu; try rewrite Fe; try rewrite Fa.
  all: split; [repeat (first [apply sublist_nil | apply sublist_skip
                              | apply sublist_cons]) |].
  all: repeat split; try lia; try tauto.
  all: try (intros H; repeat (destruct H as [H | H]; try discriminate H);
            try contradiction; tauto).
  all: try (intros _; simpl; tauto).
Qed.

Lemma validateUserForm_reports_each_field_once_witness :
  sublist
    (List.map field
       [mkFieldError "username" "Username must be at least 3 characters"
                     "USERNAME_TOO_SHORT";
        mkFieldError "email" "Email must be a valid email address"
                     "INVALID_EMAIL_FORMAT";
        mkFieldError "age" "You must be at least 18 years old" "AGE_TOO_YOUNG"])
    ["username"; "email"; "age"].
Proof.
  refine (proj1 (validateUserForm_reports_each_field_once rejected_form _ _ _)).
  - vm_compute. reflexivity.
  - split; [reflexivity | discriminate].
Defined.

(** *** The error built from a response *)

(** X25.  The [ApiError] that [fromResponse] builds always carries the
    status of the response and never an empty code: when the body is not
    JSON, or has no [code] or an empty one, the code is "UNKNOWN_ERROR",
    otherwise it is the code of the body; when the body has no [message] or
    an empty one, the message is "HTTP error " followed by the status,
    otherwise it is the message of the body.  [fromResponse] builds no error
    at all when [json()] returns a body whose properties cannot be read
    ([null]): the [TypeError] of the read is thrown instead, and this is the
    only way it throws. *)
Theorem fromResponse_fills_in_defaults {World T Init : Type}
    (env : ApiClient.Env World T Init) (response : ApiClient.Response T) :
  (forall e,
     ApiClient.fromResponse env response = Return e ->
     instanceof_ApiError (ThrownError e) = true
     /\ ApiClient.status_of (ThrownError e) = ApiClient.status response
     /\ ApiClient.code_of (ThrownError e) <> "")
  /\ (forall t,
        ApiClient.json response = Throw t ->
        ApiClient.fromResponse env response
        = Return (new_ApiError (ApiClient.status response) "UNKNOWN_ERROR"
                    ("HTTP error "
                     ++ ApiClient.show_number env (ApiClient.status response))
                    VUndefined))
  /\ (forall body payload,
        ApiClient.json response = Return body ->
        ApiClient.as_payload env body = Return payload ->
        exists e,
          ApiClient.fromResponse env response = Return e
          /\ ApiClient.code_of (ThrownError e)
             = match ApiClient.payload_code payload with
               | Some "" | None => "UNKNOWN_ERROR"
               | Some code => code
               end
          /\ message_of (ThrownError e)
             = match ApiClient.payload_message payload with
               | Some "" | None =>
                   "HTTP error "
                   ++ ApiClient.show_number env (ApiClient.status response)
               | Some message => message
               end)
  /\ (forall t,
        ApiClient.fromResponse env response = Throw t
        <-> exists body,
              ApiClient.json response = Return body
              /\ ApiClient.as_payload env body = Throw t).
Proof.
  assert (Hcode : forall payload,
             ApiClient.code_of
               (ThrownError (ApiClient.error_of_payload env response payload))
             = match ApiClient.payload_code payload with
               | Some "" | None => "UNKNOWN_ERROR"
               | Some code => code
               end).
  { intros payload. simpl. unfold ApiClient.or_else.
    destruct (ApiClient.payload_code payload) as [c |]; [| reflexivity].
    destruct (String.eqb_spec c "") as [-> | Hne]; [reflexivity |].
    destruct c; [contradiction | reflexivity]. }
  assert (Hnonempty : forall payload,
             ApiClient.code_of
               (ThrownError (ApiClient.error_of_payload env response payload))
             <> "").
  { intros payload. rewrite Hcode.
    destruct (ApiClient.payload_code payload) as [[| c code] |]; discriminate. }
  split; [| split; [| split]].
  - intros e He.
    destruct (fromResponse_is_ApiError env response e He) as [Hinst Hstatus].
    split; [exact Hinst |]. split; [exact Hstatus |].
    destruct (fromResponse_cases env response)
      as [(t & _ & E) | [(body & payload & _ & _ & E) | (body & t & _ & _ & E)]];
      rewrite E in He; inversion He; subst; apply Hnonempty.
  - intros t Ht. unfold ApiClient.fromResponse. rewrite Ht. reflexivity.
  - intros body payload Hb Hp. unfold ApiClient.fromResponse. rewrite Hb, Hp.
    eexists. split; [reflexivity |]. split; [apply Hcode |].
    simpl. unfold ApiClient.or_else.
    destruct (ApiClient.payload_message payload) as [m |]; [| reflexivity].
    destruct (String.eqb_spec m "") as [-> | Hne]; [reflexivity |].
    destruct m; [contradiction | reflexivity].
  - intros t. unfold ApiClient.fromResponse.
    destruct (ApiClient.json response) as [body | t'].
    + destruct (ApiClient.as_payload env body) as [payload | t''] eqn:Hp.
      * split; [discriminate | intros (b & Hb & Ht)].
        inversion Hb; subst. congruence.
      * split.
        -- intros H. inversion H; subst. now exists body.
        -- intros (b & Hb & Ht). inversion Hb; subst. congruence.
    + split; [discriminate | intros (b & Hb & _); discriminate].
Qed.

(** A response that is not [ok] with the body [null]: the status 503 is
    lost, the caller sees a client error. *)
Example apiRequest_null_body :
  ApiClient.apiRequest (failing_env 503 VNull) "/api/users/1" None 0
  = (Throw (ThrownError
              (new_ApiError 0 "CLIENT_ERROR" "Cannot read properties of null"
                            VUndefined)),
     1).
Proof. reflexivity. Qed.
